(** * pebbe/gl: the three OpenGL demos, embedded and checked against their specification

    The repository holds three [package main] programs:
    - [hello/hello.go]: two textures blended by a fragment shader (module [Hello]);
    - the fixed-pipeline demo titled "Testing" (module [Testing]);
    - the shader demo titled "Testing 3+" (module [Testing3]).

    Part I embeds the programs: Go's floating-point numbers ([Float]), the
    image buffers of [image] and [image/draw] ([Image]), the OpenGL context as
    a state machine driven by a trace of calls ([GL]), and then the functions
    of the three programs.  Part II proves the properties. *)

From Stdlib Require Import ZArith QArith Qround Qabs Qpower Lqa Lia List String Ascii Bool.
From stdpp Require Import gmap strings list.

(** * Part I: the embedding *)

(** ** Go floating-point values

    A [float32] or [float64] value is a rational, an infinity or NaN.  Every
    arithmetic operation computes the exact rational result and rounds it to
    the format (round to nearest, ties to even, with gradual underflow and
    overflow to infinity), which is what IEEE 754 and hence Go prescribe.
    The sign of zero is not represented: the one place where it would show,
    a division by a negative zero, needs a negative operand, and the programs
    only divide non-negative framebuffer sizes. *)
Module Float.
Local Open Scope Q_scope.

Inductive float : Type :=
  | Fin (q : Q)
  | PInf
  | NInf
  | NaN.

Record format : Type := Format { prec : Z; emin : Z; emax : Z }.

Definition binary32 : format := Format 24 (-126) 128.
Definition binary64 : format := Format 53 (-1022) 1024.

(** [Qlog2 q] is the exponent [e] with [2^e <= q < 2^(e+1)], for [0 < q]. *)
Definition Qlog2 (q : Q) : Z :=
  let k := (Z.log2 (Qnum q) - Z.log2 (Zpos (Qden q)))%Z in
  if Qle_bool (2 ^ k) q then k else (k - 1)%Z.

Definition round_half_even (q : Q) : Z :=
  let f := Qfloor q in
  match Qcompare (q - inject_Z f) (1 # 2) with
  | Lt => f
  | Gt => (f + 1)%Z
  | Eq => if Z.even f then f else (f + 1)%Z
  end.

(** The unit in the last place of the binade of [q], not below the
    subnormal spacing. *)
Definition ulp (p m : Z) (q : Q) : Q :=
  2 ^ (Z.max (Qlog2 q) m - p + 1).

Definition round_pos (p m : Z) (q : Q) : Q :=
  Qred (inject_Z (round_half_even (q / ulp p m q)) * ulp p m q).

Definition round_to (p m : Z) (q : Q) : Q :=
  match Qcompare q 0 with
  | Eq => 0
  | Gt => round_pos p m q
  | Lt => - round_pos p m (- q)
  end.

Definition rnd (f : format) (q : Q) : float :=
  let v := round_to (prec f) (emin f) q in
  if Qle_bool (2 ^ emax f) (Qabs v)
  then (if Qle_bool 0 v then PInf else NInf)
  else Fin v.

(** A finite value of the format: rounding leaves it alone. *)
Definition representable (f : format) (q : Q) : Prop := rnd f q = Fin q.

Definition fsign (a : float) : comparison :=
  match a with
  | Fin q => Qcompare q 0
  | PInf => Gt
  | NInf => Lt
  | NaN => Eq
  end.

Definition sign_mul (s t : comparison) : comparison :=
  match s, t with
  | Eq, _ | _, Eq => Eq
  | Gt, Gt | Lt, Lt => Gt
  | _, _ => Lt
  end.

Definition inf_of_sign (s : comparison) : float :=
  match s with
  | Gt => PInf
  | Lt => NInf
  | Eq => NaN
  end.

Definition fneg (a : float) : float :=
  match a with
  | Fin q => Fin (- q)
  | PInf => NInf
  | NInf => PInf
  | NaN => NaN
  end.

(** [math.Abs] *)
Definition Abs (a : float) : float :=
  match a with
  | Fin q => Fin (Qabs q)
  | PInf | NInf => PInf
  | NaN => NaN
  end.

Definition fadd (f : format) (a b : float) : float :=
  match a, b with
  | NaN, _ | _, NaN => NaN
  | Fin x, Fin y => rnd f (x + y)
  | PInf, NInf | NInf, PInf => NaN
  | PInf, _ | _, PInf => PInf
  | NInf, _ | _, NInf => NInf
  end.

Definition fsub (f : format) (a b : float) : float := fadd f a (fneg b).

Definition fmul (f : format) (a b : float) : float :=
  match a, b with
  | NaN, _ | _, NaN => NaN
  | Fin x, Fin y => rnd f (x * y)
  | _, _ => inf_of_sign (sign_mul (fsign a) (fsign b))
  end.

Definition fdiv (f : format) (a b : float) : float :=
  match a, b with
  | NaN, _ | _, NaN => NaN
  | Fin x, Fin y =>
      if Qeq_bool y 0 then inf_of_sign (Qcompare x 0) else rnd f (x / y)
  | Fin _, _ => Fin 0
  | _, Fin y => inf_of_sign (sign_mul (fsign a) (if Qeq_bool y 0 then Gt else Qcompare y 0))
  | _, _ => NaN
  end.

(** Comparison; [None] when an operand is NaN, so that every ordered test
    on NaN is false as in Go. *)
Definition fcompare (a b : float) : option comparison :=
  match a, b with
  | NaN, _ | _, NaN => None
  | Fin x, Fin y => Some (Qcompare x y)
  | PInf, PInf | NInf, NInf => Some Eq
  | PInf, _ | _, NInf => Some Gt
  | NInf, _ | _, PInf => Some Lt
  end.

Definition flt (a b : float) : bool :=
  match fcompare a b with Some Lt => true | _ => false end.

Definition fgt (a b : float) : bool :=
  match fcompare a b with Some Gt => true | _ => false end.

(** Truncation toward zero. *)
Definition Qtrunc (q : Q) : Z := Z.quot (Qnum q) (Zpos (Qden q)).

(** [math.Mod]: the floating-point remainder of [x/y], with the sign of [x];
    it is exact.  Special cases as documented for [math.Mod]. *)
Definition Mod (x y : float) : float :=
  match x, y with
  | NaN, _ | _, NaN => NaN
  | PInf, _ | NInf, _ => NaN
  | Fin a, PInf | Fin a, NInf => Fin a
  | Fin a, Fin b =>
      if Qeq_bool b 0 then NaN else Fin (Qred (a - b * inject_Z (Qtrunc (a / b))))
  end.

(** Conversions [float32(x)], [float64(x)] between the formats and from [int]. *)
Definition convert (f : format) (a : float) : float :=
  match a with
  | Fin q => rnd f q
  | _ => a
  end.

Definition of_int (f : format) (n : Z) : float := rnd f (inject_Z n).

(** [math.Pi], the untyped constant of package [math]. *)
Definition Pi : Q :=
  314159265358979323846264338327950288419716939937510582097494459 # (10 ^ 62).

(** [for i := start; i < stop; i += step], on [float64]: the values of [i]
    for which the body runs, or [None] when the fuel does not reach the end. *)
Fixpoint float_range (fuel : nat) (i stop step : float) : option (list float) :=
  if flt i stop then
    match fuel with
    | O => None
    | S n => option_map (cons i) (float_range n (fadd binary64 i step) stop step)
    end
  else Some nil.

End Float.

(** ** Go integer conversions *)

Definition uint32 (z : Z) : Z := z mod 2 ^ 32.

Definition int32 (z : Z) : Z := (z + 2 ^ 31) mod 2 ^ 32 - 2 ^ 31.

(** ** Packages [image] and [image/draw]

    The decoded picture and the upload buffer are both [*image.RGBA]: a byte
    slice [Pix] of 4-byte pixels, the distance [Stride] in bytes between two
    rows, and the rectangle [Rect] the pixels cover. *)
Module Image.
Local Open Scope Z_scope.

Record Point : Type := Pt { X : Z; Y : Z }.

Record Rectangle : Type := Rectangle_ { Min : Point; Max : Point }.

Definition ZR : Rectangle := Rectangle_ (Pt 0 0) (Pt 0 0).

(** [image.Rect]: the corners are put in order. *)
Definition image_Rect (x0 y0 x1 y1 : Z) : Rectangle :=
  let '(x0, x1) := if x1 <? x0 then (x1, x0) else (x0, x1) in
  let '(y0, y1) := if y1 <? y0 then (y1, y0) else (y0, y1) in
  Rectangle_ (Pt x0 y0) (Pt x1 y1).

Definition Dx (r : Rectangle) : Z := X (Max r) - X (Min r).
Definition Dy (r : Rectangle) : Z := Y (Max r) - Y (Min r).
Definition Size (r : Rectangle) : Point := Pt (Dx r) (Dy r).

Definition Empty (r : Rectangle) : bool :=
  (X (Max r) <=? X (Min r)) || (Y (Max r) <=? Y (Min r)).

Definition Intersect (r s : Rectangle) : Rectangle :=
  let r' := Rectangle_ (Pt (Z.max (X (Min r)) (X (Min s))) (Z.max (Y (Min r)) (Y (Min s))))
                       (Pt (Z.min (X (Max r)) (X (Max s))) (Z.min (Y (Max r)) (Y (Max s)))) in
  if Empty r' then ZR else r'.

Definition Add (r : Rectangle) (p : Point) : Rectangle :=
  Rectangle_ (Pt (X (Min r) + X p) (Y (Min r) + Y p))
             (Pt (X (Max r) + X p) (Y (Max r) + Y p)).

Definition Sub (p q : Point) : Point := Pt (X p - X q) (Y p - Y q).

Definition In (p : Point) (r : Rectangle) : bool :=
  (X (Min r) <=? X p) && (X p <? X (Max r)) && (Y (Min r) <=? Y p) && (Y p <? Y (Max r)).

Record RGBA : Type := mkRGBA { Pix : list Z; Stride : Z; Rect : Rectangle }.

Definition Bounds (p : RGBA) : Rectangle := Rect p.

(** [image.NewRGBA]: a zeroed, tightly packed buffer. *)
Definition NewRGBA (r : Rectangle) : RGBA :=
  let w := Dx r in
  let h := Dy r in
  mkRGBA (replicate (Z.to_nat (4 * w * h)) 0) (4 * w) r.

Definition PixOffset (p : RGBA) (x y : Z) : Z :=
  (y - Y (Min (Rect p))) * Stride p + (x - X (Min (Rect p))) * 4.

(** Byte [c] (0..3) of the pixel at [(x, y)]. *)
Definition byte_at (p : RGBA) (x y c : Z) : option Z :=
  Pix p !! Z.to_nat (PixOffset p x y + c).

(** The clipping done by [draw.DrawMask] before it copies: the rectangle is
    cut to the destination and to the source, and the source point follows
    the move of the rectangle's corner. *)
Definition clip (dst : RGBA) (r : Rectangle) (src : RGBA) (sp : Point)
  : Rectangle * Point :=
  let orig := Min r in
  let r1 := Intersect r (Bounds dst) in
  let r2 := Intersect r1 (Add (Bounds src) (Sub orig sp)) in
  let dx := X (Min r2) - X orig in
  let dy := Y (Min r2) - Y orig in
  (r2, Pt (X sp + dx) (Y sp + dy)).

(** [draw.Draw(dst, r, src, sp, draw.Src)] for two RGBA images: inside the
    clipped rectangle every destination byte is replaced by the byte of the
    source pixel that [sp] aligns with it. *)
Definition Draw (dst : RGBA) (r : Rectangle) (src : RGBA) (sp : Point) : RGBA :=
  let '(r', sp') := clip dst r src sp in
  if Empty r' then dst else
  let put (i : nat) (old : Z) : Z :=
    let row := Z.of_nat i / Stride dst in
    let col := Z.of_nat i mod Stride dst in
    let x := X (Min (Rect dst)) + col / 4 in
    let y := Y (Min (Rect dst)) + row in
    if In (Pt x y) r' then
      default 0 (byte_at src (x - X (Min r') + X sp') (y - Y (Min r') + Y sp') (col mod 4))
    else old in
  mkRGBA (imap put (Pix dst)) (Stride dst) (Rect dst).

End Image.

(** ** The OpenGL context

    The graphics library is outside the repository.  It is modelled as a state
    machine: every call of the programs is an element of [call], carrying its
    arguments and, for the calls that return something, the returned value;
    [step] gives the effect of a call on the context.  What the driver
    decides (whether a shader compiles, its diagnostic log, the locations of
    attributes and uniforms) is a parameter, [driver]. *)
Module GL.
Import Float.
Local Open Scope Z_scope.

Inductive enum : Type :=
  | ARRAY_BUFFER | ELEMENT_ARRAY_BUFFER | STATIC_DRAW
  | TEXTURE_2D | TEXTURE_MIN_FILTER | TEXTURE_MAG_FILTER
  | TEXTURE_WRAP_S | TEXTURE_WRAP_T | LINEAR | CLAMP_TO_EDGE
  | RGBA | RGB8 | UNSIGNED_BYTE | UNSIGNED_INT | FLOAT
  | VERTEX_SHADER | FRAGMENT_SHADER
  | COMPILE_STATUS | LINK_STATUS | INFO_LOG_LENGTH
  | COLOR_BUFFER_BIT | PROJECTION | MODELVIEW | TEXTURE0 | TEXTURE1
  | TRIANGLE_STRIP | TRIANGLES | LINES | LINE_LOOP | LINE.

Definition FALSE : Z := 0.
Definition TRUE : Z := 1.

(** The contents of a buffer object: 4-byte floats or 4-byte unsigned integers. *)
Inductive bufdata : Type :=
  | Floats (l : list float)
  | Uints (l : list Z).

Definition buf_len (d : bufdata) : Z :=
  match d with
  | Floats l => Z.of_nat (length l)
  | Uints l => Z.of_nat (length l)
  end.

Definition buf_take (n : nat) (d : bufdata) : bufdata :=
  match d with
  | Floats l => Floats (take n l)
  | Uints l => Uints (take n l)
  end.

Inductive call : Type :=
  | GenBuffers (buffer : Z)
  | BindBuffer (target : enum) (buffer : Z)
  | BufferData (target : enum) (size : Z) (data : bufdata) (usage : enum)
  | GenTextures (texture : Z)
  | BindTexture (target : enum) (texture : Z)
  | TexParameteri (target pname param : enum)
  | TexImage2D (target : enum) (level : Z) (internalformat : enum)
      (width height border : Z) (format type : enum) (pixels : list Z)
  | CreateShader (type : enum) (shader : Z)
  | ShaderSource (shader : Z) (source : string)
  | CompileShader (shader : Z)
  | GetShaderiv (shader : Z) (pname : enum) (params : Z)
  | GetShaderInfoLog (shader : Z) (bufSize : Z) (infoLog : string)
  | CreateProgram (program : Z)
  | AttachShader (program shader : Z)
  | LinkProgram (program : Z)
  | GetProgramiv (program : Z) (pname : enum) (params : Z)
  | GetProgramInfoLog (program : Z) (bufSize : Z) (infoLog : string)
  | GetUniformLocation (program : Z) (name : string) (location : Z)
  | GetAttribLocation (program : Z) (name : string) (location : Z)
  | ClearColor (r g b a : float)
  | Viewport (x y width height : Z)
  | Clear (mask : enum)
  | MatrixMode (mode : enum)
  | LoadIdentity
  | Ortho (left right bottom top zNear zFar : float)
  | Rotatef (angle x y z : float)
  | LineWidth (width : float)
  | Begin (mode : enum)
  | GlEnd
  | Color3f (r g b : float)
  | Vertex3f (x y z : float)
  | UseProgram (program : Z)
  | Uniform1f (location : Z) (v : float)
  | Uniform1i (location : Z) (v : Z)
  | ActiveTexture (texture : enum)
  | VertexAttribPointer (index size : Z) (type : enum) (normalized : bool)
      (stride offset : Z)
  | EnableVertexAttribArray (index : Z)
  | DisableVertexAttribArray (index : Z)
  | DrawElements (mode : enum) (count : Z) (type : enum) (offset : Z)
  | SwapBuffers.

(** Where a generic vertex attribute reads from: the buffer that was bound
    to [ARRAY_BUFFER] when [VertexAttribPointer] was called. *)
Record attrib : Type :=
  Attrib { a_buffer : Z; a_size : Z; a_stride : Z; a_offset : Z }.

Record shader : Type :=
  Shader { sh_type : enum; sh_source : string; sh_status : bool; sh_log : string }.

Record program : Type :=
  Program { pr_shaders : list Z; pr_status : bool; pr_log : string }.

Record teximage : Type :=
  TexImage { tx_internalformat : enum; tx_width : Z; tx_height : Z;
             tx_format : enum; tx_pixels : list Z }.

(** The part of the context an indexed draw reads. *)
Record arrays : Type :=
  Arrays { buffers : gmap Z bufdata;
           array_buffer : Z;
           element_buffer : Z;
           pointers : gmap Z attrib;
           enabled : gset Z }.

(** One executed [DrawElements], with the arrays as they were at the call. *)
Record draw : Type :=
  Draw { d_mode : enum; d_count : Z; d_offset : Z; d_arrays : arrays }.

Record context : Type :=
  Context { last_buffer : Z;
            last_texture : Z;
            last_object : Z;
            vertex_arrays : arrays;
            texture_2d : Z;
            textures : gmap Z teximage;
            shaders : gmap Z shader;
            programs : gmap Z program;
            draws : list draw }.

Definition initial : context :=
  Context 0 0 0 (Arrays ∅ 0 0 ∅ ∅) 0 ∅ ∅ ∅ [].

Record driver : Type :=
  Driver { max_vertex_attribs : Z;
           compile : enum -> string -> bool * string;
           link : list shader -> bool * string;
           attrib_location : list shader -> string -> Z;
           uniform_location : list shader -> string -> Z }.

Definition set_arrays (a : arrays) (s : context) : context :=
  Context (last_buffer s) (last_texture s) (last_object s) a (texture_2d s)
          (textures s) (shaders s) (programs s) (draws s).

Definition set_shaders (m : gmap Z shader) (s : context) : context :=
  Context (last_buffer s) (last_texture s) (last_object s) (vertex_arrays s)
          (texture_2d s) (textures s) m (programs s) (draws s).

Definition set_programs (m : gmap Z program) (s : context) : context :=
  Context (last_buffer s) (last_texture s) (last_object s) (vertex_arrays s)
          (texture_2d s) (textures s) (shaders s) m (draws s).

Definition bound (t : enum) (a : arrays) : Z :=
  match t with
  | ARRAY_BUFFER => array_buffer a
  | ELEMENT_ARRAY_BUFFER => element_buffer a
  | _ => 0
  end.

Definition bind_buffer (t : enum) (b : Z) (a : arrays) : arrays :=
  match t with
  | ARRAY_BUFFER => Arrays (buffers a) b (element_buffer a) (pointers a) (enabled a)
  | ELEMENT_ARRAY_BUFFER => Arrays (buffers a) (array_buffer a) b (pointers a) (enabled a)
  | _ => a
  end.

Definition buffer_data (t : enum) (size : Z) (data : bufdata) (a : arrays) : arrays :=
  let b := bound t a in
  if b =? 0 then a
  else Arrays (<[b := buf_take (Z.to_nat (size / 4)) data]> (buffers a))
              (array_buffer a) (element_buffer a) (pointers a) (enabled a).

(** An attribute index the context accepts; a call with any other index
    raises [INVALID_VALUE] and changes nothing. *)
Definition valid_index (d : driver) (i : Z) : bool :=
  (0 <=? i) && (i <? max_vertex_attribs d).

Definition attrib_pointer (d : driver) (i size stride offset : Z) (a : arrays) : arrays :=
  if valid_index d i
  then Arrays (buffers a) (array_buffer a) (element_buffer a)
              (<[i := Attrib (array_buffer a) size stride offset]> (pointers a))
              (enabled a)
  else a.

Definition enable_attrib (d : driver) (i : Z) (a : arrays) : arrays :=
  if valid_index d i
  then Arrays (buffers a) (array_buffer a) (element_buffer a) (pointers a)
              ({[i]} ∪ enabled a)
  else a.

Definition disable_attrib (d : driver) (i : Z) (a : arrays) : arrays :=
  if valid_index d i
  then Arrays (buffers a) (array_buffer a) (element_buffer a) (pointers a)
              (enabled a ∖ {[i]})
  else a.

Definition attached (s : context) (p : program) : list shader :=
  omap (fun n => shaders s !! n) (pr_shaders p).

Definition step (d : driver) (c : call) (s : context) : context :=
  match c with
  | GenBuffers b =>
      Context b (last_texture s) (last_object s) (vertex_arrays s) (texture_2d s)
              (textures s) (shaders s) (programs s) (draws s)
  | BindBuffer t b => set_arrays (bind_buffer t b (vertex_arrays s)) s
  | BufferData t size data _ => set_arrays (buffer_data t size data (vertex_arrays s)) s
  | VertexAttribPointer i size _ _ stride offset =>
      set_arrays (attrib_pointer d i size stride offset (vertex_arrays s)) s
  | EnableVertexAttribArray i => set_arrays (enable_attrib d i (vertex_arrays s)) s
  | DisableVertexAttribArray i => set_arrays (disable_attrib d i (vertex_arrays s)) s
  | DrawElements m n _ off =>
      Context (last_buffer s) (last_texture s) (last_object s) (vertex_arrays s)
              (texture_2d s) (textures s) (shaders s) (programs s)
              (draws s ++ [Draw m n off (vertex_arrays s)])
  | GenTextures t =>
      Context (last_buffer s) t (last_object s) (vertex_arrays s) (texture_2d s)
              (textures s) (shaders s) (programs s) (draws s)
  | BindTexture _ t =>
      Context (last_buffer s) (last_texture s) (last_object s) (vertex_arrays s) t
              (textures s) (shaders s) (programs s) (draws s)
  | TexImage2D _ _ ifmt w h _ fmt _ px =>
      Context (last_buffer s) (last_texture s) (last_object s) (vertex_arrays s)
              (texture_2d s)
              (<[texture_2d s := TexImage ifmt w h fmt px]> (textures s))
              (shaders s) (programs s) (draws s)
  | CreateShader ty n =>
      Context (last_buffer s) (last_texture s) n (vertex_arrays s) (texture_2d s)
              (textures s) (<[n := Shader ty EmptyString false EmptyString]> (shaders s))
              (programs s) (draws s)
  | ShaderSource n src =>
      set_shaders
        (alter (fun sh => Shader (sh_type sh) src (sh_status sh) (sh_log sh)) n (shaders s)) s
  | CompileShader n =>
      set_shaders
        (alter (fun sh => let r := compile d (sh_type sh) (sh_source sh) in
                          Shader (sh_type sh) (sh_source sh) (fst r) (snd r)) n (shaders s)) s
  | CreateProgram n =>
      Context (last_buffer s) (last_texture s) n (vertex_arrays s) (texture_2d s)
              (textures s) (shaders s)
              (<[n := Program [] false EmptyString]> (programs s)) (draws s)
  | AttachShader p n =>
      set_programs
        (alter (fun pr => Program (pr_shaders pr ++ [n]) (pr_status pr) (pr_log pr)) p
               (programs s)) s
  | LinkProgram p =>
      set_programs
        (alter (fun pr => let r := link d (attached s pr) in
                          Program (pr_shaders pr) (fst r) (snd r)) p (programs s)) s
  | _ => s
  end.

(** *** Running a program against the context

    A computation threads the context and the trace of calls issued so far.
    It ends with a value ([Ok]), with the process killed by [log.Fatalln]
    ([Fatal], with the line it logs) or by [panic] ([Panic]), or it runs out
    of the fuel given to a loop ([Stuck]). *)
Record world : Type := World { ctx : context; trace : list call }.

Inductive result (A : Type) : Type :=
  | Ok (a : A) (w : world)
  | Fatal (msg : string) (w : world)
  | Panic (msg : string) (w : world)
  | Stuck.
Arguments Ok {A} a w.
Arguments Fatal {A} msg w.
Arguments Panic {A} msg w.
Arguments Stuck {A}.

Definition M (A : Type) : Type := world -> result A.

Definition ret {A : Type} (a : A) : M A := fun w => Ok a w.

Definition bind {A B : Type} (m : M A) (k : A -> M B) : M B :=
  fun w =>
    match m w with
    | Ok a w' => k a w'
    | Fatal msg w' => Fatal msg w'
    | Panic msg w' => Panic msg w'
    | Stuck => Stuck
    end.

Definition get : M context := fun w => Ok (ctx w) w.

Definition Fatalln {A : Type} (msg : string) : M A := fun w => Fatal msg w.

Definition stuck {A : Type} : M A := fun _ => Stuck.

(** The result of a loop that was run with fuel. *)
Definition of_loop {A : Type} (o : option A) : M A :=
  match o with
  | Some a => ret a
  | None => stuck
  end.

Definition panic {A : Type} (msg : string) : M A := fun w => Panic msg w.

Definition emit (d : driver) (c : call) : M unit :=
  fun w => Ok tt (World (step d c (ctx w)) (trace w ++ [c])).

Fixpoint emits (d : driver) (cs : list call) : M unit :=
  match cs with
  | [] => ret tt
  | c :: cs' => bind (emit d c) (fun _ => emits d cs')
  end.

(** The world after the calls [cs] have been issued in turn. *)
Definition run_calls (d : driver) (cs : list call) (w : world) : world :=
  World (fold_left (fun s c => step d c s) cs (ctx w)) (trace w ++ cs).

(** The world a run ends in, whichever way it ends. *)
Definition final {A : Type} (r : result A) : option world :=
  match r with
  | Ok _ w | Fatal _ w | Panic _ w => Some w
  | Stuck => None
  end.

(** *** Strings handed to the library *)

Definition NUL : string := String Ascii.zero EmptyString.

(** [gl.Str]: the C string the library sees, up to the terminating NUL. *)
Fixpoint Str (s : string) : string :=
  match s with
  | EmptyString => EmptyString
  | String c s' => if Ascii.eqb c Ascii.zero then EmptyString else String c (Str s')
  end.

(** [strings.Repeat] *)
Fixpoint Repeat (s : string) (n : nat) : string :=
  match n with
  | O => EmptyString
  | S k => String.append s (Repeat s k)
  end.

(** The value of [INFO_LOG_LENGTH]: the log with its terminator, or 0 when
    there is no log. *)
Definition log_length (log : string) : Z :=
  match log with
  | EmptyString => 0
  | _ => Z.of_nat (String.length log) + 1
  end.

(** What [GetShaderInfoLog] and [GetProgramInfoLog] leave in the caller's
    buffer: at most [bufSize - 1] characters of the log, then a NUL; the rest
    of the buffer is not touched.  The programs pass the storage of a Go
    string and print that string afterwards. *)
Definition write_log (log : string) (bufSize : Z) (buf : string) : string :=
  if bufSize <=? 0 then buf
  else
    let n := Nat.min (Z.to_nat (bufSize - 1)) (String.length log) in
    String.append (substring 0 n log)
      (String.append NUL (substring (S n) (String.length buf - S n) buf)).

(** *** Calls that return a value *)
Section Calls.
Variable d : driver.

Definition glGenBuffers : M Z :=
  bind get (fun s =>
  let b := last_buffer s + 1 in
  bind (emit d (GenBuffers b)) (fun _ => ret b)).

Definition glGenTextures : M Z :=
  bind get (fun s =>
  let t := last_texture s + 1 in
  bind (emit d (GenTextures t)) (fun _ => ret t)).

Definition glCreateShader (ty : enum) : M Z :=
  bind get (fun s =>
  let n := last_object s + 1 in
  bind (emit d (CreateShader ty n)) (fun _ => ret n)).

Definition glCreateProgram : M Z :=
  bind get (fun s =>
  let n := last_object s + 1 in
  bind (emit d (CreateProgram n)) (fun _ => ret n)).

Definition shader_param (s : context) (n : Z) (pname : enum) : Z :=
  match shaders s !! n with
  | Some sh =>
      match pname with
      | COMPILE_STATUS => if sh_status sh then TRUE else FALSE
      | INFO_LOG_LENGTH => log_length (sh_log sh)
      | _ => 0
      end
  | None => 0
  end.

Definition program_param (s : context) (n : Z) (pname : enum) : Z :=
  match programs s !! n with
  | Some pr =>
      match pname with
      | LINK_STATUS => if pr_status pr then TRUE else FALSE
      | INFO_LOG_LENGTH => log_length (pr_log pr)
      | _ => 0
      end
  | None => 0
  end.

Definition glGetShaderiv (n : Z) (pname : enum) : M Z :=
  bind get (fun s =>
  let v := shader_param s n pname in
  bind (emit d (GetShaderiv n pname v)) (fun _ => ret v)).

Definition glGetProgramiv (n : Z) (pname : enum) : M Z :=
  bind get (fun s =>
  let v := program_param s n pname in
  bind (emit d (GetProgramiv n pname v)) (fun _ => ret v)).

Definition glGetShaderInfoLog (n bufSize : Z) (buf : string) : M string :=
  bind get (fun s =>
  let log := match shaders s !! n with Some sh => sh_log sh | None => EmptyString end in
  let buf' := write_log log bufSize buf in
  bind (emit d (GetShaderInfoLog n bufSize buf')) (fun _ => ret buf')).

Definition glGetProgramInfoLog (n bufSize : Z) (buf : string) : M string :=
  bind get (fun s =>
  let log := match programs s !! n with Some pr => pr_log pr | None => EmptyString end in
  let buf' := write_log log bufSize buf in
  bind (emit d (GetProgramInfoLog n bufSize buf')) (fun _ => ret buf')).

(** Locations exist only in a linked program; otherwise the answer is -1. *)
Definition location_in (lookup : list shader -> string -> Z) (s : context)
    (p : Z) (name : string) : Z :=
  match programs s !! p with
  | Some pr => if pr_status pr then lookup (attached s pr) name else -1
  | None => -1
  end.

Definition glGetUniformLocation (p : Z) (name : string) : M Z :=
  bind get (fun s =>
  let l := location_in (uniform_location d) s p (Str name) in
  bind (emit d (GetUniformLocation p (Str name) l)) (fun _ => ret l)).

Definition glGetAttribLocation (p : Z) (name : string) : M Z :=
  bind get (fun s =>
  let l := location_in (attrib_location d) s p (Str name) in
  bind (emit d (GetAttribLocation p (Str name) l)) (fun _ => ret l)).

End Calls.

End GL.

Notation "'let*' x ':=' m 'in' k" := (GL.bind m (fun x => k))
  (at level 10, x name, m at level 100, k at level 200).
Notation "m ';;;' k" := (GL.bind m (fun _ => k))
  (at level 100, k at level 200, right associativity).

(** ** The window and the inputs of a run

    Window creation, the event loop and the clock belong to GLFW and the
    operating system.  A run is determined by whether the three
    initialisations succeed and by what every iteration of the main loop
    gets: the time, the framebuffer size, and the characters typed. *)
Module Glfw.

Record Window : Type := mkWindow { shouldClose : bool }.

Definition ShouldClose (w : Window) : bool := shouldClose w.

Definition SetShouldClose (w : Window) (value : bool) : Window := mkWindow value.

Record frame : Type :=
  Frame { seconds : Float.float; fb_width : Z; fb_height : Z; chars : list Z }.

Record platform : Type :=
  Platform { glfw_Init : option string;
             CreateWindow : option string;
             gl_Init : option string;
             files : string -> string + Image.RGBA;
             frames : list frame }.

End Glfw.

(** ** Functions that two of the programs share word for word

    [x], [makeBuffer], [makeShader], [makeProgram] and [charCallBack] read
    the same in [hello.go] and in "Testing 3+"; [hsb2rgb] reads the same in
    "Testing" and in "Testing 3+". *)
Module Shared.
Import Float.
Local Open Scope Z_scope.

(** [func x(err error)]: [log.Fatalln] when there is an error. *)
Definition x (err : option string) : GL.M unit :=
  match err with
  | Some e => GL.Fatalln e
  | None => GL.ret tt
  end.

(** [fmt.Errorf("failed to compile %v: %v", source, log)] *)
Definition compile_error (source log : string) : string :=
  String.append "failed to compile "
    (String.append source (String.append ": " log)).

(** [fmt.Sprintf("failed to link program: %v", log)] *)
Definition link_error (log : string) : string :=
  String.append "failed to link program: " log.

Section WithDriver.
Variable d : GL.driver.

Definition makeBuffer (target : GL.enum) (bufferData : GL.bufdata) (bufferSize : Z)
  : GL.M Z :=
  let* buffer := GL.glGenBuffers d in
  GL.emit d (GL.BindBuffer target buffer) ;;;
  GL.emit d (GL.BufferData target bufferSize bufferData GL.STATIC_DRAW) ;;;
  GL.ret buffer.

Definition makeShader (shaderType : GL.enum) (source : string) : GL.M Z :=
  let* shader := GL.glCreateShader d shaderType in
  GL.emit d (GL.ShaderSource shader (GL.Str source)) ;;;
  GL.emit d (GL.CompileShader shader) ;;;
  let* status := GL.glGetShaderiv d shader GL.COMPILE_STATUS in
  (if status =? GL.FALSE then
     let* logLength := GL.glGetShaderiv d shader GL.INFO_LOG_LENGTH in
     let log := GL.Repeat GL.NUL (Z.to_nat (int32 (logLength + 1))) in
     let* log := GL.glGetShaderInfoLog d shader logLength log in
     x (Some (compile_error source log))
   else GL.ret tt) ;;;
  GL.ret shader.

Definition makeProgram (vertexShader fragmentShader : Z) : GL.M Z :=
  let* program := GL.glCreateProgram d in
  GL.emit d (GL.AttachShader program vertexShader) ;;;
  GL.emit d (GL.AttachShader program fragmentShader) ;;;
  GL.emit d (GL.LinkProgram program) ;;;
  let* status := GL.glGetProgramiv d program GL.LINK_STATUS in
  (if status =? GL.FALSE then
     let* logLength := GL.glGetProgramiv d program GL.INFO_LOG_LENGTH in
     let log := GL.Repeat GL.NUL (Z.to_nat (int32 (logLength + 1))) in
     let* log := GL.glGetProgramInfoLog d program logLength log in
     x (Some (link_error log))
   else GL.ret tt) ;;;
  GL.ret program.

End WithDriver.

(** The rune of ['q']. *)
Definition rune_q : Z := 113.

Definition charCallBack (w : Glfw.Window) (char : Z) : Glfw.Window :=
  if char =? rune_q then Glfw.SetShouldClose w true else w.

Definition hsb2rgb (h s b : float) : float * float * float :=
  let c := fmul binary32 b s in
  let h := fmul binary32 h (Fin 6) in
  let x :=
    fmul binary32 c
      (convert binary32
         (fsub binary64 (Fin 1)
            (Abs (fsub binary64 (Mod (convert binary64 h) (Fin 2)) (Fin 1))))) in
  if flt h (Fin 1) then (c, x, Fin 0)
  else if flt h (Fin 2) then (x, c, Fin 0)
  else if flt h (Fin 3) then (Fin 0, c, x)
  else if flt h (Fin 4) then (Fin 0, x, c)
  else if flt h (Fin 5) then (x, Fin 0, c)
  else (c, Fin 0, x).

(** The loop header [for i := float64(0); i < 2*math.Pi; i += .05] of the
    colour circle, in "Testing" and in "Testing 3+": the values [i] takes. *)
Definition two_pi : float := rnd binary64 (2 * Pi).

Definition circle_fuel : nat := 200.

Definition circle_steps : option (list float) :=
  float_range circle_fuel (Fin 0) two_pi (rnd binary64 (5 # 100)).

End Shared.

(** ** [hello/hello.go] *)
Module Hello.
Import Float.
Local Open Scope Z_scope.

Definition v_glsl : string := String.append "
#version 110

attribute vec2 position;

varying vec2 texcoord;

void main()
{
    gl_Position = vec4(position, 0.0, 1.0);
    texcoord = position * vec2(0.5) + vec2(0.5);
}
" GL.NUL.

Definition f_glsl : string := String.append "
#version 110

uniform float fade_factor;
uniform sampler2D textures[2];

varying vec2 texcoord;

void main()
{
    gl_FragColor = mix(
        texture2D(textures[0], texcoord),
        texture2D(textures[1], texcoord),
        fade_factor
    );
}
" GL.NUL.

Record tUniforms : Type :=
  mkUniforms { u_fadeFactor : Z; u_textures : Z * Z }.

Record tAttributes : Type := mkAttributes { position : Z }.

Record gResources : Type :=
  mkResources { vertexBuffer : Z;
                elementBuffer : Z;
                textures : Z * Z;
                vertexShader : Z;
                fragmentShader : Z;
                program : Z;
                uniforms : tUniforms;
                attributes : tAttributes;
                fadeFactor : float }.

Definition gVertexBufferData : list float :=
  [Fin (-1); Fin (-1);
   Fin 1; Fin (-1);
   Fin (-1); Fin 1;
   Fin 1; Fin 1].

Definition gElementBufferData : list Z := [0; 1; 2; 3].

(** The loop of [makeTexture] that copies the picture into the upload buffer,
    "flip upside down image upside up": for [h] from 0 below [height], source
    row [h] is drawn into the one-row rectangle at [height-1-h]. *)
Definition flip_rows (rgba img : Image.RGBA) : Image.RGBA :=
  let ib := Image.Bounds img in
  let width := Image.X (Image.Max ib) in
  let height := Image.Y (Image.Max ib) in
  fold_left
    (fun rgba h =>
       let r := Image.image_Rect 0 (height - 1 - h) width (height - h) in
       Image.Draw rgba r img (Image.Pt 0 h))
    (seqZ 0 height) rgba.

Section Program.
Variable d : GL.driver.
Variable Sin : float -> float.
Variable p : Glfw.platform.

Definition makeTexture (filename : string) : GL.M Z :=
  match Glfw.files p filename with
  | inl err => GL.Fatalln err
  | inr img =>
      let rgba := Image.NewRGBA (Image.Bounds img) in
      (if negb (Image.Stride rgba =? Image.X (Image.Size (Image.Rect rgba)) * 4)
       then Shared.x (Some "unsupported stride"%string)
       else GL.ret tt) ;;;
      let rgba := flip_rows rgba img in
      let* texture := GL.glGenTextures d in
      GL.emit d (GL.BindTexture GL.TEXTURE_2D texture) ;;;
      GL.emit d (GL.TexParameteri GL.TEXTURE_2D GL.TEXTURE_MIN_FILTER GL.LINEAR) ;;;
      GL.emit d (GL.TexParameteri GL.TEXTURE_2D GL.TEXTURE_MAG_FILTER GL.LINEAR) ;;;
      GL.emit d (GL.TexParameteri GL.TEXTURE_2D GL.TEXTURE_WRAP_S GL.CLAMP_TO_EDGE) ;;;
      GL.emit d (GL.TexParameteri GL.TEXTURE_2D GL.TEXTURE_WRAP_T GL.CLAMP_TO_EDGE) ;;;
      GL.emit d
        (GL.TexImage2D GL.TEXTURE_2D 0 GL.RGBA
           (int32 (Image.X (Image.Size (Image.Rect rgba))))
           (int32 (Image.Y (Image.Size (Image.Rect rgba))))
           0 GL.RGBA GL.UNSIGNED_BYTE (Image.Pix rgba)) ;;;
      GL.ret texture
  end.

Definition makeResources : GL.M gResources :=
  let* vb := Shared.makeBuffer d GL.ARRAY_BUFFER (GL.Floats gVertexBufferData)
               (4 * Z.of_nat (length gVertexBufferData)) in
  let* eb := Shared.makeBuffer d GL.ELEMENT_ARRAY_BUFFER (GL.Uints gElementBufferData)
               (4 * Z.of_nat (length gElementBufferData)) in
  let* t0 := makeTexture "hello1.png" in
  let* t1 := makeTexture "hello2.png" in
  let* vs := Shared.makeShader d GL.VERTEX_SHADER v_glsl in
  let* fs := Shared.makeShader d GL.FRAGMENT_SHADER f_glsl in
  let* prog := Shared.makeProgram d vs fs in
  let* uf := GL.glGetUniformLocation d prog (String.append "fade_factor" GL.NUL) in
  let* ut0 := GL.glGetUniformLocation d prog (String.append "textures[0]" GL.NUL) in
  let* ut1 := GL.glGetUniformLocation d prog (String.append "textures[1]" GL.NUL) in
  let* ap := GL.glGetAttribLocation d prog (String.append "position" GL.NUL) in
  GL.ret (mkResources vb eb (t0, t1) vs fs prog (mkUniforms uf (ut0, ut1))
            (mkAttributes ap) (Fin 0)).

(** [seconds] is [time.Since(start).Seconds()]. *)
Definition updateFadeFactor (seconds : float) (r : gResources) : gResources :=
  mkResources (vertexBuffer r) (elementBuffer r) (textures r) (vertexShader r)
    (fragmentShader r) (program r) (uniforms r) (attributes r)
    (convert binary32
       (fadd binary64 (fmul binary64 (Sin seconds) (rnd binary64 (5 # 10)))
          (rnd binary64 (5 # 10)))).

(** [render] up to the ruler comment: viewport, clear, the two matrices. *)
Definition render_setup (width height : Z) : list GL.call :=
  [GL.Viewport 0 0 (int32 width) (int32 height);
   GL.Clear GL.COLOR_BUFFER_BIT;
   GL.MatrixMode GL.PROJECTION;
   GL.LoadIdentity;
   GL.MatrixMode GL.MODELVIEW;
   GL.LoadIdentity].

(** [render] below the ruler comment: the one draw pass. *)
Definition render_pass (r : gResources) : list GL.call :=
  [GL.UseProgram (program r);
   GL.Uniform1f (u_fadeFactor (uniforms r)) (fadeFactor r);
   GL.ActiveTexture GL.TEXTURE0;
   GL.BindTexture GL.TEXTURE_2D (fst (textures r));
   GL.Uniform1i (fst (u_textures (uniforms r))) 0;
   GL.ActiveTexture GL.TEXTURE1;
   GL.BindTexture GL.TEXTURE_2D (snd (textures r));
   GL.Uniform1i (snd (u_textures (uniforms r))) 1;
   GL.BindBuffer GL.ARRAY_BUFFER (vertexBuffer r);
   GL.VertexAttribPointer (uint32 (position (attributes r))) 2 GL.FLOAT false 8 0;
   GL.EnableVertexAttribArray (uint32 (position (attributes r)));
   GL.BindBuffer GL.ELEMENT_ARRAY_BUFFER (elementBuffer r);
   GL.DrawElements GL.TRIANGLE_STRIP 4 GL.UNSIGNED_INT 0;
   GL.DisableVertexAttribArray (uint32 (position (attributes r)))].

(** [width] and [height] are what [w.GetFramebufferSize()] returns. *)
Definition render (width height : Z) (r : gResources) : list GL.call :=
  render_setup width height ++ render_pass r.

(** The main loop, for the iterations the platform describes; it ends when
    the window is asked to close. *)
Fixpoint loop (fs : list Glfw.frame) (w : Glfw.Window) (r : gResources) : GL.M unit :=
  if Glfw.ShouldClose w then GL.ret tt
  else
    match fs with
    | [] => GL.ret tt
    | f :: fs' =>
        let r := updateFadeFactor (Glfw.seconds f) r in
        GL.emits d (render (Glfw.fb_width f) (Glfw.fb_height f) r) ;;;
        GL.emit d GL.SwapBuffers ;;;
        loop fs' (fold_left Shared.charCallBack (Glfw.chars f) w) r
    end.

Definition main : GL.M unit :=
  match Glfw.glfw_Init p with
  | Some err => GL.panic err
  | None =>
      match Glfw.CreateWindow p with
      | Some err => GL.panic err
      | None =>
          match Glfw.gl_Init p with
          | Some err => GL.panic err
          | None =>
              let* r := makeResources in
              GL.emit d (GL.ClearColor (Fin 1) (Fin 1) (Fin 1) (Fin 0)) ;;;
              loop (Glfw.frames p) (Glfw.mkWindow false) r
          end
      end
  end.

End Program.
End Hello.

(** ** The fixed-pipeline demo, window title "Testing" *)
Module Testing.
Import Float.
Local Open Scope Z_scope.

(** [fmt.Printf("%c\n", char)], then as in the other two programs; the
    first component is what is printed, as runes. *)
Definition charCallBack (w : Glfw.Window) (char : Z) : list Z * Glfw.Window :=
  ([char; 10], if char =? Shared.rune_q then Glfw.SetShouldClose w true else w).

(** [float32(width) / float32(height)] *)
Definition aspect (width height : Z) : float :=
  fdiv binary32 (of_int binary32 width) (of_int binary32 height).

(** The [if ratio > 1] of [drawScene]: [(x1, x2, y1, y2)]. *)
Definition orthoExtents (ratio : float) : float * float * float * float :=
  if fgt ratio (Fin 1)
  then (fneg ratio, ratio, Fin (-1), Fin 1)
  else (Fin (-1), Fin 1, fdiv binary32 (Fin (-1)) ratio, fdiv binary32 (Fin 1) ratio).

Section Program.
Variable d : GL.driver.
Variables Sin Cos : float -> float.
Variable p : Glfw.platform.

Definition setupScene : GL.M unit :=
  GL.emit d (GL.ClearColor (rnd binary32 (5 # 10)) (rnd binary32 (5 # 10))
               (rnd binary32 (5 # 10)) (Fin 0)).

(** One turn of the loop that draws the colour circle. *)
Definition circle_vertex (s i : float) : list GL.call :=
  let '(r, g, b) :=
    Shared.hsb2rgb (convert binary32 (fdiv binary64 i Shared.two_pi)) (Fin 1) (Fin 1) in
  [GL.Color3f r g b;
   GL.Vertex3f (fmul binary32 s (convert binary32 (Sin i)))
               (fmul binary32 s (convert binary32 (Cos i))) (Fin 0)].

(** [time] is [glfw.GetTime()]. *)
Definition drawScene (width height : Z) (time : float) : GL.M unit :=
  let ratio := aspect width height in
  let '(x1, x2, y1, y2) := orthoExtents ratio in
  let s := rnd binary32 (95 # 100) in
  GL.emits d
    [GL.Viewport 0 0 (int32 width) (int32 height);
     GL.Clear GL.COLOR_BUFFER_BIT;
     GL.MatrixMode GL.PROJECTION;
     GL.LoadIdentity;
     GL.Ortho (convert binary64 x1) (convert binary64 x2)
              (convert binary64 y1) (convert binary64 y2) (Fin 1) (Fin (-1));
     GL.MatrixMode GL.MODELVIEW;
     GL.LoadIdentity;
     GL.LineWidth (Fin 1);
     GL.Begin GL.LINE;
     GL.Color3f (Fin 0) (Fin 0) (Fin 0);
     GL.Vertex3f (Fin 0) y1 (Fin 0);
     GL.Vertex3f (Fin 0) y2 (Fin 0);
     GL.Vertex3f x1 (Fin 0) (Fin 0);
     GL.Vertex3f x2 (Fin 0) (Fin 0);
     GL.GlEnd;
     GL.Rotatef (convert binary32 (fmul binary64 time (Fin 50))) (Fin 0) (Fin 0) (Fin 1);
     GL.Begin GL.TRIANGLES;
     GL.Color3f (Fin 1) (Fin 0) (Fin 0);
     GL.Vertex3f (Fin 0) s (Fin 0);
     GL.Color3f (Fin 0) (Fin 1) (Fin 0);
     GL.Vertex3f (fmul binary32 s (rnd binary32 (866 # 1000)))
                 (fmul binary32 s (rnd binary32 (- (5 # 10)))) (Fin 0);
     GL.Color3f (Fin 0) (Fin 0) (Fin 1);
     GL.Vertex3f (fmul binary32 s (rnd binary32 (- (866 # 1000))))
                 (fmul binary32 s (rnd binary32 (- (5 # 10)))) (Fin 0);
     GL.GlEnd;
     GL.LineWidth (Fin 5);
     GL.Begin GL.LINE_LOOP] ;;;
  let* steps := GL.of_loop Shared.circle_steps in
  GL.emits d (flat_map (circle_vertex s) steps) ;;;
  GL.emit d GL.GlEnd.

Fixpoint loop (fs : list Glfw.frame) (w : Glfw.Window) : GL.M unit :=
  if Glfw.ShouldClose w then GL.ret tt
  else
    match fs with
    | [] => GL.ret tt
    | f :: fs' =>
        drawScene (Glfw.fb_width f) (Glfw.fb_height f) (Glfw.seconds f) ;;;
        GL.emit d GL.SwapBuffers ;;;
        loop fs' (fold_left (fun w c => snd (charCallBack w c)) (Glfw.chars f) w)
    end.

Definition main : GL.M unit :=
  match Glfw.glfw_Init p with
  | Some err => GL.panic err
  | None =>
      match Glfw.CreateWindow p with
      | Some err => GL.panic err
      | None =>
          match Glfw.gl_Init p with
          | Some err => GL.panic err
          | None => setupScene ;;; loop (Glfw.frames p) (Glfw.mkWindow false)
          end
      end
  end.

End Program.
End Testing.

(** ** The shader demo, window title "Testing 3+" *)
Module Testing3.
Import Float.
Local Open Scope Z_scope.

Definition vector_glsl1 : string := String.append "
#version 110

attribute vec2 position;

void main()
{
    gl_Position = vec4(position, 0.0, 1.0);
}
" GL.NUL.

Definition fragment_glsl1 : string := String.append "
#version 110

void main()
{
    gl_FragColor = vec4(0, 0, 0, 0);
}
" GL.NUL.

Definition vector_glsl2 : string := String.append "
#version 110

uniform float xmul;
uniform float ymul;
uniform float sn;
uniform float cs;

attribute vec3 vertexColor;
attribute vec2 position;

varying vec3 color;

void main()
{
    gl_Position = vec4(xmul * (cs*position[0] + sn*position[1]), ymul * (sn*position[0] - cs*position[1]), 0.0, 1.0);
    color = vertexColor;
}
" GL.NUL.

Definition fragment_glsl2 : string := String.append "
#version 110

varying vec3 color;

void main()
{
    gl_FragColor = vec4(color, 0);
}
" GL.NUL.

Record tUniforms : Type :=
  mkUniforms { xmul : Z; ymul : Z; sin : Z; cos : Z }.

Record tAttributes : Type :=
  mkAttributes { position : Z; color : Z; color3 : Z }.

Record gResources : Type :=
  mkResources { vertexBuffer1 : Z;
                elementBuffer1 : Z;
                vertexShader1 : Z;
                fragmentShader1 : Z;
                program1 : Z;
                attributes1 : tAttributes;
                vertexBuffer2 : Z;
                elementBuffer2 : Z;
                colorBuffer2 : Z;
                vertexShader2 : Z;
                fragmentShader2 : Z;
                program2 : Z;
                uniforms2 : tUniforms;
                attributes2 : tAttributes;
                vertexBuffer3 : Z;
                elementBuffer3 : Z;
                colorBuffer3 : Z;
                len3 : Z }.

Definition gVertexBufferData1 : list float :=
  [Fin (-1); Fin 0;
   Fin 1; Fin 0;
   Fin 0; Fin (-1);
   Fin 0; Fin 1].

Definition gElementBufferData1 : list Z := [0; 1; 2; 3].

Definition gVertexBufferData2 : list float :=
  [Fin 0; Fin 1;
   rnd binary32 (866 # 1000); rnd binary32 (- (5 # 10));
   rnd binary32 (- (866 # 1000)); rnd binary32 (- (5 # 10))].

Definition gElementBufferData2 : list Z := [0; 1; 2].

Definition gColorBufferData2 : list float :=
  [Fin 1; Fin 0; Fin 0;
   Fin 0; Fin 1; Fin 0;
   Fin 0; Fin 0; Fin 1].

(** The slices and the counter that the circle loop of [makeResources] grows. *)
Record circle : Type :=
  Circle { gColorBufferData3 : list float;
           gVertexBufferData3 : list float;
           gElementBufferData3 : list Z;
           count3 : Z }.

Section Program.
Variable d : GL.driver.
Variables Sin Cos : float -> float.
Variable p : Glfw.platform.

(** This [makeTexture] differs from the one of [hello.go]: one [draw.Draw]
    of the whole picture, and [RGB8] as internal format.  Nothing in the
    program calls it. *)
Definition makeTexture (filename : string) : GL.M Z :=
  match Glfw.files p filename with
  | inl err => GL.Fatalln err
  | inr img =>
      let rgba := Image.NewRGBA (Image.Bounds img) in
      (if negb (Image.Stride rgba =? Image.X (Image.Size (Image.Rect rgba)) * 4)
       then Shared.x (Some "unsupported stride"%string)
       else GL.ret tt) ;;;
      let rgba := Image.Draw rgba (Image.Bounds rgba) img (Image.Pt 0 0) in
      let* texture := GL.glGenTextures d in
      GL.emit d (GL.BindTexture GL.TEXTURE_2D texture) ;;;
      GL.emit d (GL.TexParameteri GL.TEXTURE_2D GL.TEXTURE_MIN_FILTER GL.LINEAR) ;;;
      GL.emit d (GL.TexParameteri GL.TEXTURE_2D GL.TEXTURE_MAG_FILTER GL.LINEAR) ;;;
      GL.emit d (GL.TexParameteri GL.TEXTURE_2D GL.TEXTURE_WRAP_S GL.CLAMP_TO_EDGE) ;;;
      GL.emit d (GL.TexParameteri GL.TEXTURE_2D GL.TEXTURE_WRAP_T GL.CLAMP_TO_EDGE) ;;;
      GL.emit d
        (GL.TexImage2D GL.TEXTURE_2D 0 GL.RGB8
           (int32 (Image.X (Image.Size (Image.Rect rgba))))
           (int32 (Image.Y (Image.Size (Image.Rect rgba))))
           0 GL.RGBA GL.UNSIGNED_BYTE (Image.Pix rgba)) ;;;
      GL.ret texture
  end.

(** The body of the circle loop, for one value of [i]. *)
Definition circle_step (c : circle) (i : float) : circle :=
  let '(rd, g, b) :=
    Shared.hsb2rgb (convert binary32 (fdiv binary64 i Shared.two_pi)) (Fin 1) (Fin 1) in
  Circle (gColorBufferData3 c ++ [rd; g; b])
         (gVertexBufferData3 c ++ [convert binary32 (Sin i); convert binary32 (Cos i)])
         (gElementBufferData3 c ++ [uint32 (count3 c)])
         (int32 (count3 c + 1)).

Definition makeResources : GL.M gResources :=
  let* vb1 := Shared.makeBuffer d GL.ARRAY_BUFFER (GL.Floats gVertexBufferData1)
                (4 * Z.of_nat (length gVertexBufferData1)) in
  let* eb1 := Shared.makeBuffer d GL.ELEMENT_ARRAY_BUFFER (GL.Uints gElementBufferData1)
                (4 * Z.of_nat (length gElementBufferData1)) in
  let* vb2 := Shared.makeBuffer d GL.ARRAY_BUFFER (GL.Floats gVertexBufferData2)
                (4 * Z.of_nat (length gVertexBufferData2)) in
  let* eb2 := Shared.makeBuffer d GL.ELEMENT_ARRAY_BUFFER (GL.Uints gElementBufferData2)
                (4 * Z.of_nat (length gElementBufferData2)) in
  let* cb2 := Shared.makeBuffer d GL.ARRAY_BUFFER (GL.Floats gColorBufferData2)
                (4 * Z.of_nat (length gColorBufferData2)) in
  let* vs1 := Shared.makeShader d GL.VERTEX_SHADER vector_glsl1 in
  let* fs1 := Shared.makeShader d GL.FRAGMENT_SHADER fragment_glsl1 in
  let* prog1 := Shared.makeProgram d vs1 fs1 in
  let* vs2 := Shared.makeShader d GL.VERTEX_SHADER vector_glsl2 in
  let* fs2 := Shared.makeShader d GL.FRAGMENT_SHADER fragment_glsl2 in
  let* prog2 := Shared.makeProgram d vs2 fs2 in
  let* uxmul := GL.glGetUniformLocation d prog2 (String.append "xmul" GL.NUL) in
  let* uymul := GL.glGetUniformLocation d prog2 (String.append "ymul" GL.NUL) in
  let* usin := GL.glGetUniformLocation d prog2 (String.append "sn" GL.NUL) in
  let* ucos := GL.glGetUniformLocation d prog2 (String.append "cs" GL.NUL) in
  let* a1pos := GL.glGetAttribLocation d prog1 (String.append "position" GL.NUL) in
  let* a2pos := GL.glGetAttribLocation d prog2 (String.append "position" GL.NUL) in
  let* a2col := GL.glGetAttribLocation d prog2 (String.append "vertexColor" GL.NUL) in
  let* steps := GL.of_loop Shared.circle_steps in
  let c := fold_left circle_step steps (Circle [] [] [] 0) in
  let* vb3 := Shared.makeBuffer d GL.ARRAY_BUFFER (GL.Floats (gVertexBufferData3 c))
                (4 * Z.of_nat (length (gVertexBufferData3 c))) in
  let* eb3 := Shared.makeBuffer d GL.ELEMENT_ARRAY_BUFFER (GL.Uints (gElementBufferData3 c))
                (4 * Z.of_nat (length (gElementBufferData3 c))) in
  let* cb3 := Shared.makeBuffer d GL.ARRAY_BUFFER (GL.Floats (gColorBufferData3 c))
                (4 * Z.of_nat (length (gColorBufferData3 c))) in
  GL.ret (mkResources vb1 eb1 vs1 fs1 prog1 (mkAttributes a1pos 0 0)
            vb2 eb2 cb2 vs2 fs2 prog2 (mkUniforms uxmul uymul usin ucos)
            (mkAttributes a2pos a2col 0)
            vb3 eb3 cb3 (count3 c)).

(** The scale factors of [render]: [(xmul, ymul)] from the aspect ratio. *)
Definition scale (ra ratio : float) : float * float :=
  if fgt ratio (Fin 1)
  then (fdiv binary32 ra ratio, ra)
  else (ra, fmul binary32 ra ratio).

(** [render] up to the first ruler comment. *)
Definition render_setup (width height : Z) : list GL.call :=
  [GL.Viewport 0 0 (int32 width) (int32 height);
   GL.Clear GL.COLOR_BUFFER_BIT].

(** First pass: the two axes, with program 1. *)
Definition render_pass1 (r : gResources) : list GL.call :=
  [GL.UseProgram (program1 r);
   GL.BindBuffer GL.ARRAY_BUFFER (vertexBuffer1 r);
   GL.VertexAttribPointer (uint32 (position (attributes1 r))) 2 GL.FLOAT false 8 0;
   GL.EnableVertexAttribArray (uint32 (position (attributes1 r)));
   GL.BindBuffer GL.ELEMENT_ARRAY_BUFFER (elementBuffer1 r);
   GL.LineWidth (Fin 1);
   GL.DrawElements GL.LINES 4 GL.UNSIGNED_INT 0;
   GL.DisableVertexAttribArray (uint32 (position (attributes1 r)))].

(** Second pass: the triangle, with program 2. *)
Definition render_pass2 (r : gResources) (xm ym sn cs : float) : list GL.call :=
  [GL.UseProgram (program2 r);
   GL.Uniform1f (xmul (uniforms2 r)) xm;
   GL.Uniform1f (ymul (uniforms2 r)) ym;
   GL.Uniform1f (sin (uniforms2 r)) sn;
   GL.Uniform1f (cos (uniforms2 r)) cs;
   GL.BindBuffer GL.ARRAY_BUFFER (vertexBuffer2 r);
   GL.VertexAttribPointer (uint32 (position (attributes2 r))) 2 GL.FLOAT false 8 0;
   GL.EnableVertexAttribArray (uint32 (position (attributes2 r)));
   GL.BindBuffer GL.ELEMENT_ARRAY_BUFFER (elementBuffer2 r);
   GL.EnableVertexAttribArray (uint32 (color (attributes2 r)));
   GL.BindBuffer GL.ARRAY_BUFFER (colorBuffer2 r);
   GL.VertexAttribPointer (uint32 (color (attributes2 r))) 3 GL.FLOAT false 0 0;
   GL.DrawElements GL.TRIANGLES 3 GL.UNSIGNED_INT 0].

(** Third pass: the colour circle, still with program 2. *)
Definition render_pass3 (r : gResources) : list GL.call :=
  [GL.BindBuffer GL.ARRAY_BUFFER (vertexBuffer3 r);
   GL.VertexAttribPointer (uint32 (position (attributes2 r))) 2 GL.FLOAT false 8 0;
   GL.BindBuffer GL.ELEMENT_ARRAY_BUFFER (elementBuffer3 r);
   GL.BindBuffer GL.ARRAY_BUFFER (colorBuffer3 r);
   GL.VertexAttribPointer (uint32 (color (attributes2 r))) 3 GL.FLOAT false 0 0;
   GL.LineWidth (Fin 5);
   GL.DrawElements GL.LINE_LOOP (len3 r) GL.UNSIGNED_INT 0;
   GL.DisableVertexAttribArray (uint32 (color (attributes2 r)));
   GL.DisableVertexAttribArray (uint32 (position (attributes2 r)))].

(** [width], [height]: [w.GetFramebufferSize()]; [seconds]:
    [time.Since(start).Seconds()]. *)
Definition render (width height : Z) (seconds : float) (r : gResources) : list GL.call :=
  let ra := rnd binary32 (95 # 100) in
  let ratio := fdiv binary32 (of_int binary32 width) (of_int binary32 height) in
  let sn := convert binary32 (Sin seconds) in
  let cs := convert binary32 (Cos seconds) in
  let '(xm, ym) := scale ra ratio in
  render_setup width height
  ++ render_pass1 r
  ++ render_pass2 r xm ym sn cs
  ++ render_pass3 r.

Fixpoint loop (fs : list Glfw.frame) (w : Glfw.Window) (r : gResources) : GL.M unit :=
  if Glfw.ShouldClose w then GL.ret tt
  else
    match fs with
    | [] => GL.ret tt
    | f :: fs' =>
        GL.emits d (render (Glfw.fb_width f) (Glfw.fb_height f) (Glfw.seconds f) r) ;;;
        GL.emit d GL.SwapBuffers ;;;
        loop fs' (fold_left Shared.charCallBack (Glfw.chars f) w) r
    end.

Definition main : GL.M unit :=
  match Glfw.glfw_Init p with
  | Some err => GL.panic err
  | None =>
      match Glfw.CreateWindow p with
      | Some err => GL.panic err
      | None =>
          match Glfw.gl_Init p with
          | Some err => GL.panic err
          | None =>
              let* r := makeResources in
              GL.emit d (GL.ClearColor (rnd binary32 (5 # 10)) (rnd binary32 (5 # 10))
                           (rnd binary32 (5 # 10)) (Fin 0)) ;;;
              loop (Glfw.frames p) (Glfw.mkWindow false) r
          end
      end
  end.

End Program.
End Testing3.

(** ** The properties the specification asks for, as definitions *)
Module Spec.
Import Float.
Local Open Scope Z_scope.

(** *** Colour conversion: the six-sector table

    "compute chroma [c = brightness*saturation], scale hue to [h' = hue*6],
    compute the secondary component [x = c*(1 - |((h' mod 2) - 1)|)], then
    select [(r,g,b)] by the integer sector [floor(h')]". *)
Definition chroma (saturation brightness : float) : float :=
  fmul binary32 brightness saturation.

Definition scaled_hue (hue : float) : float := fmul binary32 hue (Fin 6).

Definition secondary (c h' : float) : float :=
  fmul binary32 c
    (convert binary32
       (fsub binary64 (Fin 1)
          (Abs (fsub binary64 (Mod (convert binary64 h') (Fin 2)) (Fin 1))))).

Definition sector (h' : float) : option Z :=
  match h' with
  | Fin q => Some (Qfloor q)
  | _ => None
  end.

Definition sector_table (c x : float) (k : Z) : option (float * float * float) :=
  match k with
  | 0 => Some (c, x, Fin 0)
  | 1 => Some (x, c, Fin 0)
  | 2 => Some (Fin 0, c, x)
  | 3 => Some (Fin 0, x, c)
  | 4 => Some (x, Fin 0, c)
  | 5 => Some (c, Fin 0, x)
  | _ => None
  end.

Definition hsb_to_rgb (hue saturation brightness : float)
  : option (float * float * float) :=
  let c := chroma saturation brightness in
  let h' := scaled_hue hue in
  let x := secondary c h' in
  match sector h' with
  | Some k => sector_table c x k
  | None => None
  end.

(** A component in [[0,1]]. *)
Definition unit_range (a : float) : Prop :=
  match a with
  | Fin q => (0 <= q /\ q <= 1)%Q
  | _ => False
  end.

(** *** Aspect correction: "the orthographic half-extents are [(±ratio,±1)]
    when [ratio>1] else [(±1,±1/ratio)]", as [(x1, x2, y1, y2)]. *)
Definition half_extents (ratio : float) : float * float * float * float :=
  if fgt ratio (Fin 1)
  then (fneg ratio, ratio, fneg (Fin 1), Fin 1)
  else (fneg (Fin 1), Fin 1,
        fneg (fdiv binary32 (Fin 1) ratio), fdiv binary32 (Fin 1) ratio).

(** *** Texture upload: a tightly packed picture

    The texture holds the picture's size and exactly [4*width*height] bytes,
    that is rows of [width*4] bytes with nothing between them. *)
Definition packed (img : Image.RGBA) (fmt : GL.enum) (tx : option GL.teximage) : Prop :=
  exists px,
    tx = Some (GL.TexImage fmt (int32 (Image.Dx (Image.Rect img)))
                 (int32 (Image.Dy (Image.Rect img))) GL.RGBA px)
    /\ length px = Z.to_nat (4 * Image.Dx (Image.Rect img) * Image.Dy (Image.Rect img)).

End Spec.

(** ** Abbreviations for parts of the programs *)
Module Pieces.
Local Open Scope Z_scope.

(** The rectangle of a picture whose corner is the origin, as the PNG
    decoder produces it. *)
Definition at_origin (W H : Z) : Image.Rectangle :=
  Image.Rectangle_ (Image.Pt 0 0) (Image.Pt W H).

(** The body of the loop of [Hello.flip_rows]. *)
Definition flip_row (W H : Z) (img rgba : Image.RGBA) (h : Z) : Image.RGBA :=
  Image.Draw rgba (Image.image_Rect 0 (H - 1 - h) W (H - h)) img (Image.Pt 0 h).

(** The calls by which both [makeTexture] functions create the texture [t]
    from the buffer [rgba]. *)
Definition upload (t : Z) (internalformat : GL.enum) (rgba : Image.RGBA) : list GL.call :=
  [GL.GenTextures t;
   GL.BindTexture GL.TEXTURE_2D t;
   GL.TexParameteri GL.TEXTURE_2D GL.TEXTURE_MIN_FILTER GL.LINEAR;
   GL.TexParameteri GL.TEXTURE_2D GL.TEXTURE_MAG_FILTER GL.LINEAR;
   GL.TexParameteri GL.TEXTURE_2D GL.TEXTURE_WRAP_S GL.CLAMP_TO_EDGE;
   GL.TexParameteri GL.TEXTURE_2D GL.TEXTURE_WRAP_T GL.CLAMP_TO_EDGE;
   GL.TexImage2D GL.TEXTURE_2D 0 internalformat
     (int32 (Image.X (Image.Size (Image.Rect rgba))))
     (int32 (Image.Y (Image.Size (Image.Rect rgba))))
     0 GL.RGBA GL.UNSIGNED_BYTE (Image.Pix rgba)].

End Pieces.

(** ** Concrete inputs for the examples *)
Module Sample.
Local Open Scope Z_scope.

(** A driver that accepts every shader and numbers the attributes in the
    order [position], [vertexColor]. *)
Definition driver : GL.driver :=
  GL.Driver 16
    (fun _ _ => (true, EmptyString))
    (fun _ => (true, EmptyString))
    (fun _ name => if String.eqb name "position" then 0
                   else if String.eqb name "vertexColor" then 1 else -1)
    (fun _ name => Z.of_nat (String.length name)).

(** A driver that rejects every fragment shader. *)
Definition strict_driver : GL.driver :=
  GL.Driver 16
    (fun ty _ => match ty with
                 | GL.FRAGMENT_SHADER => (false, "0:1(1): error: syntax error"%string)
                 | _ => (true, EmptyString)
                 end)
    (fun _ => (true, EmptyString))
    (fun _ name => if String.eqb name "position" then 0
                   else if String.eqb name "vertexColor" then 1 else -1)
    (fun _ name => Z.of_nat (String.length name)).

(** A picture of 2 rows of 2 pixels, tightly packed. *)
Definition two_rows : Image.RGBA :=
  Image.mkRGBA [1; 2; 3; 4; 5; 6; 7; 8;
                11; 12; 13; 14; 15; 16; 17; 18] 8 (Image.image_Rect 0 0 2 2).

(** A picture of 3 rows of 4 pixels whose rows are 20 bytes apart. *)
Definition padded : Image.RGBA :=
  Image.mkRGBA (seqZ 0 60) 20 (Image.image_Rect 0 0 4 3).

Definition platform (img : Image.RGBA) (fs : list Glfw.frame) : Glfw.platform :=
  Glfw.Platform None None None (fun _ => inr img) fs.

(** Three iterations; a ['q'] is typed during the second. *)
Definition frames : list Glfw.frame :=
  [Glfw.Frame (Float.Fin 0) 640 480 [];
   Glfw.Frame (Float.Fin 1) 640 480 [120; 113];
   Glfw.Frame (Float.Fin 2) 640 480 []].

(** Stand-ins for [math.Sin] and [math.Cos]. *)
Definition Sin (a : Float.float) : Float.float := Float.Fin 0.
Definition Cos (a : Float.float) : Float.float := Float.Fin 1.

Definition start : GL.world := GL.World GL.initial [].

End Sample.

(** ** Abbreviations for the calls of resource construction *)
Module Calls.
Local Open Scope Z_scope.

(** The buffer [makeShader] and [makeProgram] read the diagnostic log
    into, as it is after the read. *)
Definition info_buffer (log : string) : string :=
  GL.write_log log (GL.log_length log)
    (GL.Repeat GL.NUL (Z.to_nat (int32 (GL.log_length log + 1)))).

(** The calls of one [makeBuffer]. *)
Definition buffer_calls (b : Z) (target : GL.enum) (data : GL.bufdata) (size : Z)
  : list GL.call :=
  [GL.GenBuffers b; GL.BindBuffer target b; GL.BufferData target size data GL.STATIC_DRAW].

(** The calls of a [makeShader] whose shader compiles. *)
Definition compiled (n : Z) (ty : GL.enum) (source : string) : list GL.call :=
  [GL.CreateShader ty n;
   GL.ShaderSource n (GL.Str source);
   GL.CompileShader n;
   GL.GetShaderiv n GL.COMPILE_STATUS GL.TRUE].

(** The calls of a [makeShader] whose shader does not compile. *)
Definition failed_compile (d : GL.driver) (n : Z) (ty : GL.enum) (source : string)
  : list GL.call :=
  let log := snd (GL.compile d ty (GL.Str source)) in
  [GL.CreateShader ty n;
   GL.ShaderSource n (GL.Str source);
   GL.CompileShader n;
   GL.GetShaderiv n GL.COMPILE_STATUS GL.FALSE;
   GL.GetShaderiv n GL.INFO_LOG_LENGTH (GL.log_length log);
   GL.GetShaderInfoLog n (GL.log_length log) (info_buffer log)].

(** The calls of a [makeProgram] whose program links. *)
Definition linked (n vs fs : Z) : list GL.call :=
  [GL.CreateProgram n;
   GL.AttachShader n vs;
   GL.AttachShader n fs;
   GL.LinkProgram n;
   GL.GetProgramiv n GL.LINK_STATUS GL.TRUE].

(** The calls of a [makeProgram] whose program does not link, [log] being
    the log of the link. *)
Definition failed_link (log : string) (n vs fs : Z) : list GL.call :=
  [GL.CreateProgram n;
   GL.AttachShader n vs;
   GL.AttachShader n fs;
   GL.LinkProgram n;
   GL.GetProgramiv n GL.LINK_STATUS GL.FALSE;
   GL.GetProgramiv n GL.INFO_LOG_LENGTH (GL.log_length log);
   GL.GetProgramInfoLog n (GL.log_length log) (info_buffer log)].

(** What the driver answers when the shaders [vs] and [fs] are linked in
    the context [s]. *)
Definition link_result (d : GL.driver) (s : GL.context) (vs fs : Z) : bool * string :=
  GL.link d (omap (fun k => GL.shaders s !! k) [vs; fs]).

End Calls.

(** ** Predicates on the calls of a run *)
Module Props.
Local Open Scope Z_scope.

(** *** Draw passes and attribute pairing

    A draw pass is one indexed draw with the calls that lead to it and the
    attribute disables that directly follow it; the next pass begins with the
    first call after those. *)
Definition is_enable (c : GL.call) : bool :=
  match c with GL.EnableVertexAttribArray _ => true | _ => false end.

Definition is_disable (c : GL.call) : bool :=
  match c with GL.DisableVertexAttribArray _ => true | _ => false end.

Definition is_draw (c : GL.call) : bool :=
  match c with GL.DrawElements _ _ _ _ => true | _ => false end.

Definition is_use_program (c : GL.call) : bool :=
  match c with GL.UseProgram _ => true | _ => false end.

Definition count (f : GL.call -> bool) (cs : list GL.call) : nat :=
  length (List.filter f cs).

Fixpoint passes_from (cur : list GL.call) (drawn : bool) (cs : list GL.call)
  : list (list GL.call) :=
  match cs with
  | [] => match cur with [] => [] | _ => [cur] end
  | c :: cs' =>
      if drawn && negb (is_disable c)
      then cur :: passes_from [c] (is_draw c) cs'
      else passes_from (cur ++ [c]) (drawn || is_draw c) cs'
  end.

Definition passes (frame : list GL.call) : list (list GL.call) :=
  passes_from [] false frame.

(** As many enables as disables. *)
Definition paired (cs : list GL.call) : Prop :=
  count is_enable cs = count is_disable cs.

Definition pairing_per_pass (frame : list GL.call) : Prop :=
  Forall paired (passes frame).

(** The attribute arrays that are enabled once the calls [cs] have run. *)
Definition enabled_after (d : GL.driver) (cs : list GL.call) (w : GL.world) : gset Z :=
  GL.enabled (GL.vertex_arrays (GL.ctx (GL.run_calls d cs w))).

(** The calls of a frame split where the program changes: a group begins
    with each [UseProgram]. *)
Fixpoint groups_from (cur : list GL.call) (cs : list GL.call) : list (list GL.call) :=
  match cs with
  | [] => [cur]
  | c :: cs' =>
      if is_use_program c then cur :: groups_from [c] cs'
      else groups_from (cur ++ [c]) cs'
  end.

Definition program_groups (frame : list GL.call) : list (list GL.call) :=
  groups_from [] frame.

(** *** Indexed draws stay inside the buffers

    What one [DrawElements] reads: [count] indices of the bound element
    buffer, and for each of them one vertex of every enabled attribute
    array. *)
Definition stride_of (a : GL.attrib) : Z :=
  if GL.a_stride a =? 0 then 4 * GL.a_size a else GL.a_stride a.

(** The number of vertices a buffer of floats holds for an attribute. *)
Definition vertices (a : GL.attrib) (data : list Float.float) : Z :=
  Z.of_nat (length data) / GL.a_size a.

Definition fetch_in_bounds (a : GL.attrib) (data : list Float.float) (i : Z) : Prop :=
  0 <= i < vertices a data
  /\ GL.a_offset a + i * stride_of a + 4 * GL.a_size a <= 4 * Z.of_nat (length data).

Definition draw_in_bounds (dr : GL.draw) : Prop :=
  let a := GL.d_arrays dr in
  exists idx,
    GL.buffers a !! GL.element_buffer a = Some (GL.Uints idx)
    /\ GL.d_offset dr = 0
    /\ GL.d_count dr = Z.of_nat (length idx)
    /\ forall i k, i ∈ idx -> k ∈ GL.enabled a ->
         exists p data,
           GL.pointers a !! k = Some p
           /\ GL.buffers a !! GL.a_buffer p = Some (GL.Floats data)
           /\ fetch_in_bounds p data i.


(** *** Failure of a shader compile *)
Definition is_failed_compile (c : GL.call) : bool :=
  match c with
  | GL.GetShaderiv _ GL.COMPILE_STATUS v => v =? GL.FALSE
  | _ => false
  end.

Definition is_create_program (c : GL.call) : bool :=
  match c with GL.CreateProgram _ => true | _ => false end.

(** The calls by which a frame is rendered and shown. *)
Definition is_render_call (c : GL.call) : bool :=
  match c with
  | GL.DrawElements _ _ _ _ | GL.UseProgram _ | GL.SwapBuffers => true
  | _ => false
  end.

(** A process that dies of a failed compile: the line it logs holds the
    source and the log, the calls of the failed [makeShader] are its last
    ones, it has rendered nothing, and it has created at most [K] programs. *)
Definition compile_report (d : GL.driver) (K : nat) (msg : string) (cs : list GL.call)
  : Prop :=
  exists pre n ty source,
    cs = pre ++ Calls.failed_compile d n ty source
    /\ fst (GL.compile d ty (GL.Str source)) = false
    /\ msg = Shared.compile_error source
               (Calls.info_buffer (snd (GL.compile d ty (GL.Str source))))
    /\ existsb is_failed_compile pre = false
    /\ existsb is_render_call cs = false
    /\ (count is_create_program cs <= K)%nat.

(** Whenever a compile status of 0 shows in the calls of a run, the run
    was killed with the report of that compile. *)
Definition compile_failure_reported (d : GL.driver) (K : nat) (r : GL.result unit) : Prop :=
  forall w,
    GL.final r = Some w ->
    existsb is_failed_compile (GL.trace w) = true ->
    exists msg, r = GL.Fatal msg w /\ compile_report d K msg (GL.trace w).

(** The effect of the calls on the set of enabled attribute arrays. *)
Definition enabled_step (d : GL.driver) (E : gset Z) (c : GL.call) : gset Z :=
  match c with
  | GL.EnableVertexAttribArray i => if GL.valid_index d i then {[i]} ∪ E else E
  | GL.DisableVertexAttribArray i => if GL.valid_index d i then E ∖ {[i]} else E
  | _ => E
  end.

(** A group of calls that gives back the attribute arrays as it found them
    or with fewer enabled. *)
Definition restores (d : GL.driver) (cs : list GL.call) : Prop :=
  forall w, enabled_after d cs w ⊆ GL.enabled (GL.vertex_arrays (GL.ctx w)).

Section WithDriver.
Variable d : GL.driver.

(** However [m] ends, the calls it has issued are all of the class [P]. *)
Definition emits_only {A : Type} (P : GL.call -> bool) (m : GL.M A) : Prop :=
  forall w,
    match GL.final (m w) with
    | Some w' => exists cs, w' = GL.run_calls d cs w /\ forallb P cs = true
    | None => True
    end.

(** A run that dies of a failed compile says so. *)
Definition reports {A : Type} (K : nat) (m : GL.M A) : Prop :=
  forall w,
    match m w with
    | GL.Ok _ w' | GL.Panic _ w' =>
        exists cs, w' = GL.run_calls d cs w /\ existsb is_failed_compile cs = false
    | GL.Fatal msg w' =>
        exists cs, w' = GL.run_calls d cs w
                   /\ (existsb is_failed_compile cs = false
                       \/ compile_report d K msg cs)
    | GL.Stuck => True
    end.

(** The calls of resource construction before any program: no failed
    compile status, nothing of a frame, no program. *)
Definition setup_call (c : GL.call) : bool :=
  negb (is_failed_compile c) && negb (is_render_call c)
  && negb (is_create_program c).

(** Calls that do not report a compile status of 0. *)
Definition quiet_call (c : GL.call) : bool := negb (is_failed_compile c).

(** The calls of [makeProgram] after it has created the program. *)
Definition link_call (c : GL.call) : bool :=
  negb (is_failed_compile c) && negb (is_render_call c)
  && negb (is_create_program c).

Definition setup {A : Type} (m : GL.M A) : Prop :=
  reports 0 m
  /\ forall w, match GL.final (m w) with
               | Some w' => exists cs, w' = GL.run_calls d cs w
                                       /\ existsb is_render_call cs = false
                                       /\ count is_create_program cs = 0%nat
               | None => True
               end.

(** [makeProgram] is one [CreateProgram] followed by calls that create
    nothing. *)
Definition one_program {A : Type} (m : GL.M A) : Prop :=
  forall w, match GL.final (m w) with
            | Some w' => exists cs, w' = GL.run_calls d cs w
                                    /\ existsb is_failed_compile cs = false
                                    /\ existsb is_render_call cs = false
                                    /\ (count is_create_program cs <= 1)%nat
            | None => True
            end.

End WithDriver.

End Props.

(** ** Predicates on the arrays and on runs, for the draws *)
Module Arrays.
Local Open Scope Z_scope.

(** *** The arrays along a list of calls *)

Definition arrays_step (d : GL.driver) (a : GL.arrays) (c : GL.call) : GL.arrays :=
  match c with
  | GL.BindBuffer t b => GL.bind_buffer t b a
  | GL.BufferData t size data _ => GL.buffer_data t size data a
  | GL.VertexAttribPointer i size _ _ stride offset =>
      GL.attrib_pointer d i size stride offset a
  | GL.EnableVertexAttribArray i => GL.enable_attrib d i a
  | GL.DisableVertexAttribArray i => GL.disable_attrib d i a
  | _ => a
  end.

Fixpoint draws_of (d : GL.driver) (cs : list GL.call) (a : GL.arrays) : list GL.draw :=
  match cs with
  | [] => []
  | c :: cs' =>
      match c with
      | GL.DrawElements m n _ off => [GL.Draw m n off a]
      | _ => []
      end ++ draws_of d cs' (arrays_step d a c)
  end.

Definition buffer_counter (n : Z) (c : GL.call) : Z :=
  match c with
  | GL.GenBuffers b => b
  | _ => n
  end.


(** Calls that neither create nor fill a texture. *)
Definition no_texture (c : GL.call) : bool :=
  match c with
  | GL.GenTextures _ | GL.TexImage2D _ _ _ _ _ _ _ _ _ => false
  | _ => true
  end.



Definition buffer_target (t : GL.enum) : Prop :=
  t = GL.ARRAY_BUFFER \/ t = GL.ELEMENT_ARRAY_BUFFER.





(** The calls [cs] of a frame, issued with the arrays [a]: every draw among
    them is in bounds, and [post] holds of the arrays they leave. *)
Definition frame_ok (d : GL.driver) (cs : list GL.call) (a : GL.arrays)
    (post : GL.arrays -> Prop) : Prop :=
  post (fold_left (arrays_step d) cs a)
  /\ Forall Props.draw_in_bounds (draws_of d cs a).


(** The slices of the circle loop agree with its counter. *)
Definition circle_ok (c : Testing3.circle) : Prop :=
  Z.of_nat (length (Testing3.gElementBufferData3 c)) = Testing3.count3 c
  /\ length (Testing3.gVertexBufferData3 c)
     = (2 * length (Testing3.gElementBufferData3 c))%nat
  /\ length (Testing3.gColorBufferData3 c)
     = (3 * length (Testing3.gElementBufferData3 c))%nat
  /\ Forall (fun i => 0 <= i < Testing3.count3 c) (Testing3.gElementBufferData3 c).


End Arrays.

(** ** More sample values *)
Module Sample3.
Local Open Scope Z_scope.

(** The resources "Testing 3+" builds with [Sample.driver]. *)
Definition resources3 : Testing3.gResources :=
  Testing3.mkResources 1 2 1 2 3 (Testing3.mkAttributes 0 0 0)
    3 4 5 4 5 6 (Testing3.mkUniforms 4 4 2 2) (Testing3.mkAttributes 0 1 0)
    6 7 8 126.

(** A driver that compiles every shader and links no program. *)
Definition unlinked_driver : GL.driver :=
  GL.Driver 16
    (fun _ _ => (true, EmptyString))
    (fun _ => (false, "error: linking with uncompiled shader"%string))
    (fun _ _ => -1)
    (fun _ _ => -1).

End Sample3.

(** ** The main loops, as lists of calls *)
Module Frames.
Local Open Scope Z_scope.

(** A ['q'] is among the characters typed during the iteration. *)
Definition typed_q (f : Glfw.frame) : bool :=
  existsb (Z.eqb Shared.rune_q) (Glfw.chars f).

(** The iterations a main loop runs: up to and with the first one during
    which a ['q'] is typed. *)
Fixpoint frames_shown (fs : list Glfw.frame) : list Glfw.frame :=
  match fs with
  | [] => []
  | f :: fs' => f :: (if typed_q f then [] else frames_shown fs')
  end.

(** The calls of one iteration of the loop of [hello.go]. *)
Definition hello_frame (Sin : Float.float -> Float.float) (r : Hello.gResources)
    (f : Glfw.frame) : list GL.call :=
  Hello.render (Glfw.fb_width f) (Glfw.fb_height f)
    (Hello.updateFadeFactor Sin (Glfw.seconds f) r)
  ++ [GL.SwapBuffers].

(** The calls of one iteration of the loop of "Testing 3+". *)
Definition testing3_frame (Sin Cos : Float.float -> Float.float)
    (r : Testing3.gResources) (f : Glfw.frame) : list GL.call :=
  Testing3.render Sin Cos (Glfw.fb_width f) (Glfw.fb_height f) (Glfw.seconds f) r
  ++ [GL.SwapBuffers].

End Frames.

(** ** Constants of the proofs about numbers *)
Module Constants.
Local Open Scope Q_scope.

(** The bound of a Go [int]. *)
Definition two63 : Q := inject_Z (2 ^ 63).

(** [float32(.95)] *)
Definition ra32 : Q := 15938355 # 16777216.

End Constants.

(** ** Immediate mode: what [Begin], [Vertex3f] and [End] amount to

    In OpenGL 2.1 [Begin] takes one of the ten primitives; with any other
    value it raises [INVALID_ENUM] and is ignored.  [End] without a [Begin]
    in effect raises [INVALID_OPERATION].  A vertex that is specified while
    no [Begin] is in effect belongs to no primitive. *)
Module Immediate.

(** The primitives among the values of [GL.enum]. *)
Definition primitive (m : GL.enum) : bool :=
  match m with
  | GL.TRIANGLE_STRIP | GL.TRIANGLES | GL.LINES | GL.LINE_LOOP => true
  | _ => false
  end.

Record state : Type :=
  State { current : option GL.enum;   (* the primitive that is being specified *)
          vertices : nat;             (* its vertices so far *)
          finished : list (GL.enum * nat); (* the primitives ended, with their vertices *)
          stray : nat;                (* vertices that belong to no primitive *)
          errors : nat }.             (* errors raised *)

Definition start : state := State None 0 [] 0 0.

Definition step (s : state) (c : GL.call) : state :=
  match c with
  | GL.Begin m =>
      match current s with
      | Some _ => State (current s) (vertices s) (finished s) (stray s) (S (errors s))
      | None =>
          if primitive m then State (Some m) 0 (finished s) (stray s) (errors s)
          else State None 0 (finished s) (stray s) (S (errors s))
      end
  | GL.GlEnd =>
      match current s with
      | Some m => State None 0 (finished s ++ [(m, vertices s)]) (stray s) (errors s)
      | None => State None 0 (finished s) (stray s) (S (errors s))
      end
  | GL.Vertex3f _ _ _ =>
      match current s with
      | Some _ => State (current s) (S (vertices s)) (finished s) (stray s) (errors s)
      | None => State None 0 (finished s) (S (stray s)) (errors s)
      end
  | _ => s
  end.

Definition run (cs : list GL.call) (s : state) : state := fold_left step cs s.

(** The primitives one frame of "Testing" consists of. *)
Definition scene_primitives : list (GL.enum * nat) :=
  [(GL.TRIANGLES, 3%nat); (GL.LINE_LOOP, 126%nat)].

Definition is_swap (c : GL.call) : bool :=
  match c with GL.SwapBuffers => true | _ => false end.

End Immediate.

(** * Part II: the properties *)

(** ** Rounding to a floating-point format *)
Module FloatFacts.
Import Float.
Local Open Scope Q_scope.

Lemma round_half_even_floor q :
  (Qfloor q <= round_half_even q <= Qfloor q + 1)%Z.
Proof.
  unfold round_half_even.
  destruct (Qcompare (q - inject_Z (Qfloor q)) (1 # 2)); [destruct (Z.even _)| |]; lia.
Qed.

Lemma round_half_even_Z (n : Z) : round_half_even (inject_Z n) = n.
Proof.
  unfold round_half_even. rewrite Qfloor_Z.
  assert (H : inject_Z n - inject_Z n < 1 # 2) by lra.
  rewrite Qlt_alt in H. now rewrite H.
Qed.

Lemma round_half_even_mono x y :
  x <= y -> (round_half_even x <= round_half_even y)%Z.
Proof.
  intros Hxy.
  pose proof (Qfloor_resp_le _ _ Hxy) as Hf.
  destruct (Z.eq_dec (Qfloor x) (Qfloor y)) as [E|NE].
  - unfold round_half_even. rewrite <- E.
    destruct (Qcompare_spec (x - inject_Z (Qfloor x)) (1 # 2)) as [Hx|Hx|Hx];
      destruct (Qcompare_spec (y - inject_Z (Qfloor x)) (1 # 2)) as [Hy|Hy|Hy];
      try destruct (Z.even (Qfloor x)); try lia; exfalso; lra.
  - pose proof (round_half_even_floor x). pose proof (round_half_even_floor y). lia.
Qed.

Lemma round_half_even_comp x y : x == y -> round_half_even x = round_half_even y.
Proof.
  intros E. apply Z.le_antisymm; apply round_half_even_mono; lra.
Qed.

Lemma pow2_pos k : 0 < 2 ^ k.
Proof. apply Qpower_0_lt. reflexivity. Qed.

Lemma pow2_add a b : 2 ^ (a + b) == 2 ^ a * 2 ^ b.
Proof. apply Qpower_plus. discriminate. Qed.

Lemma pow2_succ a : 2 ^ (a + 1) == 2 * 2 ^ a.
Proof. rewrite pow2_add. change (2 ^ 1) with 2. ring. Qed.

Lemma pow2_le a b : (a <= b)%Z -> 2 ^ a <= 2 ^ b.
Proof. intros H. apply Qpower_le_compat_l; [exact H | discriminate]. Qed.

Lemma pow2_Z k : (0 <= k)%Z -> 2 ^ k == inject_Z (2 ^ k).
Proof. intros H. rewrite Zpower_Qpower by exact H. reflexivity. Qed.

Lemma pow2_log2 (a : Z) :
  (0 < a)%Z -> 2 ^ Z.log2 a <= inject_Z a /\ inject_Z a < 2 * 2 ^ Z.log2 a.
Proof.
  intros Ha. destruct (Z.log2_spec a Ha) as [H1 H2].
  pose proof (Z.log2_nonneg a) as Hn.
  rewrite <- pow2_succ, !pow2_Z by lia. rewrite <- Zle_Qle, <- Zlt_Qlt.
  replace (Z.log2 a + 1)%Z with (Z.succ (Z.log2 a)) by lia. auto.
Qed.

(** [Qlog2] finds the binade. *)
Lemma Qlog2_spec q : 0 < q -> 2 ^ Qlog2 q <= q /\ q < 2 ^ (Qlog2 q + 1).
Proof.
  intros Hq. destruct q as [a b].
  assert (Ha : (0 < a)%Z) by (unfold Qlt in Hq; simpl in Hq; lia).
  unfold Qlog2; cbn [Qnum Qden].
  destruct (pow2_log2 a Ha) as [A1 A2].
  destruct (pow2_log2 (Zpos b) eq_refl) as [B1 B2].
  set (la := Z.log2 a) in *. set (lb := Z.log2 (Z.pos b)) in *.
  pose proof (pow2_pos la) as Pa. pose proof (pow2_pos lb) as Pb.
  assert (Hb : 0 < inject_Z (Z.pos b)) by reflexivity.
  assert (Ek : 2 ^ (la - lb) * 2 ^ lb == 2 ^ la).
  { rewrite <- pow2_add. now replace (la - lb + lb)%Z with la by lia. }
  pose proof (pow2_pos (la - lb)) as Pk.
  assert (EQ : (a # b) * inject_Z (Z.pos b) == inject_Z a).
  { rewrite Qmake_Qdiv. field. discriminate. }
  destruct (Qle_bool (2 ^ (la - lb)) (a # b)) eqn:T.
  - apply Qle_bool_iff in T. split; [exact T|].
    rewrite pow2_succ.
    apply (Qmult_lt_r _ _ (inject_Z (Z.pos b))); [exact Hb|]. rewrite EQ.
    apply (Qmult_lt_r _ _ (2 ^ lb)); [exact Pb|].
    assert (R : 2 * 2 ^ (la - lb) * inject_Z (Z.pos b) * 2 ^ lb
                == 2 * 2 ^ la * inject_Z (Z.pos b)) by (rewrite <- Ek; ring).
    rewrite R. nra.
  - assert (T' : a # b < 2 ^ (la - lb)).
    { apply Qnot_le_lt. intros C. apply Qle_bool_iff in C. congruence. }
    replace (la - lb - 1 + 1)%Z with (la - lb)%Z by lia. split; [|exact T'].
    assert (E1 : 2 * 2 ^ (la - lb - 1) == 2 ^ (la - lb)).
    { rewrite <- pow2_succ. now replace (la - lb - 1 + 1)%Z with (la - lb)%Z by lia. }
    pose proof (pow2_pos (la - lb - 1)) as Pk1.
    apply (Qmult_le_r _ _ (inject_Z (Z.pos b))); [exact Hb|]. rewrite EQ.
    apply (Qmult_le_r _ _ (2 * 2 ^ lb)); [lra|].
    assert (R : 2 ^ (la - lb - 1) * inject_Z (Z.pos b) * (2 * 2 ^ lb)
                == 2 ^ la * inject_Z (Z.pos b)) by (rewrite <- Ek, <- E1; ring).
    rewrite R. nra.
Qed.

Lemma Qlog2_unique q e : 2 ^ e <= q -> q < 2 ^ (e + 1) -> Qlog2 q = e.
Proof.
  intros H1 H2.
  assert (Hq : 0 < q) by (pose proof (pow2_pos e); lra).
  destruct (Qlog2_spec q Hq) as [S1 S2].
  assert (L1 : (Qlog2 q < e + 1)%Z).
  { apply (Qpower_lt_compat_l_inv 2); [lra | reflexivity]. }
  assert (L2 : (e < Qlog2 q + 1)%Z).
  { apply (Qpower_lt_compat_l_inv 2); [lra | reflexivity]. }
  lia.
Qed.

Lemma Qlog2_mono x y : 0 < x -> x <= y -> (Qlog2 x <= Qlog2 y)%Z.
Proof.
  intros Hx Hxy.
  destruct (Qlog2_spec x Hx) as [X1 X2].
  destruct (Qlog2_spec y ltac:(lra)) as [Y1 Y2].
  assert (L : (Qlog2 x < Qlog2 y + 1)%Z).
  { apply (Qpower_lt_compat_l_inv 2); [lra | reflexivity]. }
  lia.
Qed.

Lemma Qlog2_comp x y : 0 < x -> x == y -> Qlog2 x = Qlog2 y.
Proof.
  intros Hx E. destruct (Qlog2_spec x Hx) as [S1 S2].
  symmetry. apply Qlog2_unique; lra.
Qed.

Lemma ulp_pos p m q : 0 < ulp p m q.
Proof. apply pow2_pos. Qed.

Lemma round_pos_eq p m q :
  round_pos p m q == inject_Z (round_half_even (q / ulp p m q)) * ulp p m q.
Proof. unfold round_pos. apply Qred_correct. Qed.

Lemma round_pos_nonneg p m q : 0 <= q -> 0 <= round_pos p m q.
Proof.
  intros Hq. rewrite round_pos_eq. pose proof (ulp_pos p m q) as Hu.
  apply Qmult_le_0_compat; [|lra].
  change 0 with (inject_Z 0). rewrite <- Zle_Qle.
  rewrite <- (round_half_even_Z 0). apply round_half_even_mono.
  apply Qle_shift_div_l; [exact Hu | change (inject_Z 0) with 0; lra].
Qed.

Lemma round_pos_upper p m q :
  (0 <= p)%Z -> 0 < q -> round_pos p m q <= 2 ^ (Z.max (Qlog2 q) m + 1).
Proof.
  intros Hp Hq. rewrite round_pos_eq. unfold ulp.
  set (e := Z.max (Qlog2 q) m).
  pose proof (pow2_pos (e - p + 1)) as Hu.
  destruct (Qlog2_spec q Hq) as [_ S2].
  assert (L : 2 ^ (Qlog2 q + 1) <= 2 ^ (e + 1)) by (apply pow2_le; lia).
  assert (E : 2 ^ (e + 1) == inject_Z (2 ^ p) * 2 ^ (e - p + 1)).
  { rewrite <- pow2_Z, <- pow2_add by exact Hp.
    now replace (p + (e - p + 1))%Z with (e + 1)%Z by lia. }
  rewrite E. apply Qmult_le_r; [exact Hu|]. rewrite <- Zle_Qle.
  rewrite <- (round_half_even_Z (2 ^ p)). apply round_half_even_mono.
  apply Qle_shift_div_r; [exact Hu|]. rewrite <- E. lra.
Qed.

Lemma round_pos_lower p m q :
  (1 <= p)%Z -> 0 < q -> (m <= Qlog2 q)%Z -> 2 ^ Qlog2 q <= round_pos p m q.
Proof.
  intros Hp Hq Hm. rewrite round_pos_eq. unfold ulp.
  rewrite Z.max_l by exact Hm. set (e := Qlog2 q).
  pose proof (pow2_pos (e - p + 1)) as Hu.
  destruct (Qlog2_spec q Hq) as [S1 _]. fold e in S1.
  assert (E : 2 ^ e == inject_Z (2 ^ (p - 1)) * 2 ^ (e - p + 1)).
  { rewrite <- pow2_Z, <- pow2_add by lia.
    now replace (p - 1 + (e - p + 1))%Z with e by lia. }
  rewrite E. apply Qmult_le_r; [exact Hu|]. rewrite <- Zle_Qle.
  rewrite <- (round_half_even_Z (2 ^ (p - 1))) at 1. apply round_half_even_mono.
  apply Qle_shift_div_l; [exact Hu|]. rewrite <- E. exact S1.
Qed.

(** Rounding is monotone: within a binade because rounding to an integer
    is, across binades because a power of two lies in between. *)
Lemma round_pos_mono p m x y :
  (1 <= p)%Z -> 0 < x -> x <= y -> round_pos p m x <= round_pos p m y.
Proof.
  intros Hp Hx Hxy.
  pose proof (Qlog2_mono x y Hx Hxy) as Hl.
  destruct (Z.eq_dec (Z.max (Qlog2 x) m) (Z.max (Qlog2 y) m)) as [E|NE].
  - rewrite !round_pos_eq. unfold ulp. rewrite <- E.
    pose proof (pow2_pos (Z.max (Qlog2 x) m - p + 1)) as Hu.
    apply Qmult_le_r; [exact Hu|]. rewrite <- Zle_Qle.
    apply round_half_even_mono. apply Qmult_le_r; [now apply Qinv_lt_0_compat | exact Hxy].
  - assert (Hy : (m <= Qlog2 y)%Z) by lia.
    apply Qle_trans with (2 ^ (Z.max (Qlog2 x) m + 1)).
    + apply round_pos_upper; [lia | exact Hx].
    + apply Qle_trans with (2 ^ Qlog2 y).
      * apply pow2_le. lia.
      * apply round_pos_lower; [exact Hp | lra | exact Hy].
Qed.

Lemma round_pos_comp p m x y :
  0 < x -> x == y -> round_pos p m x = round_pos p m y.
Proof.
  intros Hx E. unfold round_pos, ulp. apply Qred_complete.
  rewrite (Qlog2_comp x y Hx E).
  rewrite (round_half_even_comp (x / _) (y / 2 ^ (Z.max (Qlog2 y) m - p + 1))).
  - reflexivity.
  - now rewrite E.
Qed.

Lemma round_to_comp p m x y : x == y -> round_to p m x = round_to p m y.
Proof.
  intros E. unfold round_to. rewrite <- (Qcompare_comp x y E 0 0 (Qeq_refl 0)).
  destruct (Qcompare_spec x 0) as [H|H|H].
  - reflexivity.
  - f_equal. apply round_pos_comp; [lra | now rewrite E].
  - now apply round_pos_comp.
Qed.

Lemma round_to_opp p m x : round_to p m (- x) = - round_to p m x.
Proof.
  unfold round_to.
  destruct (Qcompare_spec x 0) as [H|H|H];
    destruct (Qcompare_spec (- x) 0) as [H'|H'|H']; try (exfalso; lra).
  - reflexivity.
  - destruct (round_pos p m (- x)) as [n d]. unfold Qopp; cbn.
    now rewrite Z.opp_involutive.
  - f_equal. apply round_pos_comp; [lra | ring].
Qed.

Lemma round_to_nonneg p m x : 0 <= x -> 0 <= round_to p m x.
Proof.
  intros H. unfold round_to.
  destruct (Qcompare_spec x 0) as [H'|H'|H']; [lra | lra |].
  now apply round_pos_nonneg.
Qed.

Lemma round_to_nonpos p m x : x <= 0 -> round_to p m x <= 0.
Proof.
  intros H. unfold round_to.
  destruct (Qcompare_spec x 0) as [H'|H'|H']; [lra | | lra].
  pose proof (round_pos_nonneg p m (- x)). lra.
Qed.

Lemma round_to_mono p m x y :
  (1 <= p)%Z -> x <= y -> round_to p m x <= round_to p m y.
Proof.
  intros Hp Hxy.
  destruct (Qlt_le_dec 0 x) as [Hx|Hx].
  - unfold round_to.
    destruct (Qcompare_spec x 0) as [H|H|H]; try (exfalso; lra).
    destruct (Qcompare_spec y 0) as [H'|H'|H']; try (exfalso; lra).
    now apply round_pos_mono.
  - destruct (Qlt_le_dec y 0) as [Hy|Hy].
    + unfold round_to.
      destruct (Qcompare_spec x 0) as [H|H|H]; try (exfalso; lra).
      destruct (Qcompare_spec y 0) as [H'|H'|H']; try (exfalso; lra).
      apply Qopp_le_compat. apply round_pos_mono; [exact Hp | lra | lra].
    + apply Qle_trans with 0; [now apply round_to_nonpos | now apply round_to_nonneg].
Qed.


(** *** Finite results *)

Lemma rnd_Fin_inv f q v :
  rnd f q = Fin v ->
  round_to (prec f) (emin f) q = v /\ Qabs v < 2 ^ emax f.
Proof.
  unfold rnd. destruct (Qle_bool (2 ^ emax f) _) eqn:T.
  - destruct (Qle_bool 0 _); discriminate.
  - intros [= <-]. split; [reflexivity|].
    apply Qnot_le_lt. intros C. apply Qle_bool_iff in C. congruence.
Qed.

Lemma rnd_Fin f q :
  Qabs (round_to (prec f) (emin f) q) < 2 ^ emax f ->
  rnd f q = Fin (round_to (prec f) (emin f) q).
Proof.
  intros H. unfold rnd. destruct (Qle_bool (2 ^ emax f) _) eqn:T; [|reflexivity].
  apply Qle_bool_iff in T. exfalso. lra.
Qed.

(** Between two values of the format, rounding stays finite and in between. *)
Lemma rnd_between f lo hi q :
  (1 <= prec f)%Z -> representable f lo -> representable f hi ->
  lo <= q -> q <= hi ->
  exists v, rnd f q = Fin v /\ lo <= v /\ v <= hi.
Proof.
  intros Hp Hlo Hhi H1 H2.
  apply rnd_Fin_inv in Hlo. destruct Hlo as [Elo Blo].
  apply rnd_Fin_inv in Hhi. destruct Hhi as [Ehi Bhi].
  pose proof (round_to_mono (prec f) (emin f) lo q Hp H1) as M1.
  pose proof (round_to_mono (prec f) (emin f) q hi Hp H2) as M2.
  rewrite Elo in M1. rewrite Ehi in M2.
  exists (round_to (prec f) (emin f) q). split; [|split; assumption].
  apply rnd_Fin. apply Qabs_Qlt_condition.
  apply Qabs_Qlt_condition in Blo. apply Qabs_Qlt_condition in Bhi. lra.
Qed.

Lemma rnd_comp f x y : x == y -> rnd f x = rnd f y.
Proof. intros E. unfold rnd. now rewrite (round_to_comp _ _ x y E). Qed.

Lemma representable32_0 : representable binary32 0.
Proof. reflexivity. Qed.

Lemma representable32_1 : representable binary32 1.
Proof. reflexivity. Qed.

Lemma representable64_0 : representable binary64 0.
Proof. reflexivity. Qed.

Lemma representable64_1 : representable binary64 1.
Proof. reflexivity. Qed.

Lemma representable64_m1 : representable binary64 (- (1)).
Proof. reflexivity. Qed.

(** The largest [float32] below 1 is [1 - 2^-24]. *)
Lemma below_one h :
  representable binary32 h -> h < 1 -> h <= 1 - (1 # 2 ^ 24).
Proof.
  intros R H1. destruct (Qlt_le_dec h (1 # 2)) as [S|S].
  - apply Qle_trans with (1 # 2); [lra | discriminate].
  - apply rnd_Fin_inv in R. destruct R as [R _]. cbn [prec emin binary32] in R.
    assert (L : Qlog2 h = (-1)%Z).
    { apply Qlog2_unique; [exact S | exact H1]. }
    unfold round_to in R.
    destruct (Qcompare_spec h 0) as [C|C|C]; try (exfalso; lra).
    pose proof (round_pos_eq 24 (-126) h) as E. rewrite R in E.
    unfold ulp in E. rewrite L in E.
    change (2 ^ (Z.max (-1) (-126) - 24 + 1)) with (1 # 2 ^ 24) in E.
    set (n := round_half_even (h / (1 # 2 ^ 24))) in *.
    assert (Hn : (n < 2 ^ 24)%Z).
    { rewrite Zlt_Qlt. apply (Qmult_lt_r _ _ (1 # 2 ^ 24)); [reflexivity|].
      rewrite <- E. apply Qlt_le_trans with 1; [exact H1 | discriminate]. }
    assert (Hn' : inject_Z n <= inject_Z (2 ^ 24 - 1)) by (rewrite <- Zle_Qle; lia).
    rewrite E.
    apply Qle_trans with (inject_Z (2 ^ 24 - 1) * (1 # 2 ^ 24)); [|discriminate].
    apply Qmult_le_r; [reflexivity | exact Hn'].
Qed.

(** Scaling a hue below 1 by 6 stays below 6, also after rounding. *)
Lemma hue_times_6 h :
  representable binary32 h -> 0 <= h -> h < 1 ->
  exists v, rnd binary32 (h * 6) = Fin v /\ 0 <= v /\ v < 6.
Proof.
  intros R H0 H1. pose proof (below_one h R H1) as B.
  destruct (rnd_between binary32 0 6 (h * 6)) as (v & E & V0 & V1);
    [discriminate | reflexivity | reflexivity | lra | lra |].
  exists v. split; [exact E | split; [exact V0|]].
  apply rnd_Fin_inv in E. destruct E as [E _]. cbn [prec emin binary32] in E.
  rewrite <- E.
  apply Qle_lt_trans with (round_to 24 (-126) ((1 - (1 # 2 ^ 24)) * 6)).
  - apply round_to_mono; [lia | lra].
  - reflexivity.
Qed.

End FloatFacts.

(** ** The colour converter [hsb2rgb] *)
Module ColorConverter.
Import Float FloatFacts.
Local Open Scope Q_scope.

Lemma Qfloor_eq (n : Z) v : inject_Z n <= v -> v < inject_Z n + 1 -> Qfloor v = n.
Proof.
  intros H1 H2. pose proof (Qfloor_le v) as F1. pose proof (Qlt_floor v) as F2.
  rewrite inject_Z_plus in F2.
  assert (A : (Qfloor v < n + 1)%Z).
  { rewrite Zlt_Qlt, inject_Z_plus. change (inject_Z 1) with 1 in *. lra. }
  assert (B : (n < Qfloor v + 1)%Z).
  { rewrite Zlt_Qlt, inject_Z_plus. change (inject_Z 1) with 1 in *. lra. }
  lia.
Qed.

Lemma flt_Fin x y : flt (Fin x) (Fin y) = true <-> x < y.
Proof.
  unfold flt, fcompare. destruct (Qcompare_spec x y) as [H|H|H]; split; intros; try easy; lra.
Qed.

Lemma flt_Fin_false x y : flt (Fin x) (Fin y) = false <-> y <= x.
Proof.
  unfold flt, fcompare. destruct (Qcompare_spec x y) as [H|H|H]; split; intros; try easy; lra.
Qed.

(** C1: for every hue in [0,1) (a [float32]), [hsb2rgb] returns the entry
    that the six-sector table gives for the sector [floor(hue*6)], with the
    chroma [c = brightness*saturation] and the secondary component
    [x = c*(1 - |(h' mod 2) - 1|)]; the sector lies in 0..5.  Saturation and
    brightness may be any [float32], in particular any in [0,1]. *)
Theorem hsb2rgb_sector_table (h : Q) (s b : float) :
  representable binary32 h -> 0 <= h -> h < 1 ->
  Spec.hsb_to_rgb (Fin h) s b = Some (Shared.hsb2rgb (Fin h) s b).
Proof.
  intros R H0 H1.
  destruct (hue_times_6 h R H0 H1) as (v & E & V0 & V6).
  unfold Spec.hsb_to_rgb, Shared.hsb2rgb, Spec.chroma, Spec.scaled_hue, Spec.secondary.
  change (fmul binary32 (Fin h) (Fin 6)) with (rnd binary32 (h * 6)).
  rewrite E. cbn [Spec.sector].
  set (c := fmul binary32 b s).
  set (x := fmul binary32 c _).
  destruct (flt (Fin v) (Fin 1)) eqn:T1.
  { apply flt_Fin in T1. rewrite (Qfloor_eq 0 v); [reflexivity | exact V0 | exact T1]. }
  apply flt_Fin_false in T1.
  destruct (flt (Fin v) (Fin 2)) eqn:T2.
  { apply flt_Fin in T2. rewrite (Qfloor_eq 1 v); [reflexivity | exact T1 | exact T2]. }
  apply flt_Fin_false in T2.
  destruct (flt (Fin v) (Fin 3)) eqn:T3.
  { apply flt_Fin in T3. rewrite (Qfloor_eq 2 v); [reflexivity | exact T2 | exact T3]. }
  apply flt_Fin_false in T3.
  destruct (flt (Fin v) (Fin 4)) eqn:T4.
  { apply flt_Fin in T4. rewrite (Qfloor_eq 3 v); [reflexivity | exact T3 | exact T4]. }
  apply flt_Fin_false in T4.
  destruct (flt (Fin v) (Fin 5)) eqn:T5.
  { apply flt_Fin in T5. rewrite (Qfloor_eq 4 v); [reflexivity | exact T4 | exact T5]. }
  apply flt_Fin_false in T5.
  rewrite (Qfloor_eq 5 v); [reflexivity | exact T5 | exact V6].
Qed.

Lemma hsb2rgb_sector_table_witness :
  Spec.hsb_to_rgb (Fin (3 # 4)) (Fin (1 # 2)) (Fin 1)
  = Some (Shared.hsb2rgb (Fin (3 # 4)) (Fin (1 # 2)) (Fin 1)).
Proof.
  apply (hsb2rgb_sector_table (3 # 4) (Fin (1 # 2)) (Fin 1));
    [reflexivity | discriminate | reflexivity].
Defined.


(** *** Range of the components *)

Lemma Qtrunc_nonneg q : 0 <= q -> Qtrunc q = Qfloor q.
Proof.
  destruct q as [n d]. unfold Qle, Qtrunc, Qfloor; cbn. intros H.
  apply Z.quot_div_nonneg; lia.
Qed.

(** [math.Mod(v, 2)] of a non-negative [v] lies in [0,2). *)
Lemma Mod_2 v :
  0 <= v -> exists m, Mod (Fin v) (Fin 2) = Fin m /\ 0 <= m /\ m < 2.
Proof.
  intros Hv. unfold Mod. change (Qeq_bool 2 0) with false. cbv iota.
  eexists. split; [reflexivity|].
  rewrite Qred_correct, Qtrunc_nonneg by (apply Qle_shift_div_l; [reflexivity | lra]).
  pose proof (Qfloor_le (v / 2)) as F1. pose proof (Qlt_floor (v / 2)) as F2.
  rewrite inject_Z_plus in F2. change (inject_Z 1) with 1 in F2.
  assert (E : v == 2 * (v / 2)) by (field).
  split; lra.
Qed.

Lemma mul32_unit x y :
  0 <= x -> x <= 1 -> 0 <= y -> y <= 1 ->
  exists v, fmul binary32 (Fin x) (Fin y) = Fin v /\ 0 <= v /\ v <= 1.
Proof.
  intros. apply (rnd_between binary32 0 1);
    [discriminate | reflexivity | reflexivity | nra | nra].
Qed.

(** The factor [1 - |(h' mod 2) - 1|], computed in [float64] and converted
    to [float32], is in [0,1] for every [h'] in [0,6]. *)
Lemma triangle_unit v :
  0 <= v -> v <= 6 ->
  exists t,
    convert binary32
      (fsub binary64 (Fin 1)
         (Abs (fsub binary64 (Mod (convert binary64 (Fin v)) (Fin 2)) (Fin 1)))) = Fin t
    /\ 0 <= t /\ t <= 1.
Proof.
  intros V0 V6.
  destruct (rnd_between binary64 0 6 v) as (v' & E1 & A0 & A6);
    [discriminate | reflexivity | reflexivity | exact V0 | exact V6 |].
  cbn [convert]. rewrite E1.
  destruct (Mod_2 v' A0) as (m & E2 & M0 & M2). rewrite E2.
  destruct (rnd_between binary64 (- (1)) 1 (m + - (1))) as (a & E3 & B0 & B1);
    [discriminate | reflexivity | reflexivity | lra | lra |].
  change (fsub binary64 (Fin m) (Fin 1)) with (rnd binary64 (m + - (1))).
  rewrite E3. cbn [Abs].
  assert (HA : 0 <= Qabs a /\ Qabs a <= 1).
  { split; [apply Qabs_nonneg | apply Qabs_Qle_condition; lra]. }
  destruct (rnd_between binary64 0 1 (1 + - Qabs a)) as (c & E4 & C0 & C1);
    [discriminate | reflexivity | reflexivity | lra | lra |].
  change (fsub binary64 (Fin 1) (Fin (Qabs a))) with (rnd binary64 (1 + - Qabs a)).
  rewrite E4.
  apply (rnd_between binary32 0 1); [discriminate | reflexivity | reflexivity | lra | lra].
Qed.

(** C7: for every hue in [0,1) and every saturation and brightness in [0,1],
    the three components returned by [hsb2rgb] are finite and lie in [0,1]. *)
Theorem hsb2rgb_unit_range (h s b : Q) :
  0 <= h -> h < 1 -> 0 <= s -> s <= 1 -> 0 <= b -> b <= 1 ->
  let '(r, g, b') := Shared.hsb2rgb (Fin h) (Fin s) (Fin b) in
  Spec.unit_range r /\ Spec.unit_range g /\ Spec.unit_range b'.
Proof.
  intros H0 H1 S0 S1 B0 B1.
  destruct (mul32_unit b s B0 B1 S0 S1) as (c & Ec & C0 & C1).
  destruct (rnd_between binary32 0 6 (h * 6)) as (v & Ev & V0 & V6);
    [discriminate | reflexivity | reflexivity | lra | lra |].
  destruct (triangle_unit v V0 V6) as (t & Et & T0 & T1).
  destruct (mul32_unit c t C0 C1 T0 T1) as (x & Ex & X0 & X1).
  unfold Shared.hsb2rgb.
  change (fmul binary32 (Fin h) (Fin 6)) with (rnd binary32 (h * 6)).
  rewrite Ec, Ev, Et, Ex.
  assert (Z01 : Spec.unit_range (Fin 0)) by (split; discriminate).
  assert (Hc : Spec.unit_range (Fin c)) by (split; assumption).
  assert (Hx : Spec.unit_range (Fin x)) by (split; assumption).
  repeat match goal with |- context [if ?t then _ else _] => destruct t end;
    cbv beta iota; (split; [|split]); assumption.
Qed.

Lemma hsb2rgb_unit_range_witness :
  let '(r, g, b') := Shared.hsb2rgb (Fin (7 # 10)) (Fin (1 # 2)) (Fin (3 # 4)) in
  Spec.unit_range r /\ Spec.unit_range g /\ Spec.unit_range b'.
Proof.
  apply (hsb2rgb_unit_range (7 # 10) (1 # 2) (3 # 4)); discriminate || reflexivity.
Defined.

(** C6: hue exactly 1.0.  The scaled hue is 6, past the last test of the
    chain, so the last entry [(c, 0, x)] is returned; there [x] is 0, and the
    result is the sector-0 entry [(c, x, 0)] of the table taken at [h' = 0],
    which is also what hue 0 gives. *)
Theorem hsb2rgb_hue_one (s b : Q) :
  0 <= s -> s <= 1 -> 0 <= b -> b <= 1 ->
  let c := Spec.chroma (Fin s) (Fin b) in
  Spec.sector_table c (Spec.secondary c (Fin 0)) 0
    = Some (Shared.hsb2rgb (Fin 1) (Fin s) (Fin b))
  /\ Shared.hsb2rgb (Fin 1) (Fin s) (Fin b) = Shared.hsb2rgb (Fin 0) (Fin s) (Fin b).
Proof.
  intros S0 S1 B0 B1.
  destruct (mul32_unit b s B0 B1 S0 S1) as (c & Ec & C0 & C1).
  assert (Z : forall q, fmul binary32 (Fin q) (Fin 0) = Fin 0).
  { intros q. change (fmul binary32 (Fin q) (Fin 0)) with (rnd binary32 (q * 0)).
    rewrite (rnd_comp binary32 (q * 0) 0) by ring. reflexivity. }
  assert (E1 : Shared.hsb2rgb (Fin 1) (Fin s) (Fin b) = (Fin c, Fin 0, Fin 0)).
  { unfold Shared.hsb2rgb. rewrite Ec.
    change (fmul binary32 (Fin 1) (Fin 6)) with (Fin 6).
    change (flt (Fin 6) (Fin 1)) with false. change (flt (Fin 6) (Fin 2)) with false.
    change (flt (Fin 6) (Fin 3)) with false. change (flt (Fin 6) (Fin 4)) with false.
    change (flt (Fin 6) (Fin 5)) with false. cbv iota.
    change (convert binary32 _) with (Fin 0). now rewrite Z. }
  assert (E0 : Shared.hsb2rgb (Fin 0) (Fin s) (Fin b) = (Fin c, Fin 0, Fin 0)).
  { unfold Shared.hsb2rgb. rewrite Ec.
    change (fmul binary32 (Fin 0) (Fin 6)) with (Fin 0).
    change (flt (Fin 0) (Fin 1)) with true. cbv iota.
    change (convert binary32 _) with (Fin 0). now rewrite Z. }
  cbv zeta. rewrite E1, E0. split; [|reflexivity].
  unfold Spec.chroma, Spec.secondary. rewrite Ec.
  change (convert binary32 _) with (Fin 0). now rewrite Z.
Qed.

Lemma hsb2rgb_hue_one_witness :
  Spec.sector_table (Spec.chroma (Fin (1 # 2)) (Fin 1))
    (Spec.secondary (Spec.chroma (Fin (1 # 2)) (Fin 1)) (Fin 0)) 0
    = Some (Shared.hsb2rgb (Fin 1) (Fin (1 # 2)) (Fin 1))
  /\ Shared.hsb2rgb (Fin 1) (Fin (1 # 2)) (Fin 1)
     = Shared.hsb2rgb (Fin 0) (Fin (1 # 2)) (Fin 1).
Proof.
  apply (hsb2rgb_hue_one (1 # 2) 1); discriminate.
Defined.

End ColorConverter.

(** ** Aspect correction in [drawScene] *)
Module Aspect.
Import Float FloatFacts.
Local Open Scope Q_scope.

Lemma rnd_opp f q : rnd f (- q) = fneg (rnd f q).
Proof.
  unfold rnd. rewrite round_to_opp. set (v := round_to (prec f) (emin f) q).
  pose proof (pow2_pos (emax f)) as P.
  destruct (Qle_bool (2 ^ emax f) (Qabs v)) eqn:T.
  - apply Qle_bool_iff in T.
    assert (T' : Qle_bool (2 ^ emax f) (Qabs (- v)) = true).
    { apply Qle_bool_iff. now rewrite Qabs_opp. }
    rewrite T'.
    destruct (Qle_bool 0 v) eqn:S.
    + apply Qle_bool_iff in S. rewrite Qabs_pos in T by exact S.
      destruct (Qle_bool 0 (- v)) eqn:S'; [|reflexivity].
      apply Qle_bool_iff in S'. exfalso. lra.
    + assert (S1 : v < 0).
      { apply Qnot_le_lt. intros C. apply Qle_bool_iff in C. congruence. }
      destruct (Qle_bool 0 (- v)) eqn:S'; [reflexivity|].
      assert (S2 : - v < 0).
      { apply Qnot_le_lt. intros C. apply Qle_bool_iff in C. congruence. }
      exfalso. lra.
  - assert (T' : Qle_bool (2 ^ emax f) (Qabs (- v)) = false).
    { destruct (Qle_bool (2 ^ emax f) (Qabs (- v))) eqn:U; [|reflexivity].
      apply Qle_bool_iff in U. rewrite Qabs_opp in U. apply Qle_bool_iff in U. congruence. }
    now rewrite T'.
Qed.

(** [-1/ratio], as the program writes it, is the negation of [1/ratio]. *)
Lemma fdiv_minus_one f ratio :
  fdiv f (Fin (- (1))) ratio = fneg (fdiv f (Fin 1) ratio).
Proof.
  destruct ratio as [y| | |]; try reflexivity.
  cbn [fdiv]. destruct (Qeq_bool y 0) eqn:Z; [reflexivity|].
  rewrite <- rnd_opp. apply rnd_comp.
  apply Qeq_bool_neq in Z. field. exact Z.
Qed.

Lemma orthoExtents_half_extents ratio :
  Testing.orthoExtents ratio = Spec.half_extents ratio.
Proof.
  unfold Testing.orthoExtents, Spec.half_extents.
  destruct (fgt ratio (Fin 1)); [reflexivity|].
  now rewrite fdiv_minus_one.
Qed.

(** C5: for every framebuffer size, with [ratio = float32(width) /
    float32(height)], [drawScene] computes the half-extents [(-ratio, ratio,
    -1, 1)] when [ratio > 1] and [(-1, 1, -1/ratio, 1/ratio)] otherwise; a
    ratio of 2 gives [(-2, 2, -1, 1)] and a ratio of 1/2 gives [(-1, 1, -2, 2)]. *)
Theorem drawScene_half_extents (width height : Z) :
  let ratio := Testing.aspect width height in
  Testing.orthoExtents ratio = Spec.half_extents ratio
  /\ (ratio = Fin 2 ->
      Testing.orthoExtents ratio = (Fin (- (2)), Fin 2, Fin (- (1)), Fin 1))
  /\ (ratio = Fin (1 # 2) ->
      Testing.orthoExtents ratio = (Fin (- (1)), Fin 1, Fin (- (2)), Fin 2)).
Proof.
  cbv zeta. split; [apply orthoExtents_half_extents|].
  split; intros ->; reflexivity.
Qed.

Lemma drawScene_half_extents_witness :
  Testing.orthoExtents (Testing.aspect 640 320)
    = (Fin (- (2)), Fin 2, Fin (- (1)), Fin 1)
  /\ Testing.orthoExtents (Testing.aspect 320 640)
     = (Fin (- (1)), Fin 1, Fin (- (2)), Fin 2).
Proof.
  split.
  - apply (proj1 (proj2 (drawScene_half_extents 640 320))). reflexivity.
  - apply (proj2 (proj2 (drawScene_half_extents 320 640))). reflexivity.
Defined.

End Aspect.

(** ** The character callback *)
Module Input.
Local Open Scope Z_scope.

(** C10: a character other than ['q'] leaves the window's close-requested
    flag (indeed the whole window) as it was, in all three programs; the
    character ['q'] sets the flag. *)
Theorem charCallBack_only_q (w : Glfw.Window) (char : Z) :
  (char <> Shared.rune_q ->
     Shared.charCallBack w char = w /\ snd (Testing.charCallBack w char) = w)
  /\ Glfw.ShouldClose (Shared.charCallBack w Shared.rune_q) = true
  /\ Glfw.ShouldClose (snd (Testing.charCallBack w Shared.rune_q)) = true.
Proof.
  split; [|split; reflexivity].
  intros H. unfold Shared.charCallBack, Testing.charCallBack. cbn [snd].
  destruct (Z.eqb_spec char Shared.rune_q); [contradiction | auto].
Qed.

Lemma charCallBack_only_q_witness :
  Shared.charCallBack (Glfw.mkWindow false) 120 = Glfw.mkWindow false
  /\ snd (Testing.charCallBack (Glfw.mkWindow false) 120) = Glfw.mkWindow false.
Proof.
  apply (proj1 (charCallBack_only_q (Glfw.mkWindow false) 120)). discriminate.
Defined.

(** After the characters of one poll, the flag is set exactly when it was
    set before or a ['q'] was among them. *)
Lemma charCallBack_poll (cs : list Z) (w : Glfw.Window) :
  Glfw.ShouldClose (fold_left Shared.charCallBack cs w)
  = Glfw.ShouldClose w || existsb (Z.eqb Shared.rune_q) cs.
Proof.
  revert w. induction cs as [|c cs IH]; intros w; cbn [fold_left existsb].
  - now rewrite orb_false_r.
  - rewrite IH. unfold Shared.charCallBack. rewrite (Z.eqb_sym Shared.rune_q c).
    destruct (c =? Shared.rune_q); cbn.
    + now rewrite orb_true_r.
    + reflexivity.
Qed.

End Input.

(** ** Running computations against the context *)
Module GLFacts.
Local Open Scope Z_scope.

Lemma run_calls_nil d w : GL.run_calls d [] w = w.
Proof. destruct w. unfold GL.run_calls. cbn. now rewrite app_nil_r. Qed.

Lemma run_calls_app d cs1 cs2 w :
  GL.run_calls d (cs1 ++ cs2) w = GL.run_calls d cs2 (GL.run_calls d cs1 w).
Proof.
  unfold GL.run_calls. cbn. now rewrite fold_left_app, app_assoc.
Qed.

Lemma run_calls_cons d c cs w :
  GL.run_calls d (c :: cs) w = GL.run_calls d cs (GL.run_calls d [c] w).
Proof. apply (run_calls_app d [c] cs). Qed.

Lemma emit_run d c w : GL.emit d c w = GL.Ok tt (GL.run_calls d [c] w).
Proof. reflexivity. Qed.

Lemma emits_run d cs w : GL.emits d cs w = GL.Ok tt (GL.run_calls d cs w).
Proof.
  revert w. induction cs as [|c cs IH]; intros w; cbn [GL.emits].
  - unfold GL.ret. now rewrite run_calls_nil.
  - unfold GL.bind. rewrite emit_run, IH. now rewrite <- run_calls_cons.
Qed.

Lemma bind_Ok {A B} (m : GL.M A) (k : A -> GL.M B) w a w' :
  m w = GL.Ok a w' -> GL.bind m k w = k a w'.
Proof. intros H. unfold GL.bind. now rewrite H. Qed.

Lemma bind_Fatal {A B} (m : GL.M A) (k : A -> GL.M B) w msg w' :
  m w = GL.Fatal msg w' -> GL.bind m k w = GL.Fatal msg w'.
Proof. intros H. unfold GL.bind. now rewrite H. Qed.

Lemma trace_run_calls d cs w :
  GL.trace (GL.run_calls d cs w) = GL.trace w ++ cs.
Proof. reflexivity. Qed.

End GLFacts.

(** ** Texture loading *)
Module TextureLoader.
Import Image Pieces.
Local Open Scope Z_scope.

Lemma Intersect_inside r s :
  Empty r = false ->
  X (Min s) <= X (Min r) -> Y (Min s) <= Y (Min r) ->
  X (Max r) <= X (Max s) -> Y (Max r) <= Y (Max s) ->
  Intersect r s = r.
Proof.
  destruct r as [[a b] [c e]], s as [[a' b'] [c' e']]. cbn. intros E H1 H2 H3 H4.
  unfold Intersect. cbn.
  rewrite (Z.max_l a a'), (Z.max_l b b'), (Z.min_l c c'), (Z.min_l e e') by lia.
  unfold Empty in *. cbn in *. now rewrite E.
Qed.

Lemma image_Rect_ordered x0 y0 x1 y1 :
  x0 <= x1 -> y0 <= y1 -> image_Rect x0 y0 x1 y1 = Rectangle_ (Pt x0 y0) (Pt x1 y1).
Proof.
  intros Hx Hy. unfold image_Rect.
  destruct (Z.ltb_spec x1 x0); [lia|]. destruct (Z.ltb_spec y1 y0); [lia|]. reflexivity.
Qed.

Lemma clip_row W H h dst src :
  0 < W -> 0 <= h < H ->
  Rect dst = at_origin W H -> Rect src = at_origin W H ->
  clip dst (image_Rect 0 (H - 1 - h) W (H - h)) src (Pt 0 h)
  = (Rectangle_ (Pt 0 (H - 1 - h)) (Pt W (H - h)), Pt 0 h).
Proof.
  intros HW Hh Rd Rs. rewrite image_Rect_ordered by lia.
  unfold clip, Bounds. rewrite Rd, Rs. cbn [Min Max X Y].
  assert (NE : Empty (Rectangle_ (Pt 0 (H - 1 - h)) (Pt W (H - h))) = false).
  { unfold Empty. cbn. destruct (Z.leb_spec W 0); [lia|].
    destruct (Z.leb_spec (H - h) (H - 1 - h)); [lia | reflexivity]. }
  rewrite (Intersect_inside _ (at_origin W H)); [|exact NE | cbn; lia ..].
  rewrite Intersect_inside; [|exact NE | cbn; lia ..].
  cbn [Min Max X Y]. f_equal. f_equal; lia.
Qed.

(** One turn of the flip loop writes the bytes of source row [h] over
    destination row [H-1-h] and nothing else. *)
Lemma Draw_row W H h dst src (i : nat) :
  0 < W -> 0 <= h < H ->
  Rect dst = at_origin W H -> Stride dst = 4 * W -> Rect src = at_origin W H ->
  let dst' := Draw dst (image_Rect 0 (H - 1 - h) W (H - h)) src (Pt 0 h) in
  Rect dst' = at_origin W H /\ Stride dst' = 4 * W
  /\ length (Pix dst') = length (Pix dst)
  /\ Pix dst' !! i =
       (fun old =>
          if Z.of_nat i / (4 * W) =? H - 1 - h
          then default 0 (Pix src !! Z.to_nat (h * Stride src + Z.of_nat i mod (4 * W)))
          else old) <$> Pix dst !! i.
Proof.
  intros HW Hh Rd Sd Rs. cbv zeta. unfold Draw.
  rewrite (clip_row W H h dst src HW Hh Rd Rs).
  assert (NE : Empty (Rectangle_ (Pt 0 (H - 1 - h)) (Pt W (H - h))) = false).
  { unfold Empty. cbn. destruct (Z.leb_spec W 0); [lia|].
    destruct (Z.leb_spec (H - h) (H - 1 - h)); [lia | reflexivity]. }
  rewrite NE. cbn [Rect Stride Pix].
  split; [exact Rd|]. split; [exact Sd|]. split; [apply length_imap|].
  rewrite list_lookup_imap. destruct (Pix dst !! i) as [old|]; [|reflexivity].
  cbn [fmap option_fmap option_map]. f_equal.
  rewrite Rd, Sd. cbn [Min Max X Y at_origin].
  set (row := Z.of_nat i / (4 * W)). set (col := Z.of_nat i mod (4 * W)).
  assert (Hcol : 0 <= col < 4 * W) by (apply Z.mod_pos_bound; lia).
  assert (Hx : 0 <= col / 4 < W).
  { split; [apply Z.div_pos; lia | apply Z.div_lt_upper_bound; lia]. }
  unfold In. cbn [X Y Min Max].
  destruct (Z.eqb_spec row (H - 1 - h)) as [E|NE'].
  - replace ((0 <=? 0 + col / 4) && (0 + col / 4 <? W) && (H - 1 - h <=? 0 + row)
             && (0 + row <? H - h)) with true.
    2:{ symmetry. rewrite !andb_true_iff. rewrite !Z.leb_le, !Z.ltb_lt. lia. }
    unfold byte_at, PixOffset. rewrite Rs. cbn [Min Max X Y at_origin].
    do 2 f_equal. rewrite E.
    pose proof (Z.div_mod col 4 ltac:(lia)). lia.
  - replace ((0 <=? 0 + col / 4) && (0 + col / 4 <? W) && (H - 1 - h <=? 0 + row)
             && (0 + row <? H - h)) with false; [reflexivity|].
    symmetry. rewrite !andb_false_iff. rewrite !Z.leb_gt, !Z.ltb_ge. lia.
Qed.


Lemma flip_fold W H img (hs : list Z) : forall dst (i : nat),
  0 < W -> Forall (fun h => 0 <= h < H) hs ->
  Rect dst = at_origin W H -> Stride dst = 4 * W -> Rect img = at_origin W H ->
  let res := fold_left (flip_row W H img) hs dst in
  Rect res = at_origin W H /\ Stride res = 4 * W
  /\ length (Pix res) = length (Pix dst)
  /\ Pix res !! i =
       (fun old =>
          if bool_decide (H - 1 - Z.of_nat i / (4 * W) ∈ hs)
          then default 0
                 (Pix img !! Z.to_nat ((H - 1 - Z.of_nat i / (4 * W)) * Stride img
                                       + Z.of_nat i mod (4 * W)))
          else old) <$> Pix dst !! i.
Proof.
  induction hs as [|h hs IH]; intros dst i HW Hhs Rd Sd Rs; cbv zeta.
  - cbn [fold_left]. repeat split; try assumption.
    destruct (Pix dst !! i); [|reflexivity]. cbn.
    rewrite bool_decide_eq_false_2; [reflexivity | apply not_elem_of_nil].
  - cbn [fold_left]. inversion Hhs as [|? ? Hh Hhs']; subst.
    destruct (Draw_row W H h dst img i HW Hh Rd Sd Rs) as (R1 & S1 & L1 & P1).
    fold (flip_row W H img dst h) in R1, S1, L1, P1.
    destruct (IH (flip_row W H img dst h) i HW Hhs' R1 S1 Rs) as (R2 & S2 & L2 & P2).
    split; [exact R2|]. split; [exact S2|]. split; [congruence|].
    rewrite P2, P1. destruct (Pix dst !! i) as [old|]; [|reflexivity]. cbn. f_equal.
    destruct (bool_decide (H - 1 - Z.of_nat i / (4 * W) ∈ hs)) eqn:B.
    + apply bool_decide_eq_true_1 in B.
      rewrite bool_decide_eq_true_2; [reflexivity | apply elem_of_cons; now right].
    + apply bool_decide_eq_false_1 in B.
      destruct (Z.eqb_spec (Z.of_nat i / (4 * W)) (H - 1 - h)) as [E|NE].
      * rewrite bool_decide_eq_true_2.
        -- do 4 f_equal. lia.
        -- replace (H - 1 - Z.of_nat i / (4 * W)) with h by lia. apply elem_of_cons; now left.
      * rewrite bool_decide_eq_false_2; [reflexivity|].
        intros [?|?]%elem_of_cons; [lia | contradiction].
Qed.

(** [hello.go]: after the flip loop, the pixel data of source row [h] is in
    row [H-1-h] of the upload buffer, for every row of the picture. *)
Lemma flip_rows_flips (img : RGBA) (W H h x c v : Z) :
  Rect img = at_origin W H ->
  0 <= h < H -> 0 <= x < W -> 0 <= c < 4 ->
  byte_at img x h c = Some v ->
  byte_at (Hello.flip_rows (NewRGBA (Bounds img)) img) x (H - 1 - h) c = Some v.
Proof.
  intros Rs Hh Hx Hc Hv.
  assert (HW : 0 < W) by lia.
  set (dst := NewRGBA (Bounds img)).
  assert (EF : Hello.flip_rows dst img = fold_left (flip_row W H img) (seqZ 0 H) dst).
  { unfold Hello.flip_rows, Bounds. rewrite Rs. reflexivity. }
  rewrite EF. clear EF.
  assert (Rd : Rect dst = at_origin W H) by (unfold dst, Bounds; now rewrite Rs).
  assert (Sd : Stride dst = 4 * W).
  { unfold dst, Bounds. rewrite Rs. cbn. unfold Dx. cbn. lia. }
  assert (Ld : length (Pix dst) = Z.to_nat (4 * W * H)).
  { unfold dst, Bounds. rewrite Rs. cbn. unfold Dx, Dy. cbn.
    rewrite length_replicate. f_equal. lia. }
  assert (Hs : Forall (fun h => 0 <= h < H) (seqZ 0 H)).
  { apply Forall_forall. intros k Hk. apply elem_of_seqZ in Hk. lia. }
  set (i := Z.to_nat ((H - 1 - h) * (4 * W) + (x * 4 + c))).
  destruct (flip_fold W H img (seqZ 0 H) dst i HW Hs Rd Sd Rs) as (R & S & L & P).
  unfold byte_at, PixOffset. rewrite R, S. cbn [Min X Y at_origin].
  replace (Z.to_nat ((H - 1 - h - 0) * (4 * W) + (x - 0) * 4 + c)) with i by (unfold i; f_equal; lia).
  rewrite P.
  assert (Hi : Z.of_nat i = (H - 1 - h) * (4 * W) + (x * 4 + c)) by (unfold i; nia).
  assert (Hrow : Z.of_nat i / (4 * W) = H - 1 - h).
  { rewrite Hi. rewrite Z.div_add_l by lia. rewrite Z.div_small by lia. lia. }
  assert (Hcol : Z.of_nat i mod (4 * W) = x * 4 + c).
  { rewrite Hi. rewrite Z.add_comm, Z.mod_add by lia. apply Z.mod_small. lia. }
  assert (Hlt : (i < length (Pix dst))%nat) by (rewrite Ld; unfold i; nia).
  destruct (lookup_lt_is_Some_2 (Pix dst) i Hlt) as [old Eo]. rewrite Eo. cbn.
  rewrite Hrow, Hcol. rewrite bool_decide_eq_true_2 by (apply elem_of_seqZ; lia).
  f_equal. unfold byte_at, PixOffset in Hv. rewrite Rs in Hv. cbn [Min X Y at_origin] in Hv.
  replace (Z.to_nat ((H - 1 - (H - 1 - h)) * Stride img + (x * 4 + c)))
    with (Z.to_nat ((h - 0) * Stride img + (x - 0) * 4 + c)) by (f_equal; lia).
  now rewrite Hv.
Qed.


Lemma NewRGBA_stride r :
  negb (Stride (NewRGBA r) =? X (Size (Rect (NewRGBA r))) * 4) = false.
Proof. cbn. apply negb_false_iff, Z.eqb_eq. lia. Qed.

Lemma Hello_makeTexture_run d p filename img w :
  Glfw.files p filename = inr img ->
  Hello.makeTexture d p filename w
  = GL.Ok (GL.last_texture (GL.ctx w) + 1)
      (GL.run_calls d
         (upload (GL.last_texture (GL.ctx w) + 1) GL.RGBA
            (Hello.flip_rows (NewRGBA (Bounds img)) img)) w).
Proof.
  intros F. unfold Hello.makeTexture. rewrite F. cbv zeta.
  rewrite NewRGBA_stride.
  cbv [GL.bind GL.ret GL.glGenTextures GL.get GL.emit GL.run_calls upload fold_left].
  cbn [GL.ctx GL.trace]. rewrite <- !app_assoc. reflexivity.
Qed.

Lemma Testing3_makeTexture_run d p filename img w :
  Glfw.files p filename = inr img ->
  Testing3.makeTexture d p filename w
  = GL.Ok (GL.last_texture (GL.ctx w) + 1)
      (GL.run_calls d
         (upload (GL.last_texture (GL.ctx w) + 1) GL.RGB8
            (Draw (NewRGBA (Bounds img)) (Bounds (NewRGBA (Bounds img))) img (Pt 0 0))) w).
Proof.
  intros F. unfold Testing3.makeTexture. rewrite F. cbv zeta.
  rewrite NewRGBA_stride.
  cbv [GL.bind GL.ret GL.glGenTextures GL.get GL.emit GL.run_calls upload fold_left].
  cbn [GL.ctx GL.trace]. rewrite <- !app_assoc. reflexivity.
Qed.

(** The image a texture name holds after [upload]. *)
Lemma upload_texture d t fmt rgba w :
  GL.textures (GL.ctx (GL.run_calls d (upload t fmt rgba) w)) !! t
  = Some (GL.TexImage fmt (int32 (X (Size (Rect rgba)))) (int32 (Y (Size (Rect rgba))))
            GL.RGBA (Pix rgba)).
Proof.
  unfold GL.run_calls, upload. cbn [fold_left GL.ctx GL.step GL.textures GL.texture_2d].
  apply lookup_insert_eq.
Qed.


Lemma Draw_shape dst r src sp :
  Rect (Draw dst r src sp) = Rect dst
  /\ Stride (Draw dst r src sp) = Stride dst
  /\ length (Pix (Draw dst r src sp)) = length (Pix dst).
Proof.
  unfold Draw. destruct (clip dst r src sp) as [r' sp'].
  destruct (Empty r'); [auto|]. cbn. now rewrite length_imap.
Qed.

Lemma flip_rows_shape rgba img :
  Rect (Hello.flip_rows rgba img) = Rect rgba
  /\ length (Pix (Hello.flip_rows rgba img)) = length (Pix rgba).
Proof.
  unfold Hello.flip_rows. cbv zeta.
  generalize (seqZ 0 (Y (Max (Bounds img)))). intros hs. revert rgba.
  induction hs as [|h hs IH]; intros rgba; cbn [fold_left]; [auto|].
  destruct (IH (Draw rgba (image_Rect 0 (Y (Max (Bounds img)) - 1 - h) (X (Max (Bounds img)))
                         (Y (Max (Bounds img)) - h)) img (Pt 0 h))) as [R L].
  destruct (Draw_shape rgba (image_Rect 0 (Y (Max (Bounds img)) - 1 - h) (X (Max (Bounds img)))
                         (Y (Max (Bounds img)) - h)) img (Pt 0 h)) as (R' & _ & L').
  split; congruence.
Qed.

(** C4, as the code has it: the stride that [makeTexture] tests is the
    stride of the upload buffer it has just allocated, which is always
    [width*4]; the decoded picture's own stride is never looked at.  So once a
    picture is decoded, loading succeeds whatever its row stride, and the
    texture gets tightly Spec.packed rows.  This holds for both [makeTexture]
    functions of the repository. *)
Theorem makeTexture_ignores_stride d p filename img w :
  Glfw.files p filename = inr img ->
  exists t w1 w3,
    Hello.makeTexture d p filename w = GL.Ok t w1
    /\ Spec.packed img GL.RGBA (GL.textures (GL.ctx w1) !! t)
    /\ Testing3.makeTexture d p filename w = GL.Ok t w3
    /\ Spec.packed img GL.RGB8 (GL.textures (GL.ctx w3) !! t).
Proof.
  intros F. eexists _, _, _.
  rewrite (Hello_makeTexture_run d p filename img w F).
  rewrite (Testing3_makeTexture_run d p filename img w F).
  split; [reflexivity|]. split; [|split; [reflexivity|]].
  - rewrite upload_texture.
    destruct (flip_rows_shape (NewRGBA (Bounds img)) img) as [R L].
    eexists. rewrite R. split; [reflexivity|]. rewrite L. cbn. apply length_replicate.
  - rewrite upload_texture.
    destruct (Draw_shape (NewRGBA (Bounds img)) (Bounds (NewRGBA (Bounds img))) img (Pt 0 0))
      as (R & _ & L).
    eexists. rewrite R. split; [reflexivity|]. rewrite L. cbn. apply length_replicate.
Qed.

Lemma makeTexture_ignores_stride_witness :
  exists t w1 w3,
    Hello.makeTexture Sample.driver (Sample.platform Sample.padded []) "hello1.png"
      Sample.start = GL.Ok t w1
    /\ Spec.packed Sample.padded GL.RGBA (GL.textures (GL.ctx w1) !! t)
    /\ Testing3.makeTexture Sample.driver (Sample.platform Sample.padded []) "hello1.png"
         Sample.start = GL.Ok t w3
    /\ Spec.packed Sample.padded GL.RGB8 (GL.textures (GL.ctx w3) !! t).
Proof.
  apply (makeTexture_ignores_stride Sample.driver (Sample.platform Sample.padded [])
           "hello1.png" Sample.padded Sample.start).
  reflexivity.
Defined.

(** C4, as the specification states it, fails: the picture of 3 rows of 4
    pixels with stride 20 (not 16) is loaded, and no error is raised. *)
Lemma padded_picture_loads :
  Stride Sample.padded = 20
  /\ Dx (Rect Sample.padded) * 4 = 16
  /\ Dy (Rect Sample.padded) = 3
  /\ exists w,
       Hello.makeTexture Sample.driver (Sample.platform Sample.padded []) "hello1.png"
         Sample.start = GL.Ok 1 w.
Proof.
  repeat split. eexists. vm_compute. reflexivity.
Qed.

(** [hello.go]: the texture that [makeTexture] creates holds the picture
    upside down: row [H-1-h] of the texture has the bytes of row [h] of the
    picture. *)
Lemma Hello_makeTexture_flips d p filename img w (W H h x c v : Z) :
  Glfw.files p filename = inr img ->
  Rect img = at_origin W H ->
  0 <= h < H -> 0 <= x < W -> 0 <= c < 4 ->
  byte_at img x h c = Some v ->
  exists t w' tx,
    Hello.makeTexture d p filename w = GL.Ok t w'
    /\ GL.textures (GL.ctx w') !! t = Some tx
    /\ GL.tx_pixels tx !! Z.to_nat ((H - 1 - h) * (4 * W) + x * 4 + c) = Some v.
Proof.
  intros F R Hh Hx Hc Hv. eexists _, _, _.
  rewrite (Hello_makeTexture_run d p filename img w F).
  split; [reflexivity|]. split; [apply upload_texture|]. cbn [GL.tx_pixels].
  pose proof (flip_rows_flips img W H h x c v R Hh Hx Hc Hv) as P.
  unfold byte_at, PixOffset in P.
  destruct (flip_rows_shape (NewRGBA (Bounds img)) img) as [R' _].
  assert (S' : Stride (Hello.flip_rows (NewRGBA (Bounds img)) img) = 4 * W).
  { assert (HW : 0 < W) by lia.
    assert (Hs : Forall (fun h => 0 <= h < H) (seqZ 0 H)).
    { apply Forall_forall. intros k Hk. apply elem_of_seqZ in Hk. lia. }
    assert (EF : Hello.flip_rows (NewRGBA (Bounds img)) img
                 = fold_left (flip_row W H img) (seqZ 0 H) (NewRGBA (Bounds img))).
    { unfold Hello.flip_rows, Bounds. rewrite R. reflexivity. }
    rewrite EF.
    apply (flip_fold W H img (seqZ 0 H) (NewRGBA (Bounds img)) O HW Hs).
    - unfold Bounds. now rewrite R.
    - unfold Bounds. rewrite R. cbn. unfold Dx. cbn. lia.
    - exact R. }
  rewrite R', S' in P. unfold Bounds in P. cbn [Rect NewRGBA] in P. rewrite R in P.
  cbn [Min X Y at_origin] in P.
  replace (Z.to_nat ((H - 1 - h) * (4 * W) + x * 4 + c))
    with (Z.to_nat ((H - 1 - h - 0) * (4 * W) + (x - 0) * 4 + c)) by (f_equal; lia).
  unfold Bounds. rewrite R. exact P.
Qed.

(** C3, the two-row scenario on [hello.go]: the texture starts with the
    second row of the picture. *)
Lemma Hello_two_rows :
  exists w,
    Hello.makeTexture Sample.driver (Sample.platform Sample.two_rows []) "hello1.png"
      Sample.start = GL.Ok 1 w
    /\ GL.tx_pixels <$> GL.textures (GL.ctx w) !! 1
       = Some [11; 12; 13; 14; 15; 16; 17; 18; 1; 2; 3; 4; 5; 6; 7; 8].
Proof. eexists. split; vm_compute; reflexivity. Qed.

(** C3 on the [makeTexture] of "Testing 3+": the same two-row picture is
    copied in file order, the texture starts with the first row.  The one
    [draw.Draw] call of this function is the statement that [hello.go] keeps
    as a comment under the words "upside down". *)
Theorem makeTexture3_keeps_row_order :
  exists w,
    Testing3.makeTexture Sample.driver (Sample.platform Sample.two_rows []) "hello1.png"
      Sample.start = GL.Ok 1 w
    /\ GL.tx_pixels <$> GL.textures (GL.ctx w) !! 1
       = Some [1; 2; 3; 4; 5; 6; 7; 8; 11; 12; 13; 14; 15; 16; 17; 18].
Proof. eexists. split; vm_compute; reflexivity. Qed.

End TextureLoader.

(** ** The frame renderer: attribute pairing *)
Module FrameRenderer.
Import Props.
Local Open Scope Z_scope.

Lemma enabled_of_step d c s :
  GL.enabled (GL.vertex_arrays (GL.step d c s))
  = enabled_step d (GL.enabled (GL.vertex_arrays s)) c.
Proof.
  destruct c; try reflexivity; cbn.
  - destruct target; reflexivity.
  - unfold GL.buffer_data. destruct (_ =? 0); reflexivity.
  - unfold GL.attrib_pointer. destruct (GL.valid_index d index); reflexivity.
  - unfold GL.enable_attrib. destruct (GL.valid_index d index); reflexivity.
  - unfold GL.disable_attrib. destruct (GL.valid_index d index); reflexivity.
Qed.

Lemma enabled_after_fold d cs w :
  Props.enabled_after d cs w
  = fold_left (enabled_step d) cs (GL.enabled (GL.vertex_arrays (GL.ctx w))).
Proof.
  unfold Props.enabled_after, GL.run_calls. cbn [GL.ctx].
  generalize (GL.ctx w). induction cs as [|c cs IH]; intros s; cbn [fold_left].
  - reflexivity.
  - rewrite IH. now rewrite enabled_of_step.
Qed.

Ltac restores_tac :=
  unfold restores; intros w; rewrite enabled_after_fold;
  cbn [fold_left enabled_step app Hello.render_setup Hello.render_pass
       Testing3.render_setup Testing3.render_pass1 Testing3.render_pass2
       Testing3.render_pass3];
  repeat match goal with |- context [GL.valid_index ?d ?i] =>
                           destruct (GL.valid_index d i) end;
  set_solver.

(** X17: in both [render] functions the attribute arrays are enabled and
    disabled in pairs per program, not per draw.  Within the calls between
    one [UseProgram] and the next (or the end of the frame) there are as many
    enables as disables, and the group leaves no attribute array enabled that
    was not enabled before it.  In [hello.go] the frame is one draw, paired
    on its own; so is the first draw of "Testing 3+".  Its second and third
    draw share program 2: the second enables two arrays and disables none,
    the third enables none and disables two. *)
Theorem render_pairing_per_program d Sin Cos (width height : Z) (seconds : Float.float)
    (r : Hello.gResources) (r3 : Testing3.gResources) :
  let f := Hello.render width height r in
  let f3 := Testing3.render Sin Cos width height seconds r3 in
  Forall Props.paired (Props.program_groups f)
  /\ Forall (restores d) (Props.program_groups f)
  /\ Forall Props.paired (Props.program_groups f3)
  /\ Forall (restores d) (Props.program_groups f3)
  /\ Props.passes f = [f] /\ Props.paired f
  /\ exists xm ym sn cs,
       Props.passes f3
       = [Testing3.render_setup width height ++ Testing3.render_pass1 r3;
          Testing3.render_pass2 r3 xm ym sn cs;
          Testing3.render_pass3 r3]
       /\ Props.paired (Testing3.render_setup width height ++ Testing3.render_pass1 r3)
       /\ Props.count Props.is_enable (Testing3.render_pass2 r3 xm ym sn cs) = 2%nat
       /\ Props.count Props.is_disable (Testing3.render_pass2 r3 xm ym sn cs) = 0%nat
       /\ Props.count Props.is_enable (Testing3.render_pass3 r3) = 0%nat
       /\ Props.count Props.is_disable (Testing3.render_pass3 r3) = 2%nat.
Proof.
  cbv zeta. unfold Testing3.render.
  destruct (Testing3.scale _ _) as [xm ym].
  set (sn := Float.convert Float.binary32 (Sin seconds)).
  set (cs := Float.convert Float.binary32 (Cos seconds)).
  assert (G : Props.program_groups (Hello.render width height r)
              = [Hello.render_setup width height; Hello.render_pass r]) by reflexivity.
  assert (G3 : Props.program_groups
                 (Testing3.render_setup width height ++ Testing3.render_pass1 r3
                  ++ Testing3.render_pass2 r3 xm ym sn cs ++ Testing3.render_pass3 r3)
               = [Testing3.render_setup width height; Testing3.render_pass1 r3;
                  Testing3.render_pass2 r3 xm ym sn cs ++ Testing3.render_pass3 r3])
    by reflexivity.
  rewrite G, G3.
  split; [repeat apply List.Forall_cons; try apply List.Forall_nil; reflexivity|].
  split; [repeat apply List.Forall_cons; try apply List.Forall_nil; restores_tac|].
  split; [repeat apply List.Forall_cons; try apply List.Forall_nil; reflexivity|].
  split; [repeat apply List.Forall_cons; try apply List.Forall_nil; restores_tac|].
  split; [reflexivity|]. split; [reflexivity|].
  exists xm, ym, sn, cs. repeat split.
Qed.

(** The draws of "Testing 3+" are not paired one by one: the second draw of
    a frame comes with two enables and no disable, and when the calls of the
    third begin the arrays 0 and 1 that the second enabled are still on. *)
Lemma render3_passes_not_paired :
  let r := Sample3.resources3 in
  let f := Testing3.render Sample.Sin Sample.Cos 640 480 (Float.Fin 0) r in
  ~ Props.pairing_per_pass f
  /\ (exists p1 p2 p3,
        Props.passes f = [p1; p2; p3]
        /\ Props.count Props.is_enable p2 = 2%nat /\ Props.count Props.is_disable p2 = 0%nat
        /\ Props.enabled_after Sample.driver (p1 ++ p2) Sample.start = {[0; 1]}).
Proof.
  cbv zeta. split.
  - unfold Props.pairing_per_pass. intros H.
    assert (P : exists p1 p2 p3,
               Props.passes (Testing3.render Sample.Sin Sample.Cos 640 480 (Float.Fin 0)
                              Sample3.resources3) = [p1; p2; p3]
               /\ Props.count Props.is_enable p2 <> Props.count Props.is_disable p2).
    { eexists _, _, _. split; [vm_compute; reflexivity | vm_compute; discriminate]. }
    destruct P as (p1 & p2 & p3 & E & N). rewrite E in H.
    inversion H as [|? ? _ H2]. inversion H2 as [|? ? H3 _]. exact (N H3).
  - eexists _, _, _. split; [vm_compute; reflexivity|].
    split; [reflexivity|]. split; [reflexivity|].
    rewrite enabled_after_fold. vm_compute. reflexivity.
Qed.

End FrameRenderer.

(** ** What a computation can issue *)
Module Runs.
Import GLFacts Props.
Local Open Scope Z_scope.

Section WithDriver.
Variable d : GL.driver.
Local Notation emits_only := (Props.emits_only d).

Lemma eo_ret {A} P (a : A) : emits_only P (GL.ret a).
Proof. intros w. exists []. now rewrite run_calls_nil. Qed.

Lemma eo_get P : emits_only P GL.get.
Proof. intros w. exists []. now rewrite run_calls_nil. Qed.

Lemma eo_Fatalln {A} P msg : emits_only P (@GL.Fatalln A msg).
Proof. intros w. exists []. now rewrite run_calls_nil. Qed.

Lemma eo_panic {A} P msg : emits_only P (@GL.panic A msg).
Proof. intros w. exists []. now rewrite run_calls_nil. Qed.

Lemma eo_of_loop {A} P (o : option A) : emits_only P (GL.of_loop o).
Proof. destruct o; [apply eo_ret | intros w; exact I]. Qed.

Lemma eo_emit P c : P c = true -> emits_only P (GL.emit d c).
Proof. intros H w. exists [c]. cbn. now rewrite H. Qed.

Lemma eo_emits P cs : forallb P cs = true -> emits_only P (GL.emits d cs).
Proof. intros H w. rewrite emits_run. now exists cs. Qed.

Lemma eo_bind {A B} P (m : GL.M A) (k : A -> GL.M B) :
  emits_only P m -> (forall a, emits_only P (k a)) -> emits_only P (GL.bind m k).
Proof.
  intros Hm Hk w. specialize (Hm w). unfold GL.bind.
  destruct (m w) as [a w1|msg w1|msg w1|]; cbn [GL.final] in *; try exact Hm.
  destruct Hm as (cs1 & -> & F1). specialize (Hk a (GL.run_calls d cs1 w)).
  destruct (GL.final (k a (GL.run_calls d cs1 w))) as [w2|]; [|exact I].
  destruct Hk as (cs2 & -> & F2). exists (cs1 ++ cs2).
  rewrite run_calls_app, forallb_app, F1, F2. auto.
Qed.

Lemma eo_x P err : emits_only P (Shared.x err).
Proof. destruct err; [apply eo_Fatalln | apply eo_ret]. Qed.

Lemma eo_weaken {A} (P Q : GL.call -> bool) (m : GL.M A) :
  (forall c, P c = true -> Q c = true) -> emits_only P m -> emits_only Q m.
Proof.
  intros H Hm w. specialize (Hm w). destruct (GL.final (m w)); [|exact I].
  destruct Hm as (cs & -> & F). exists cs. split; [reflexivity|].
  rewrite forallb_forall in *. auto.
Qed.

End WithDriver.

(** Proves [emits_only] for a computation that is built from the calls of
    the library, whenever the class accepts each of them. *)
Ltac eo :=
  repeat
    match goal with
    | |- emits_only _ _ (GL.ret _) => apply eo_ret
    | |- emits_only _ _ GL.get => apply eo_get
    | |- emits_only _ _ (GL.Fatalln _) => apply eo_Fatalln
    | |- emits_only _ _ (GL.panic _) => apply eo_panic
    | |- emits_only _ _ (GL.of_loop _) => apply eo_of_loop
    | |- emits_only _ _ (Shared.x _) => apply eo_x
    | |- emits_only _ _ (GL.emit _ _) => apply eo_emit; reflexivity
    | |- emits_only _ _ (GL.emits _ _) => apply eo_emits; reflexivity
    | |- emits_only _ _ (GL.bind _ _) => apply eo_bind; [|intros ?]
    | |- emits_only _ _ (if ?b then _ else _) => destruct b
    end.

(** *** The blocks of resource construction *)
Section Blocks.
Variable d : GL.driver.
Local Notation reports := (Props.reports d).
Local Notation setup := (Props.setup d).
Local Notation one_program := (Props.one_program d).

Lemma makeBuffer_run target data size w :
  Shared.makeBuffer d target data size w
  = GL.Ok (GL.last_buffer (GL.ctx w) + 1)
      (GL.run_calls d
         (Calls.buffer_calls (GL.last_buffer (GL.ctx w) + 1) target data size) w).
Proof.
  cbv [Shared.makeBuffer GL.bind GL.ret GL.glGenBuffers GL.get GL.emit GL.run_calls
       Calls.buffer_calls fold_left].
  cbn [GL.ctx GL.trace]. rewrite <- !app_assoc. reflexivity.
Qed.

Lemma compiled_shader ty src n s :
  GL.shaders
    (GL.step d (GL.CompileShader n)
       (GL.step d (GL.ShaderSource n src) (GL.step d (GL.CreateShader ty n) s))) !! n
  = Some (GL.Shader ty src (fst (GL.compile d ty src)) (snd (GL.compile d ty src))).
Proof.
  cbn [GL.step GL.set_shaders GL.shaders].
  rewrite !lookup_alter_eq, lookup_insert_eq. reflexivity.
Qed.

(** [makeShader], both ways: the shader compiles and its name is returned,
    or it does not and the process is killed with a line that holds the
    source and the log. *)
Lemma makeShader_run ty source w :
  let n := GL.last_object (GL.ctx w) + 1 in
  let r := GL.compile d ty (GL.Str source) in
  Shared.makeShader d ty source w
  = if fst r
    then GL.Ok n (GL.run_calls d (Calls.compiled n ty source) w)
    else GL.Fatal (Shared.compile_error source (Calls.info_buffer (snd r)))
           (GL.run_calls d (Calls.failed_compile d n ty source) w).
Proof.
  cbv zeta.
  cbv [Shared.makeShader GL.bind GL.ret GL.glCreateShader GL.get GL.emit GL.run_calls
       GL.glGetShaderiv GL.glGetShaderInfoLog Shared.x GL.Fatalln
       Calls.compiled Calls.failed_compile fold_left].
  cbn [GL.ctx GL.trace]. unfold GL.shader_param.
  pose proof (compiled_shader ty (GL.Str source) (GL.last_object (GL.ctx w) + 1) (GL.ctx w))
    as X.
  rewrite X. cbn [GL.sh_status GL.sh_log].
  destruct (fst (GL.compile d ty (GL.Str source))).
  - cbn. rewrite <- !app_assoc. reflexivity.
  - cbn [Z.eqb GL.FALSE GL.ctx GL.trace].
    repeat match goal with
           | |- context [GL.step d (GL.GetShaderiv ?n ?p ?v) ?s] =>
               change (GL.step d (GL.GetShaderiv n p v) s) with s
           | |- context [GL.step d (GL.GetShaderInfoLog ?n ?p ?v) ?s] =>
               change (GL.step d (GL.GetShaderInfoLog n p v) s) with s
           end.
    rewrite !X. cbn [GL.sh_log]. rewrite <- !app_assoc. reflexivity.
Qed.


(** *** Runs that may die of a failed compile *)

Lemma forallb_negb_existsb (f : GL.call -> bool) cs :
  forallb (fun c => negb (f c)) cs = true <-> existsb f cs = false.
Proof.
  induction cs as [|c cs IH]; cbn; [tauto|].
  rewrite andb_true_iff, orb_false_iff, negb_true_iff. tauto.
Qed.

Lemma count_zero (f : GL.call -> bool) cs :
  Props.count f cs = 0%nat <-> existsb f cs = false.
Proof.
  unfold Props.count. induction cs as [|c cs IH]; cbn; [tauto|].
  destruct (f c); cbn; [split; discriminate | exact IH].
Qed.

Lemma count_app (f : GL.call -> bool) cs1 cs2 :
  Props.count f (cs1 ++ cs2) = (Props.count f cs1 + Props.count f cs2)%nat.
Proof. unfold Props.count. now rewrite List.filter_app, length_app. Qed.

Lemma reports_quiet {A} K (m : GL.M A) : emits_only d quiet_call m -> reports K m.
Proof.
  intros H w. specialize (H w).
  destruct (m w) as [a w'|msg w'|msg w'|]; cbn [GL.final] in H; [| | |exact I];
    destruct H as (cs & -> & F); exists cs; (split; [reflexivity|]);
    apply forallb_negb_existsb in F; auto.
Qed.

Lemma setup_quiet {A} (m : GL.M A) : emits_only d setup_call m -> setup m.
Proof.
  intros H. split.
  - apply reports_quiet. revert H. apply eo_weaken. intros c.
    unfold setup_call, quiet_call. rewrite !andb_true_iff. tauto.
  - intros w. specialize (H w). destruct (GL.final (m w)); [|exact I].
    destruct H as (cs & -> & F). exists cs. split; [reflexivity|].
    rewrite count_zero, <- !forallb_negb_existsb.
    rewrite forallb_forall in F. rewrite !forallb_forall.
    split; intros c Hc; specialize (F c Hc); unfold setup_call in F;
      rewrite !andb_true_iff in F; tauto.
Qed.

Lemma compile_report_weaken K K' msg cs :
  (K <= K')%nat -> Props.compile_report d K msg cs -> Props.compile_report d K' msg cs.
Proof.
  intros L (pre & n & ty & src & E & C & M & P & R & N).
  exists pre, n, ty, src. repeat split; try assumption. lia.
Qed.

(** A failed compile after calls that were harmless. *)
Lemma compile_report_after K msg cs1 cs2 k :
  existsb Props.is_failed_compile cs1 = false ->
  existsb Props.is_render_call cs1 = false ->
  (Props.count Props.is_create_program cs1 <= k)%nat ->
  Props.compile_report d K msg cs2 -> Props.compile_report d (k + K) msg (cs1 ++ cs2).
Proof.
  intros F1 R1 N1 (pre & n & ty & src & E & C & M & P & R & N).
  exists (cs1 ++ pre), n, ty, src. subst cs2. rewrite <- app_assoc.
  repeat split; try assumption.
  - rewrite existsb_app, F1, P. reflexivity.
  - rewrite existsb_app, R1, R. reflexivity.
  - rewrite count_app. lia.
Qed.

Lemma reports_bind_setup {A B} K (m : GL.M A) (k : A -> GL.M B) :
  setup m -> (forall a, reports K (k a)) -> reports K (GL.bind m k).
Proof.
  intros [Hr Hs] Hk w. specialize (Hr w). specialize (Hs w). unfold GL.bind.
  destruct (m w) as [a w1|msg w1|msg w1|]; cbn [GL.final] in *.
  - destruct Hs as (cs1 & -> & R1 & N1). destruct Hr as (cs1' & E' & F1).
    assert (cs1' = cs1).
    { apply (f_equal GL.trace) in E'. rewrite !trace_run_calls in E'.
      now apply app_inv_head in E'. }
    subst cs1'. clear E'.
    specialize (Hk a (GL.run_calls d cs1 w)).
    destruct (k a (GL.run_calls d cs1 w)) as [b w2|msg w2|msg w2|]; [| | |exact I].
    + destruct Hk as (cs2 & -> & F2). exists (cs1 ++ cs2).
      rewrite run_calls_app, existsb_app, F1, F2. auto.
    + destruct Hk as (cs2 & -> & F2). exists (cs1 ++ cs2).
      rewrite run_calls_app. split; [reflexivity|]. destruct F2 as [F2|F2].
      * left. rewrite existsb_app, F1, F2. reflexivity.
      * right. apply (compile_report_after K msg cs1 cs2 0 F1 R1) in F2; [exact F2 | lia].
    + destruct Hk as (cs2 & -> & F2). exists (cs1 ++ cs2).
      rewrite run_calls_app, existsb_app, F1, F2. auto.
  - destruct Hr as (cs & -> & F). exists cs. split; [reflexivity|].
    destruct F as [F|F]; [left; exact F | right].
    apply (compile_report_weaken 0); [lia | exact F].
  - exact Hr.
  - exact I.
Qed.

Lemma reports_bind_program {A B} K (m : GL.M A) (k : A -> GL.M B) :
  one_program m -> (forall a, reports K (k a)) -> reports (S K) (GL.bind m k).
Proof.
  intros Hm Hk w. specialize (Hm w). unfold GL.bind.
  destruct (m w) as [a w1|msg w1|msg w1|]; cbn [GL.final] in *.
  - destruct Hm as (cs1 & -> & F1 & R1 & N1).
    specialize (Hk a (GL.run_calls d cs1 w)).
    destruct (k a (GL.run_calls d cs1 w)) as [b w2|msg w2|msg w2|]; [| | |exact I].
    + destruct Hk as (cs2 & -> & F2). exists (cs1 ++ cs2).
      rewrite run_calls_app, existsb_app, F1, F2. auto.
    + destruct Hk as (cs2 & -> & F2). exists (cs1 ++ cs2).
      rewrite run_calls_app. split; [reflexivity|]. destruct F2 as [F2|F2].
      * left. rewrite existsb_app, F1, F2. reflexivity.
      * right. exact (compile_report_after K msg cs1 cs2 1 F1 R1 N1 F2).
    + destruct Hk as (cs2 & -> & F2). exists (cs1 ++ cs2).
      rewrite run_calls_app, existsb_app, F1, F2. auto.
  - destruct Hm as (cs & -> & F & _). exists cs. auto.
  - destruct Hm as (cs & -> & F & _). exists cs. auto.
  - exact I.
Qed.

Lemma reports_then_quiet {A B} K (m : GL.M A) (k : A -> GL.M B) :
  reports K m -> (forall a, emits_only d quiet_call (k a)) -> reports K (GL.bind m k).
Proof.
  intros Hm Hk w. specialize (Hm w). unfold GL.bind.
  destruct (m w) as [a w1|msg w1|msg w1|]; [| exact Hm | exact Hm | exact I].
  destruct Hm as (cs1 & -> & F1).
  specialize (Hk a (GL.run_calls d cs1 w)).
  destruct (k a (GL.run_calls d cs1 w)) as [b w2|msg w2|msg w2|]; cbn [GL.final] in Hk;
    [| | |exact I]; destruct Hk as (cs2 & -> & F2);
    apply forallb_negb_existsb in F2; exists (cs1 ++ cs2);
    rewrite run_calls_app, existsb_app, F1, F2; auto.
Qed.


Lemma setup_makeBuffer target data size : setup (Shared.makeBuffer d target data size).
Proof. apply setup_quiet. unfold Shared.makeBuffer, GL.glGenBuffers. eo. Qed.

Lemma setup_makeShader ty source : setup (Shared.makeShader d ty source).
Proof.
  split; intros w; rewrite makeShader_run; cbv zeta;
    destruct (fst (GL.compile d ty (GL.Str source))) eqn:C; cbn [GL.final].
  - eexists. split; reflexivity.
  - eexists. split; [reflexivity|]. right.
    exists [], (GL.last_object (GL.ctx w) + 1), ty, source. repeat split; auto.
  - eexists. repeat split.
  - eexists. repeat split.
Qed.

Lemma one_program_makeProgram vs fs : one_program (Shared.makeProgram d vs fs).
Proof.
  intros w. unfold Shared.makeProgram, GL.glCreateProgram.
  unfold GL.bind at 1. unfold GL.bind at 1. cbn [GL.get].
  unfold GL.bind at 1. rewrite emit_run. unfold GL.ret at 1.
  set (n := GL.last_object (GL.ctx w) + 1).
  set (k := GL.bind _ _).
  assert (Hk : emits_only d link_call k).
  { unfold k, GL.glGetProgramiv, GL.glGetProgramInfoLog. eo. }
  specialize (Hk (GL.run_calls d [GL.CreateProgram n] w)).
  destruct (GL.final (k (GL.run_calls d [GL.CreateProgram n] w))); [|exact I].
  destruct Hk as (cs & -> & F). exists (GL.CreateProgram n :: cs).
  rewrite <- run_calls_cons. split; [reflexivity|].
  assert (F' : forall c, List.In c cs -> link_call c = true) by (now apply forallb_forall).
  cbn [existsb Props.is_failed_compile Props.is_render_call orb].
  unfold Props.count. cbn [List.filter Props.is_create_program length].
  fold (Props.count Props.is_create_program cs).
  assert (Z0 : Props.count Props.is_create_program cs = 0%nat).
  { apply count_zero, forallb_negb_existsb, forallb_forall. intros c Hc.
    specialize (F' c Hc). unfold link_call in F'. rewrite !andb_true_iff in F'. tauto. }
  rewrite Z0. repeat split; [| |lia].
  - apply forallb_negb_existsb, forallb_forall. intros c Hc.
    specialize (F' c Hc). unfold link_call in F'. rewrite !andb_true_iff in F'. tauto.
  - apply forallb_negb_existsb, forallb_forall. intros c Hc.
    specialize (F' c Hc). unfold link_call in F'. rewrite !andb_true_iff in F'. tauto.
Qed.

End Blocks.


(** *** The two programs that build shaders *)
Section Programs.
Variable d : GL.driver.
Variables Sin Cos : Float.float -> Float.float.
Variable p : Glfw.platform.

Lemma setup_Hello_makeTexture filename : setup d (Hello.makeTexture d p filename).
Proof.
  apply setup_quiet. unfold Hello.makeTexture, GL.glGenTextures.
  destruct (Glfw.files p filename); eo.
Qed.

Lemma Hello_makeResources_reports : reports d 0 (Hello.makeResources d p).
Proof.
  unfold Hello.makeResources.
  apply reports_bind_setup; [apply setup_makeBuffer | intros vb].
  apply reports_bind_setup; [apply setup_makeBuffer | intros eb].
  apply reports_bind_setup; [apply setup_Hello_makeTexture | intros t0].
  apply reports_bind_setup; [apply setup_Hello_makeTexture | intros t1].
  apply reports_bind_setup; [apply setup_makeShader | intros vs].
  apply reports_bind_setup; [apply setup_makeShader | intros fs].
  apply reports_quiet.
  unfold Shared.makeProgram, GL.glCreateProgram, GL.glGetProgramiv, GL.glGetProgramInfoLog,
    GL.glGetUniformLocation, GL.glGetAttribLocation.
  eo.
Qed.

Lemma Hello_loop_quiet fs : forall w r, emits_only d quiet_call (Hello.loop d Sin fs w r).
Proof.
  induction fs as [|f fs IH]; intros w r; cbn [Hello.loop];
    destruct (Glfw.ShouldClose w); try apply eo_ret.
  apply eo_bind; [apply eo_emits; reflexivity | intros _].
  apply eo_bind; [apply eo_emit; reflexivity | intros _].
  apply IH.
Qed.

Lemma Hello_main_reports : reports d 0 (Hello.main d Sin p).
Proof.
  unfold Hello.main.
  destruct (Glfw.glfw_Init p); [apply reports_quiet; eo|].
  destruct (Glfw.CreateWindow p); [apply reports_quiet; eo|].
  destruct (Glfw.gl_Init p); [apply reports_quiet; eo|].
  apply reports_then_quiet; [apply Hello_makeResources_reports | intros r].
  eo. apply Hello_loop_quiet.
Qed.

Lemma Testing3_makeResources_reports : reports d 1 (Testing3.makeResources d Sin Cos).
Proof.
  unfold Testing3.makeResources.
  do 5 (apply reports_bind_setup; [apply setup_makeBuffer | intros ?]).
  do 2 (apply reports_bind_setup; [apply setup_makeShader | intros ?]).
  apply reports_bind_program; [apply one_program_makeProgram | intros ?].
  do 2 (apply reports_bind_setup; [apply setup_makeShader | intros ?]).
  apply reports_quiet.
  unfold Shared.makeProgram, Shared.makeBuffer, GL.glCreateProgram, GL.glGetProgramiv,
    GL.glGetProgramInfoLog, GL.glGetUniformLocation, GL.glGetAttribLocation, GL.glGenBuffers.
  eo.
Qed.

Lemma Testing3_render_quiet width height seconds r :
  forallb quiet_call (Testing3.render Sin Cos width height seconds r) = true.
Proof. unfold Testing3.render. destruct (Testing3.scale _ _). reflexivity. Qed.

Lemma Testing3_loop_quiet fs :
  forall w r, emits_only d quiet_call (Testing3.loop d Sin Cos fs w r).
Proof.
  induction fs as [|f fs IH]; intros w r; cbn [Testing3.loop];
    destruct (Glfw.ShouldClose w); try apply eo_ret.
  apply eo_bind; [apply eo_emits, Testing3_render_quiet | intros _].
  apply eo_bind; [apply eo_emit; reflexivity | intros _].
  apply IH.
Qed.

Lemma Testing3_main_reports : reports d 1 (Testing3.main d Sin Cos p).
Proof.
  unfold Testing3.main.
  destruct (Glfw.glfw_Init p); [apply reports_quiet; eo|].
  destruct (Glfw.CreateWindow p); [apply reports_quiet; eo|].
  destruct (Glfw.gl_Init p); [apply reports_quiet; eo|].
  apply reports_then_quiet; [apply Testing3_makeResources_reports | intros r].
  eo. apply Testing3_loop_quiet.
Qed.

(** From the start of the process, [reports] is the property of the
    specification. *)
Lemma reports_from_start K (m : GL.M unit) :
  reports d K m -> Props.compile_failure_reported d K (m Sample.start).
Proof.
  intros H w F T. specialize (H Sample.start).
  destruct (m Sample.start) as [a w'|msg w'|msg w'|]; cbn [GL.final] in F; try discriminate;
    injection F as ->.
  - destruct H as (cs & -> & N). cbn in T. congruence.
  - destruct H as (cs & -> & [N|R]); [cbn in T; congruence|].
    exists msg. split; [reflexivity | exact R].
  - destruct H as (cs & -> & N). cbn in T. congruence.
Qed.

(** X13: if a shader fails to compile, in [hello.go] or in "Testing 3+",
    the process is killed by [log.Fatalln] with a line that holds the shader
    source and the diagnostic log.  The calls of the failed [makeShader] are
    the last calls the process makes: no program is created or linked from
    that shader ([hello.go] creates no program at all, "Testing 3+" at most
    the one of its first shader pair), [makeResources] returns nothing,
    and no frame is rendered. *)
Theorem compile_failure_is_fatal :
  Props.compile_failure_reported d 0 (Hello.main d Sin p Sample.start)
  /\ Props.compile_failure_reported d 1 (Testing3.main d Sin Cos p Sample.start).
Proof.
  split; apply reports_from_start; [apply Hello_main_reports | apply Testing3_main_reports].
Qed.

End Programs.


Lemma compile_failure_is_fatal_witness :
  exists w msg,
    Hello.main Sample.strict_driver Sample.Sin
      (Sample.platform Sample.two_rows Sample.frames) Sample.start = GL.Fatal msg w
    /\ Props.compile_report Sample.strict_driver 0 msg (GL.trace w).
Proof.
  assert (E : exists msg w,
             Hello.main Sample.strict_driver Sample.Sin
               (Sample.platform Sample.two_rows Sample.frames) Sample.start
             = GL.Fatal msg w
             /\ existsb Props.is_failed_compile (GL.trace w) = true).
  { eexists _, _. split; vm_compute; reflexivity. }
  destruct E as (msg & w & E & T).
  destruct (proj1 (compile_failure_is_fatal Sample.strict_driver Sample.Sin Sample.Cos
                     (Sample.platform Sample.two_rows Sample.frames)) w)
    as (msg' & E' & R).
  - rewrite E. reflexivity.
  - exact T.
  - exists w, msg'. split; [exact E' | exact R].
Defined.

(** *** The line that is logged *)





End Runs.

(** ** Indexed draws read inside the buffers *)
Module Draws.
Import GLFacts Props Runs Arrays.
Local Open Scope Z_scope.

Lemma arrays_of_step d c s :
  GL.vertex_arrays (GL.step d c s) = arrays_step d (GL.vertex_arrays s) c.
Proof.
  destruct c; reflexivity.
Qed.

Lemma last_buffer_of_step d c s :
  GL.last_buffer (GL.step d c s) = buffer_counter (GL.last_buffer s) c.
Proof.
  destruct c; reflexivity.
Qed.

Lemma draws_of_step d c s :
  GL.draws (GL.step d c s)
  = GL.draws s ++ match c with
                  | GL.DrawElements m n _ off => [GL.Draw m n off (GL.vertex_arrays s)]
                  | _ => []
                  end.
Proof.
  destruct c; cbn; rewrite ?app_nil_r; reflexivity.
Qed.

Lemma arrays_run d cs w :
  GL.vertex_arrays (GL.ctx (GL.run_calls d cs w))
  = fold_left (arrays_step d) cs (GL.vertex_arrays (GL.ctx w)).
Proof.
  unfold GL.run_calls. cbn [GL.ctx]. generalize (GL.ctx w).
  induction cs as [|c cs IH]; intros s; cbn [fold_left]; [reflexivity|].
  now rewrite IH, arrays_of_step.
Qed.

Lemma last_buffer_run d cs w :
  GL.last_buffer (GL.ctx (GL.run_calls d cs w))
  = fold_left buffer_counter cs (GL.last_buffer (GL.ctx w)).
Proof.
  unfold GL.run_calls. cbn [GL.ctx]. generalize (GL.ctx w).
  induction cs as [|c cs IH]; intros s; cbn [fold_left]; [reflexivity|].
  now rewrite IH, last_buffer_of_step.
Qed.

Lemma draws_run d cs w :
  GL.draws (GL.ctx (GL.run_calls d cs w))
  = GL.draws (GL.ctx w) ++ draws_of d cs (GL.vertex_arrays (GL.ctx w)).
Proof.
  unfold GL.run_calls. cbn [GL.ctx]. generalize (GL.ctx w).
  induction cs as [|c cs IH]; intros s; cbn [fold_left draws_of].
  - now rewrite app_nil_r.
  - rewrite IH, draws_of_step, arrays_of_step, <- app_assoc. reflexivity.
Qed.



(** *** Computations that end *)

















(** *** Blocks that leave the arrays alone *)








(** *** Resource construction, step by step *)

Lemma take_all (data : GL.bufdata) :
  GL.buf_take (Z.to_nat (4 * GL.buf_len data / 4)) data = data.
Proof.
  rewrite Z.mul_comm, Z.div_mul by lia.
  destruct data as [l|l]; cbn [GL.buf_take GL.buf_len]; rewrite Nat2Z.id;
    now rewrite firstn_all.
Qed.











(** *** The circle loop *)

Lemma circle_steps_length :
  option_map (@length Float.float) Shared.circle_steps = Some 126%nat.
Proof. vm_compute. reflexivity. Qed.

Lemma circle_steps_some :
  exists steps, Shared.circle_steps = Some steps /\ length steps = 126%nat.
Proof.
  pose proof circle_steps_length as H.
  destruct Shared.circle_steps as [steps|]; [|discriminate H].
  exists steps. split; [reflexivity|]. now injection H.
Qed.

Lemma circle_step_ok Sin Cos c i :
  circle_ok c -> 0 <= Testing3.count3 c < 2 ^ 31 - 1 ->
  circle_ok (Testing3.circle_step Sin Cos c i)
  /\ Testing3.count3 (Testing3.circle_step Sin Cos c i) = Testing3.count3 c + 1.
Proof.
  intros (L & LV & LC & B) R. unfold Testing3.circle_step.
  destruct (Shared.hsb2rgb _ _ _) as [[rd g] b].
  assert (I : int32 (Testing3.count3 c + 1) = Testing3.count3 c + 1).
  { unfold int32. rewrite Z.mod_small; lia. }
  assert (U : uint32 (Testing3.count3 c) = Testing3.count3 c).
  { unfold uint32. rewrite Z.mod_small; lia. }
  unfold circle_ok.
  cbn [Testing3.gColorBufferData3 Testing3.gVertexBufferData3
       Testing3.gElementBufferData3 Testing3.count3].
  rewrite I, U, !length_app. cbn [length]. repeat split; try lia.
  apply Forall_app. split.
  - eapply Forall_impl; [exact B|]. cbn. intros; lia.
  - repeat constructor; lia.
Qed.

Lemma circle_fold_ok Sin Cos steps :
  forall c, circle_ok c -> 0 <= Testing3.count3 c ->
    Testing3.count3 c + Z.of_nat (length steps) < 2 ^ 31 ->
    circle_ok (fold_left (Testing3.circle_step Sin Cos) steps c)
    /\ Testing3.count3 (fold_left (Testing3.circle_step Sin Cos) steps c)
       = Testing3.count3 c + Z.of_nat (length steps).
Proof.
  induction steps as [|i steps IH]; intros c Hc H0 Hl; cbn [fold_left length] in *.
  - split; [exact Hc | lia].
  - destruct (circle_step_ok Sin Cos c i Hc) as [Hc' E]; [lia|].
    destruct (IH _ Hc') as [Hc'' E']; [lia | lia |]. split; [exact Hc'' | lia].
Qed.

Lemma circle_ok_nil : circle_ok (Testing3.Circle [] [] [] 0).
Proof. repeat split. constructor. Qed.


(** *** One frame *)






Lemma frame_ok_app d cs1 cs2 a post :
  frame_ok d cs1 a (fun a1 => frame_ok d cs2 a1 post) -> frame_ok d (cs1 ++ cs2) a post.
Proof.
  revert a. induction cs1 as [|c cs1 IH]; intros a [[Hp Hf2] Hf1]; cbn [app].
  - split; assumption.
  - cbn [fold_left draws_of] in *. apply Forall_app in Hf1 as [Hc Hf1].
    destruct (IH (arrays_step d a c)) as [Hp' Hf']; [split; [split|]; assumption|].
    split; [exact Hp'|]. cbn [draws_of]. apply Forall_app. now split.
Qed.










(** *** The main loops *)


Lemma bind_emits d {B} cs (k : unit -> GL.M B) w :
  GL.bind (GL.emits d cs) k w = k tt (GL.run_calls d cs w).
Proof. apply bind_Ok, emits_run. Qed.

Lemma bind_emit d {B} c (k : unit -> GL.M B) w :
  GL.bind (GL.emit d c) k w = k tt (GL.run_calls d [c] w).
Proof. apply bind_Ok, emit_run. Qed.



(** *** From the start of the process *)













(** The runs on the sample platform do draw: two frames are shown, with one
    draw each in [hello.go] and three each in "Testing 3+". *)
Lemma sample_runs_draw :
  (exists w, GL.final (Hello.main Sample.driver Sample.Sin
                         (Sample.platform Sample.two_rows Sample.frames) Sample.start)
             = Some w
             /\ length (GL.draws (GL.ctx w)) = 2%nat)
  /\ (exists w, GL.final (Testing3.main Sample.driver Sample.Sin Sample.Cos
                            (Sample.platform Sample.two_rows Sample.frames) Sample.start)
                = Some w
                /\ length (GL.draws (GL.ctx w)) = 6%nat).
Proof. split; eexists; split; vm_compute; reflexivity. Qed.
End Draws.

(** ** The main loops *)
Module MainLoop.
Import GLFacts Frames.
Local Open Scope Z_scope.

Lemma Hello_loop_closed d Sin fs win r w :
  Glfw.ShouldClose win = true -> Hello.loop d Sin fs win r w = GL.Ok tt w.
Proof. intros H. destruct fs; cbn [Hello.loop]; now rewrite H. Qed.

Lemma Testing3_loop_closed d Sin Cos fs win r w :
  Glfw.ShouldClose win = true -> Testing3.loop d Sin Cos fs win r w = GL.Ok tt w.
Proof. intros H. destruct fs; cbn [Testing3.loop]; now rewrite H. Qed.

Lemma bind_emits_emit d {B} cs c (k : GL.M B) w :
  GL.bind (GL.emits d cs) (fun _ => GL.bind (GL.emit d c) (fun _ => k)) w
  = k (GL.run_calls d (cs ++ [c]) w).
Proof.
  rewrite (bind_Ok _ _ _ _ _ (emits_run d cs w)).
  rewrite (bind_Ok _ _ _ _ _ (emit_run d c _)).
  now rewrite run_calls_app.
Qed.

Lemma poll_open (f : Glfw.frame) win :
  Glfw.ShouldClose win = false ->
  Glfw.ShouldClose (fold_left Shared.charCallBack (Glfw.chars f) win) = typed_q f.
Proof. intros H. now rewrite Input.charCallBack_poll, H. Qed.

Lemma Hello_loop_calls d Sin fs :
  forall win r w,
    Glfw.ShouldClose win = false ->
    Hello.loop d Sin fs win r w
    = GL.Ok tt (GL.run_calls d (flat_map (hello_frame Sin r) (frames_shown fs)) w).
Proof.
  induction fs as [|f fs IH]; intros win r w Hw; cbn [Hello.loop]; rewrite Hw.
  - cbn. now rewrite run_calls_nil.
  - rewrite bind_emits_emit. fold (hello_frame Sin r f).
    cbn [frames_shown flat_map]. rewrite run_calls_app.
    pose proof (poll_open f win Hw) as Hp.
    destruct (typed_q f).
    + rewrite Hello_loop_closed by exact Hp. cbn [flat_map]. now rewrite run_calls_nil.
    + rewrite IH by exact Hp. reflexivity.
Qed.

Lemma Testing3_loop_calls d Sin Cos fs :
  forall win r w,
    Glfw.ShouldClose win = false ->
    Testing3.loop d Sin Cos fs win r w
    = GL.Ok tt (GL.run_calls d (flat_map (testing3_frame Sin Cos r) (frames_shown fs)) w).
Proof.
  induction fs as [|f fs IH]; intros win r w Hw; cbn [Testing3.loop]; rewrite Hw.
  - cbn. now rewrite run_calls_nil.
  - rewrite bind_emits_emit. fold (testing3_frame Sin Cos r f).
    cbn [frames_shown flat_map]. rewrite run_calls_app.
    pose proof (poll_open f win Hw) as Hp.
    destruct (typed_q f).
    + rewrite Testing3_loop_closed by exact Hp. cbn [flat_map]. now rewrite run_calls_nil.
    + rewrite IH by exact Hp. reflexivity.
Qed.

(** X8: in [hello.go] and in "Testing 3+" the main loop renders and shows one
    frame for each iteration up to and with the first one during which a
    ['q'] is typed, and nothing after it.  Each frame of [hello.go] is
    rendered with the fade factor of its own time. *)
Theorem loops_end_after_q d Sin Cos fs (r : Hello.gResources) (r3 : Testing3.gResources) w :
  Hello.loop d Sin fs (Glfw.mkWindow false) r w
  = GL.Ok tt (GL.run_calls d (flat_map (hello_frame Sin r) (frames_shown fs)) w)
  /\ Testing3.loop d Sin Cos fs (Glfw.mkWindow false) r3 w
     = GL.Ok tt (GL.run_calls d (flat_map (testing3_frame Sin Cos r3) (frames_shown fs)) w).
Proof. split; [apply Hello_loop_calls | apply Testing3_loop_calls]; reflexivity. Qed.

End MainLoop.

(** ** Numbers the programs compute *)
Module Numbers.
Import Float FloatFacts Constants.
Local Open Scope Q_scope.

Lemma fmul32_zero_r q : fmul binary32 (Fin q) (Fin 0) = Fin 0.
Proof.
  change (fmul binary32 (Fin q) (Fin 0)) with (rnd binary32 (q * 0)).
  rewrite (rnd_comp binary32 (q * 0) 0) by ring. reflexivity.
Qed.

Lemma fmul32_zero_l q : fmul binary32 (Fin 0) (Fin q) = Fin 0.
Proof.
  change (fmul binary32 (Fin 0) (Fin q)) with (rnd binary32 (0 * q)).
  rewrite (rnd_comp binary32 (0 * q) 0) by ring. reflexivity.
Qed.

(** With a chroma of 0 every branch of [hsb2rgb] returns black. *)
Lemma hsb2rgb_chroma_0 (h : Q) (s b : float) :
  0 <= h -> h <= 1 -> fmul binary32 b s = Fin 0 ->
  Shared.hsb2rgb (Fin h) s b = (Fin 0, Fin 0, Fin 0).
Proof.
  intros H0 H1 Ec.
  destruct (rnd_between binary32 0 6 (h * 6)) as (v & Ev & V0 & V6);
    [discriminate | reflexivity | reflexivity | lra | lra |].
  destruct (ColorConverter.triangle_unit v V0 V6) as (t & Et & _).
  unfold Shared.hsb2rgb.
  change (fmul binary32 (Fin h) (Fin 6)) with (rnd binary32 (h * 6)).
  rewrite Ec, Ev, Et, fmul32_zero_l.
  repeat match goal with |- context [if ?c then _ else _] => destruct c end; reflexivity.
Qed.

(** X1: [hsb2rgb] has no grey: with saturation 0 it returns black whatever the
    brightness, and so it does with brightness 0. *)
Theorem hsb2rgb_no_grey (h x : Q) :
  0 <= h -> h <= 1 ->
  Shared.hsb2rgb (Fin h) (Fin 0) (Fin x) = (Fin 0, Fin 0, Fin 0)
  /\ Shared.hsb2rgb (Fin h) (Fin x) (Fin 0) = (Fin 0, Fin 0, Fin 0).
Proof.
  intros H0 H1. split; apply hsb2rgb_chroma_0; try assumption.
  - apply fmul32_zero_r.
  - apply fmul32_zero_l.
Qed.

Lemma hsb2rgb_no_grey_witness :
  Shared.hsb2rgb (Fin (1 # 3)) (Fin 0) (Fin 1) = (Fin 0, Fin 0, Fin 0)
  /\ Shared.hsb2rgb (Fin (1 # 3)) (Fin 1) (Fin 0) = (Fin 0, Fin 0, Fin 0).
Proof. apply (hsb2rgb_no_grey (1 # 3) 1); discriminate. Defined.

(** *** The fade factor of [hello.go] *)

Lemma half64 : rnd binary64 (5 # 10) = Fin (1 # 2).
Proof. vm_compute. reflexivity. Qed.

(** X3: [updateFadeFactor] stores a fade factor in [0,1], whatever the time,
    given that the sine is in [-1,1]; it changes nothing else. *)
Theorem updateFadeFactor_unit (Sin : float -> float) (seconds : float)
    (r : Hello.gResources) (q : Q) :
  Sin seconds = Fin q -> - (1) <= q -> q <= 1 ->
  exists f,
    Hello.updateFadeFactor Sin seconds r
    = Hello.mkResources (Hello.vertexBuffer r) (Hello.elementBuffer r) (Hello.textures r)
        (Hello.vertexShader r) (Hello.fragmentShader r) (Hello.program r)
        (Hello.uniforms r) (Hello.attributes r) (Fin f)
    /\ 0 <= f /\ f <= 1.
Proof.
  intros HS Q0 Q1. unfold Hello.updateFadeFactor. rewrite HS, half64.
  change (fmul binary64 (Fin q) (Fin (1 # 2))) with (rnd binary64 (q * (1 # 2))).
  destruct (rnd_between binary64 (- (1 # 2)) (1 # 2) (q * (1 # 2))) as (a & Ea & A0 & A1);
    [discriminate | reflexivity | reflexivity | lra | lra |].
  rewrite Ea.
  change (fadd binary64 (Fin a) (Fin (1 # 2))) with (rnd binary64 (a + (1 # 2))).
  destruct (rnd_between binary64 0 1 (a + (1 # 2))) as (b & Eb & B0 & B1);
    [discriminate | reflexivity | reflexivity | lra | lra |].
  rewrite Eb. cbn [convert].
  destruct (rnd_between binary32 0 1 b) as (f & Ef & F0 & F1);
    [discriminate | reflexivity | reflexivity | lra | lra |].
  rewrite Ef. exists f. repeat split; assumption.
Qed.

Lemma updateFadeFactor_unit_witness :
  exists f,
    Hello.updateFadeFactor Sample.Sin (Fin 3)
      (Hello.mkResources 1 2 (1, 2)%Z 1 2 3 (Hello.mkUniforms 0 (1, 2)%Z)
         (Hello.mkAttributes 0) (Fin 0))
    = Hello.mkResources 1 2 (1, 2)%Z 1 2 3 (Hello.mkUniforms 0 (1, 2)%Z)
        (Hello.mkAttributes 0) (Fin f)
    /\ 0 <= f /\ f <= 1.
Proof.
  apply (updateFadeFactor_unit Sample.Sin (Fin 3)
           (Hello.mkResources 1 2 (1, 2)%Z 1 2 3 (Hello.mkUniforms 0 (1, 2)%Z)
              (Hello.mkAttributes 0) (Fin 0)) 0);
    [reflexivity | discriminate | discriminate].
Defined.

(** *** The aspect ratio and what is derived from it *)


Lemma representable32_two63 : representable binary32 two63.
Proof. vm_compute. reflexivity. Qed.

Lemma representable32_inv63 : representable binary32 (/ two63).
Proof. vm_compute. reflexivity. Qed.

(** [float32(n)] of a positive Go [int]. *)
Lemma of_int32_pos (n : Z) :
  (0 < n < 2 ^ 63)%Z ->
  exists v, of_int binary32 n = Fin v /\ 1 <= v /\ v <= two63.
Proof.
  intros Hn. apply (rnd_between binary32 1 two63);
    [discriminate | reflexivity | exact representable32_two63 | |].
  - change 1 with (inject_Z 1). rewrite <- Zle_Qle. lia.
  - unfold two63. rewrite <- Zle_Qle. lia.
Qed.

(** [float32(width) / float32(height)] is a positive number. *)
Lemma ratio_pos (width height : Z) :
  (0 < width < 2 ^ 63)%Z -> (0 < height < 2 ^ 63)%Z ->
  exists q,
    fdiv binary32 (of_int binary32 width) (of_int binary32 height) = Fin q
    /\ / two63 <= q /\ q <= two63.
Proof.
  intros Hw Hh.
  destruct (of_int32_pos width Hw) as (x & Ex & X1 & X2).
  destruct (of_int32_pos height Hh) as (y & Ey & Y1 & Y2).
  rewrite Ex, Ey. cbn [fdiv].
  assert (T : 0 < two63) by reflexivity.
  destruct (Qeq_bool y 0) eqn:Z; [apply Qeq_bool_iff in Z; lra|].
  apply (rnd_between binary32 (/ two63) two63);
    [discriminate | exact representable32_inv63 | exact representable32_two63 | |].
  - apply Qle_shift_div_l; [lra|].
    apply Qle_trans with (/ two63 * two63); [|rewrite Qmult_comm, Qmult_inv_r; lra].
    apply Qmult_le_l; [apply Qinv_lt_0_compat; exact T | exact Y2].
  - apply Qle_shift_div_r; [lra|]. nra.
Qed.

Lemma fgt_Fin x y : fgt (Fin x) (Fin y) = true <-> y < x.
Proof.
  unfold fgt, fcompare. destruct (Qcompare_spec x y) as [H|H|H]; split; intros; try easy; lra.
Qed.

Lemma fgt_Fin_false x y : fgt (Fin x) (Fin y) = false <-> x <= y.
Proof.
  unfold fgt, fcompare. destruct (Qcompare_spec x y) as [H|H|H]; split; intros; try easy; lra.
Qed.

Lemma ra_value : rnd binary32 (95 # 100) = Fin ra32.
Proof. vm_compute. reflexivity. Qed.

Lemma representable32_ra : representable binary32 ra32.
Proof. vm_compute. reflexivity. Qed.

Lemma representable32_tiny : representable binary32 (/ (2 * two63)).
Proof. vm_compute. reflexivity. Qed.

(** X4: "Testing 3+": the two scale factors that [render] hands to the vertex
    shader are positive and at most [float32(.95)], and one of them is
    [float32(.95)]: the picture is shrunk along one axis, never stretched. *)
Theorem scale_fits (width height : Z) :
  (0 < width < 2 ^ 63)%Z -> (0 < height < 2 ^ 63)%Z ->
  exists xm ym,
    Testing3.scale (rnd binary32 (95 # 100))
      (fdiv binary32 (of_int binary32 width) (of_int binary32 height))
    = (Fin xm, Fin ym)
    /\ 0 < xm /\ xm <= ra32 /\ 0 < ym /\ ym <= ra32
    /\ (xm = ra32 \/ ym = ra32).
Proof.
  intros Hw Hh. destruct (ratio_pos width height Hw Hh) as (q & Eq & Q0 & Q1).
  rewrite Eq, ra_value. unfold Testing3.scale.
  assert (T : 0 < two63) by reflexivity.
  assert (I : 0 < / two63) by reflexivity.
  assert (A : 0 < ra32 /\ (1 # 2) <= ra32) by (split; [reflexivity | discriminate]).
  assert (Y : 0 < / (2 * two63)) by reflexivity.
  assert (Hq : 0 < q) by lra.
  destruct (fgt (Fin q) (Fin 1)) eqn:G.
  - apply fgt_Fin in G. cbn [fdiv].
    destruct (Qeq_bool q 0) eqn:Z; [apply Qeq_bool_iff in Z; lra|].
    destruct (rnd_between binary32 (/ (2 * two63)) ra32 (ra32 / q)) as (x & Ex & X0 & X1);
      [discriminate | exact representable32_tiny | exact representable32_ra | | |].
    + apply Qle_shift_div_l; [exact Hq|].
      apply Qle_trans with (/ (2 * two63) * two63).
      * apply Qmult_le_l; [exact Y | exact Q1].
      * assert (E : / (2 * two63) * two63 == 1 # 2) by reflexivity. lra.
    + apply Qle_shift_div_r; [exact Hq|]. nra.
    + rewrite Ex. exists x, ra32. repeat split; try lra. now right.
  - apply fgt_Fin_false in G.
    change (fmul binary32 (Fin ra32) (Fin q)) with (rnd binary32 (ra32 * q)).
    destruct (rnd_between binary32 (/ (2 * two63)) ra32 (ra32 * q)) as (y & Ey & Y0 & Y1);
      [discriminate | exact representable32_tiny | exact representable32_ra | | |].
    + apply Qle_trans with ((1 # 2) * / two63).
      * assert (E : / (2 * two63) == (1 # 2) * / two63) by reflexivity. lra.
      * nra.
    + nra.
    + rewrite Ey. exists ra32, y. repeat split; try lra. now left.
Qed.

Lemma scale_fits_witness :
  exists xm ym,
    Testing3.scale (rnd binary32 (95 # 100))
      (fdiv binary32 (of_int binary32 640) (of_int binary32 480))
    = (Fin xm, Fin ym)
    /\ 0 < xm /\ xm <= ra32 /\ 0 < ym /\ ym <= ra32
    /\ (xm = ra32 \/ ym = ra32).
Proof. apply (scale_fits 640 480); lia. Defined.

(** X5: "Testing": the box handed to [gl.Ortho] is symmetric about the origin
    and contains the square from -1 to 1; along one axis it is exactly
    that square. *)
Theorem ortho_contains_unit_square (width height : Z) :
  (0 < width < 2 ^ 63)%Z -> (0 < height < 2 ^ 63)%Z ->
  exists x y,
    Testing.orthoExtents (Testing.aspect width height)
    = (Fin (- x), Fin x, Fin (- y), Fin y)
    /\ 1 <= x /\ 1 <= y /\ (x = 1 \/ y = 1).
Proof.
  intros Hw Hh. unfold Testing.aspect.
  destruct (ratio_pos width height Hw Hh) as (q & Eq & Q0 & Q1).
  rewrite Eq. unfold Testing.orthoExtents.
  assert (T : 0 < two63) by reflexivity.
  assert (I : 0 < / two63) by reflexivity.
  assert (Hq : 0 < q) by lra.
  destruct (fgt (Fin q) (Fin 1)) eqn:G.
  - apply fgt_Fin in G. exists q, 1. cbn [fneg]. repeat split; try lra. now right.
  - apply fgt_Fin_false in G. rewrite Aspect.fdiv_minus_one. cbn [fdiv].
    destruct (Qeq_bool q 0) eqn:Z; [apply Qeq_bool_iff in Z; lra|].
    destruct (rnd_between binary32 1 two63 (1 / q)) as (y & Ey & Y0 & Y1);
      [discriminate | reflexivity | exact representable32_two63 | | |].
    + apply Qle_shift_div_l; [exact Hq | lra].
    + apply Qle_shift_div_r; [exact Hq|].
      apply Qle_trans with (two63 * / two63); [rewrite Qmult_inv_r; lra|].
      apply Qmult_le_l; [exact T | exact Q0].
    + rewrite Ey. exists 1, y. cbn [fneg]. repeat split; try lra. now left.
Qed.

Lemma ortho_contains_unit_square_witness :
  exists x y,
    Testing.orthoExtents (Testing.aspect 640 480)
    = (Fin (- x), Fin x, Fin (- y), Fin y)
    /\ 1 <= x /\ 1 <= y /\ (x = 1 \/ y = 1).
Proof. apply (ortho_contains_unit_square 640 480); lia. Defined.


(** *** Rounding twice *)

Lemma scaled_pow2 (k e p : Z) :
  (0 <= k)%Z -> inject_Z (2 ^ k) * 2 ^ (e - p + 1) == 2 ^ (e - p + 1 + k).
Proof.
  intros Hk. rewrite <- pow2_Z by exact Hk. rewrite (pow2_add (e - p + 1) k). apply Qmult_comm.
Qed.

(** A value that rounding returns is kept by rounding. *)
Lemma round_pos_idem p m q :
  (1 <= p)%Z -> 0 < q -> 0 < round_pos p m q ->
  round_pos p m (round_pos p m q) = round_pos p m q.
Proof.
  intros Hp Hq Hv.
  set (e := Z.max (Qlog2 q) m). set (u := 2 ^ (e - p + 1)).
  set (n := round_half_even (q / u)). set (v := round_pos p m q) in *.
  assert (Hu : 0 < u) by apply pow2_pos.
  assert (Ev : v == inject_Z n * u) by apply round_pos_eq.
  destruct (Qlog2_spec q Hq) as [S1 S2].
  assert (U1 : inject_Z (2 ^ p) * u == 2 ^ (e + 1)).
  { unfold u. rewrite scaled_pow2 by lia. now replace (e - p + 1 + p)%Z with (e + 1)%Z by lia. }
  assert (U0 : inject_Z (2 ^ (p - 1)) * u == 2 ^ e).
  { unfold u. rewrite scaled_pow2 by lia. now replace (e - p + 1 + (p - 1))%Z with e by lia. }
  assert (Na : (n <= 2 ^ p)%Z).
  { unfold n. rewrite <- (round_half_even_Z (2 ^ p)). apply round_half_even_mono.
    apply Qle_shift_div_r; [exact Hu|]. rewrite U1.
    apply Qle_trans with (2 ^ (Qlog2 q + 1)); [lra|]. apply pow2_le. lia. }
  assert (Nb : (0 < n)%Z).
  { rewrite Zlt_Qlt. change (inject_Z 0) with 0. nra. }
  unfold v at 2. unfold round_pos at 2. unfold round_pos at 1. apply Qred_complete.
  change (inject_Z (round_half_even (v / ulp p m v)) * ulp p m v == inject_Z n * u).
  destruct (Z.eq_dec n (2 ^ p)%Z) as [En|Nn].
  - (* rounded up to the next power of two *)
    assert (V : v == 2 ^ (e + 1)) by (rewrite Ev, En; exact U1).
    assert (L : Qlog2 v = (e + 1)%Z).
    { apply Qlog2_unique; [lra|]. rewrite V. rewrite (pow2_succ (e + 1)).
      pose proof (pow2_pos (e + 1)). lra. }
    unfold ulp. rewrite L.
    rewrite Z.max_l by lia.
    assert (U2 : 2 ^ (e + 1 - p + 1) == 2 * u).
    { unfold u. replace (e + 1 - p + 1)%Z with (e - p + 1 + 1)%Z by lia. apply pow2_succ. }
    assert (D : v / 2 ^ (e + 1 - p + 1) == inject_Z (2 ^ (p - 1))).
    { rewrite U2, V, <- U1. 
      replace (2 ^ p)%Z with (2 * 2 ^ (p - 1))%Z.
      - rewrite inject_Z_mult. change (inject_Z 2) with 2. field. lra.
      - rewrite <- Z.pow_succ_r by lia. f_equal. lia. }
    rewrite (round_half_even_comp _ _ D), round_half_even_Z, U2, En.
    replace (2 ^ p)%Z with (2 * 2 ^ (p - 1))%Z.
    + rewrite inject_Z_mult. change (inject_Z 2) with 2. ring.
    + rewrite <- Z.pow_succ_r by lia. f_equal. lia.
  - assert (Nc : inject_Z n * u < 2 ^ (e + 1)).
    { rewrite <- U1. apply Qmult_lt_r; [exact Hu|]. rewrite <- Zlt_Qlt. lia. }
    assert (M : Z.max (Qlog2 v) m = e).
    { destruct (Z.le_gt_cases m (Qlog2 q)) as [C|C].
      - assert (Ee : e = Qlog2 q) by (unfold e; lia).
        assert (Nd : (2 ^ (p - 1) <= n)%Z).
        { unfold n. rewrite <- (round_half_even_Z (2 ^ (p - 1))). apply round_half_even_mono.
          apply Qle_shift_div_l; [exact Hu|]. rewrite U0, Ee. exact S1. }
        assert (L : Qlog2 v = e).
        { apply Qlog2_unique; [|lra]. rewrite Ev, <- U0.
          apply Qmult_le_r; [exact Hu|]. now rewrite <- Zle_Qle. }
        rewrite L. lia.
      - assert (Ee : e = m) by (unfold e; lia).
        destruct (Qlog2_spec v Hv) as [T1 T2].
        assert (L : (Qlog2 v < e + 1)%Z).
        { apply (Qpower_lt_compat_l_inv 2); [lra | reflexivity]. }
        lia. }
    unfold ulp. rewrite M. fold u.
    assert (D : v / u == inject_Z n) by (rewrite Ev; field; lra).
    rewrite (round_half_even_comp _ _ D), round_half_even_Z. reflexivity.
Qed.

Lemma Qred_zero q : q == 0 -> Qred q = 0.
Proof. intros E. now rewrite (Qred_complete q 0 E). Qed.

Lemma round_pos_zero p m q : round_pos p m q == 0 -> round_pos p m q = 0.
Proof.
  intros E. unfold round_pos in *. rewrite Qred_correct in E. now apply Qred_zero.
Qed.

Lemma Qopp_opp (q : Q) : - - q = q.
Proof. destruct q as [a b]. unfold Qopp. cbn. now rewrite Z.opp_involutive. Qed.

Lemma round_to_pos p m q : 0 < q -> round_to p m q = round_pos p m q.
Proof. intros H. unfold round_to. rewrite Qgt_alt in H. now rewrite H. Qed.

Lemma round_to_zero p m q : q == 0 -> round_to p m q = 0.
Proof. intros H. unfold round_to. rewrite Qeq_alt in H. now rewrite H. Qed.

Lemma round_to_neg p m q : q < 0 -> round_to p m q = - round_pos p m (- q).
Proof. intros H. unfold round_to. rewrite Qlt_alt in H. now rewrite H. Qed.

Lemma round_to_idem p m q :
  (1 <= p)%Z -> round_to p m (round_to p m q) = round_to p m q.
Proof.
  intros Hp. destruct (Qcompare_spec q 0) as [E|L|G].
  - rewrite (round_to_zero p m q E). reflexivity.
  - rewrite (round_to_neg p m q L).
    assert (Hq : 0 < - q) by lra.
    pose proof (round_pos_nonneg p m (- q) ltac:(lra)) as N.
    destruct (Qle_lt_or_eq _ _ N) as [P|Z].
    + rewrite round_to_neg by lra. rewrite Qopp_opp. now rewrite round_pos_idem.
    + symmetry in Z. rewrite (round_pos_zero p m (- q) Z). reflexivity.
  - rewrite (round_to_pos p m q G).
    pose proof (round_pos_nonneg p m q ltac:(lra)) as N.
    destruct (Qle_lt_or_eq _ _ N) as [P|Z].
    + rewrite round_to_pos by exact P. now apply round_pos_idem.
    + symmetry in Z. rewrite (round_pos_zero p m q Z). reflexivity.
Qed.

(** What an operation on floats returns is a value of the format. *)
Lemma rnd_representable f q v :
  (1 <= prec f)%Z -> rnd f q = Fin v -> representable f v.
Proof.
  intros Hp E. apply rnd_Fin_inv in E. destruct E as [E B]. unfold representable.
  rewrite rnd_Fin; rewrite <- E, round_to_idem by exact Hp; [reflexivity|].
  rewrite E. exact B.
Qed.

(** *** The largest component *)

(** X2: for a hue in [0,1) and saturation and brightness in [0,1], the three
    components that [hsb2rgb] returns are the chroma [c = b*s], a value
    [x] between 0 and [c], and 0, in the order of the sector: the largest
    component is the chroma and the smallest is 0. *)
Theorem hsb2rgb_chroma_max (h s b : Q) :
  0 <= h -> h < 1 -> 0 <= s -> s <= 1 -> 0 <= b -> b <= 1 ->
  exists c x,
    fmul binary32 (Fin b) (Fin s) = Fin c
    /\ 0 <= x /\ x <= c /\ c <= 1
    /\ List.In (Shared.hsb2rgb (Fin h) (Fin s) (Fin b))
         [(Fin c, Fin x, Fin 0); (Fin x, Fin c, Fin 0); (Fin 0, Fin c, Fin x);
          (Fin 0, Fin x, Fin c); (Fin x, Fin 0, Fin c); (Fin c, Fin 0, Fin x)].
Proof.
  intros H0 H1 S0 S1 B0 B1.
  destruct (ColorConverter.mul32_unit b s B0 B1 S0 S1) as (c & Ec & C0 & C1).
  assert (Rc : representable binary32 c).
  { apply (rnd_representable binary32 (b * s)); [discriminate | exact Ec]. }
  destruct (rnd_between binary32 0 6 (h * 6)) as (v & Ev & V0 & V6);
    [discriminate | reflexivity | reflexivity | lra | lra |].
  destruct (ColorConverter.triangle_unit v V0 V6) as (t & Et & T0 & T1).
  destruct (rnd_between binary32 0 c (c * t)) as (x & Ex & X0 & X1);
    [discriminate | reflexivity | exact Rc | nra | nra |].
  exists c, x. split; [exact Ec|]. split; [exact X0|]. split; [exact X1|].
  split; [exact C1|].
  unfold Shared.hsb2rgb.
  change (fmul binary32 (Fin h) (Fin 6)) with (rnd binary32 (h * 6)).
  rewrite Ec, Ev, Et.
  change (fmul binary32 (Fin c) (Fin t)) with (rnd binary32 (c * t)). rewrite Ex.
  repeat match goal with |- context [if ?k then _ else _] => destruct k end;
    cbn [List.In]; tauto.
Qed.

Lemma hsb2rgb_chroma_max_witness :
  exists c x,
    fmul binary32 (Fin (3 # 4)) (Fin (1 # 2)) = Fin c
    /\ 0 <= x /\ x <= c /\ c <= 1
    /\ List.In (Shared.hsb2rgb (Fin (7 # 10)) (Fin (1 # 2)) (Fin (3 # 4)))
         [(Fin c, Fin x, Fin 0); (Fin x, Fin c, Fin 0); (Fin 0, Fin c, Fin x);
          (Fin 0, Fin x, Fin c); (Fin x, Fin 0, Fin c); (Fin c, Fin 0, Fin x)].
Proof.
  apply (hsb2rgb_chroma_max (7 # 10) (1 # 2) (3 # 4)); discriminate || reflexivity.
Defined.

End Numbers.

(** ** Resource construction, block by block *)
Module Blocks.
Import GLFacts.
Local Open Scope Z_scope.

Lemma linked_program d vs fs n s :
  GL.programs
    (GL.step d (GL.LinkProgram n)
       (GL.step d (GL.AttachShader n fs)
          (GL.step d (GL.AttachShader n vs) (GL.step d (GL.CreateProgram n) s)))) !! n
  = Some (GL.Program [vs; fs] (fst (Calls.link_result d s vs fs))
            (snd (Calls.link_result d s vs fs))).
Proof.
  cbn [GL.step GL.set_programs GL.programs].
  rewrite !lookup_alter_eq, lookup_insert_eq. reflexivity.
Qed.

Lemma makeProgram_run d vs fs w :
  let n := GL.last_object (GL.ctx w) + 1 in
  let r := Calls.link_result d (GL.ctx w) vs fs in
  Shared.makeProgram d vs fs w
  = if fst r
    then GL.Ok n (GL.run_calls d (Calls.linked n vs fs) w)
    else GL.Fatal (Shared.link_error (Calls.info_buffer (snd r)))
           (GL.run_calls d (Calls.failed_link (snd r) n vs fs) w).
Proof.
  cbv zeta.
  cbv [Shared.makeProgram GL.bind GL.ret GL.glCreateProgram GL.get GL.emit GL.run_calls
       GL.glGetProgramiv GL.glGetProgramInfoLog Shared.x GL.Fatalln
       Calls.linked Calls.failed_link fold_left].
  cbn [GL.ctx GL.trace]. unfold GL.program_param.
  pose proof (linked_program d vs fs (GL.last_object (GL.ctx w) + 1) (GL.ctx w)) as X.
  rewrite X. cbn [GL.pr_status GL.pr_log].
  destruct (fst (Calls.link_result d (GL.ctx w) vs fs)).
  - cbn. rewrite <- !app_assoc. reflexivity.
  - cbn [Z.eqb GL.FALSE GL.ctx GL.trace].
    repeat match goal with
           | |- context [GL.step d (GL.GetProgramiv ?n ?p ?v) ?s] =>
               change (GL.step d (GL.GetProgramiv n p v) s) with s
           | |- context [GL.step d (GL.GetProgramInfoLog ?n ?p ?v) ?s] =>
               change (GL.step d (GL.GetProgramInfoLog n p v) s) with s
           end.
    rewrite !X. cbn [GL.pr_log]. rewrite <- !app_assoc. reflexivity.
Qed.



(** X12: [makeProgram]: the program is created, the two shaders are attached and
    it is linked.  When the link succeeds its name is returned; when it does
    not, the process is killed with the line "failed to link program: " and
    the buffer the link log was read into. *)
Theorem makeProgram_outcome d vs fs w :
  let n := GL.last_object (GL.ctx w) + 1 in
  let r := Calls.link_result d (GL.ctx w) vs fs in
  (fst r = true ->
     Shared.makeProgram d vs fs w = GL.Ok n (GL.run_calls d (Calls.linked n vs fs) w))
  /\ (fst r = false ->
      Shared.makeProgram d vs fs w
      = GL.Fatal (Shared.link_error (Calls.info_buffer (snd r)))
          (GL.run_calls d (Calls.failed_link (snd r) n vs fs) w)).
Proof.
  cbv zeta. pose proof (makeProgram_run d vs fs w) as R. cbv zeta in R.
  split; intros E; now rewrite E in R.
Qed.

Lemma makeProgram_outcome_witness :
  Shared.makeProgram Sample3.unlinked_driver 1 2 Sample.start
  = GL.Fatal
      (Shared.link_error
         (Calls.info_buffer "error: linking with uncompiled shader"))
      (GL.run_calls Sample3.unlinked_driver
         (Calls.failed_link "error: linking with uncompiled shader" 1 1 2) Sample.start).
Proof.
  apply (proj2 (makeProgram_outcome Sample3.unlinked_driver 1 2 Sample.start)).
  reflexivity.
Defined.

(** X10: [makeBuffer] returns a name that no buffer had before, leaves the data
    stored under that name and bound to the target, and leaves every other
    buffer as it was. *)
Theorem makeBuffer_stores d t data w :
  Arrays.buffer_target t -> 0 <= GL.last_buffer (GL.ctx w) ->
  exists w',
    let b := GL.last_buffer (GL.ctx w) + 1 in
    let a := GL.vertex_arrays (GL.ctx w) in
    let a' := GL.vertex_arrays (GL.ctx w') in
    Shared.makeBuffer d t data (4 * GL.buf_len data) w = GL.Ok b w'
    /\ GL.last_buffer (GL.ctx w') = b
    /\ GL.buffers a' = <[b := data]> (GL.buffers a)
    /\ GL.bound t a' = b
    /\ GL.pointers a' = GL.pointers a
    /\ GL.enabled a' = GL.enabled a
    /\ GL.draws (GL.ctx w') = GL.draws (GL.ctx w).
Proof.
  intros Ht L0. eexists. cbv zeta. rewrite Runs.makeBuffer_run.
  split; [reflexivity|].
  rewrite Draws.arrays_run, Draws.last_buffer_run, Draws.draws_run.
  cbn [Calls.buffer_calls fold_left Arrays.arrays_step Arrays.buffer_counter
       Arrays.draws_of app].
  rewrite app_nil_r.
  set (b := GL.last_buffer (GL.ctx w) + 1).
  assert (Hb : (b =? 0) = false) by (apply Z.eqb_neq; lia).
  unfold GL.buffer_data.
  destruct Ht as [-> | ->];
    cbn [GL.bind_buffer GL.bound GL.array_buffer GL.element_buffer GL.buffers
         GL.pointers GL.enabled];
    rewrite Hb, Draws.take_all;
    cbn [GL.bound GL.array_buffer GL.element_buffer GL.buffers GL.pointers GL.enabled];
    repeat split.
Qed.

Lemma makeBuffer_stores_witness :
  exists w',
    Shared.makeBuffer Sample.driver GL.ELEMENT_ARRAY_BUFFER
      (GL.Uints Hello.gElementBufferData) 16 Sample.start = GL.Ok 1 w'
    /\ GL.last_buffer (GL.ctx w') = 1
    /\ GL.buffers (GL.vertex_arrays (GL.ctx w'))
       = <[1 := GL.Uints Hello.gElementBufferData]> ∅
    /\ GL.bound GL.ELEMENT_ARRAY_BUFFER (GL.vertex_arrays (GL.ctx w')) = 1
    /\ GL.pointers (GL.vertex_arrays (GL.ctx w')) = ∅
    /\ GL.enabled (GL.vertex_arrays (GL.ctx w')) = ∅
    /\ GL.draws (GL.ctx w') = [].
Proof.
  apply (makeBuffer_stores Sample.driver GL.ELEMENT_ARRAY_BUFFER
           (GL.Uints Hello.gElementBufferData) Sample.start);
    [now right | cbn; lia].
Defined.

(** *** The circle loop *)

Lemma circle_fold_elements Sin Cos steps :
  forall c, 0 <= Testing3.count3 c ->
    Testing3.count3 c + Z.of_nat (length steps) < 2 ^ 31 ->
    Testing3.gElementBufferData3 (fold_left (Testing3.circle_step Sin Cos) steps c)
    = Testing3.gElementBufferData3 c ++ seqZ (Testing3.count3 c) (Z.of_nat (length steps)).
Proof.
  induction steps as [|i steps IH]; intros c H0 Hl; cbn [fold_left length] in *.
  - cbn. now rewrite app_nil_r.
  - assert (I : int32 (Testing3.count3 c + 1) = Testing3.count3 c + 1).
    { unfold int32. rewrite Z.mod_small; lia. }
    assert (U : uint32 (Testing3.count3 c) = Testing3.count3 c).
    { unfold uint32. rewrite Z.mod_small; lia. }
    rewrite IH.
    + unfold Testing3.circle_step. destruct (Shared.hsb2rgb _ _ _) as [[rd g] b].
      cbn [Testing3.gElementBufferData3 Testing3.count3]. rewrite I, U, <- app_assoc.
      f_equal. rewrite Nat2Z.inj_succ, (seqZ_cons (Testing3.count3 c)) by lia. cbn [app]. f_equal.
      f_equal; lia.
    + unfold Testing3.circle_step. destruct (Shared.hsb2rgb _ _ _) as [[rd g] b].
      cbn [Testing3.count3]. lia.
    + unfold Testing3.circle_step. destruct (Shared.hsb2rgb _ _ _) as [[rd g] b].
      cbn [Testing3.count3]. lia.
Qed.

(** X9: the loop [for i := float64(0); i < 2*math.Pi; i += .05] ends after 126
    turns, in "Testing" and in "Testing 3+".  126 is the capacity that
    [makeResources] gives its three slices: at the end they hold 126 colours,
    126 positions and the indices 0 to 125, and [len3] is 126. *)
Theorem circle_loop_126 (Sin Cos : Float.float -> Float.float) :
  exists steps,
    Shared.circle_steps = Some steps
    /\ length steps = 126%nat
    /\ let c := fold_left (Testing3.circle_step Sin Cos) steps (Testing3.Circle [] [] [] 0) in
       Testing3.count3 c = 126
       /\ Testing3.gElementBufferData3 c = seqZ 0 126
       /\ length (Testing3.gVertexBufferData3 c) = (126 * 2)%nat
       /\ length (Testing3.gColorBufferData3 c) = (126 * 3)%nat.
Proof.
  destruct Draws.circle_steps_some as (steps & Es & Ls). exists steps.
  split; [exact Es|]. split; [exact Ls|]. cbv zeta.
  destruct (Draws.circle_fold_ok Sin Cos steps _ Draws.circle_ok_nil)
    as [(L & LV & LC & _) Ec]; [cbn; lia | cbn; lia |].
  pose proof (circle_fold_elements Sin Cos steps (Testing3.Circle [] [] [] 0)) as E.
  cbn [Testing3.count3 Testing3.gElementBufferData3 app] in E, Ec.
  rewrite Ls in E, Ec. rewrite Ec in L.
  split; [exact Ec|]. split; [apply E; lia|]. lia.
Qed.

End Blocks.

(** ** The two texture loaders *)
Module Textures.
Import Image Pieces TextureLoader Props Runs Arrays.
Local Open Scope Z_scope.

Lemma at_origin_not_empty W H : 0 < W -> 0 < H -> Empty (at_origin W H) = false.
Proof.
  intros HW HH. unfold Empty. cbn.
  destruct (Z.leb_spec W 0); [lia|]. destruct (Z.leb_spec H 0); [lia | reflexivity].
Qed.

Lemma clip_whole W H dst src :
  0 < W -> 0 < H ->
  Rect dst = at_origin W H -> Rect src = at_origin W H ->
  clip dst (Bounds dst) src (Pt 0 0) = (at_origin W H, Pt 0 0).
Proof.
  intros HW HH Rd Rs. unfold clip, Bounds. rewrite Rd, Rs.
  pose proof (at_origin_not_empty W H HW HH) as NE.
  rewrite (Intersect_inside _ (at_origin W H)); [|exact NE | cbn; lia ..].
  rewrite Intersect_inside; [|exact NE | cbn; lia ..].
  reflexivity.
Qed.

(** The one [draw.Draw] of this [makeTexture] writes source row [h] over
    destination row [h], for every row. *)
Lemma Draw_whole W H dst src (i : nat) :
  0 < W -> 0 < H ->
  Rect dst = at_origin W H -> Stride dst = 4 * W -> Rect src = at_origin W H ->
  Pix (Draw dst (Bounds dst) src (Pt 0 0)) !! i =
    (fun old =>
       if Z.of_nat i / (4 * W) <? H
       then default 0
              (Pix src !! Z.to_nat (Z.of_nat i / (4 * W) * Stride src
                                    + Z.of_nat i mod (4 * W)))
       else old) <$> Pix dst !! i.
Proof.
  intros HW HH Rd Sd Rs. unfold Draw.
  rewrite (clip_whole W H dst src HW HH Rd Rs), (at_origin_not_empty W H HW HH).
  cbn [Rect Stride Pix].
  rewrite list_lookup_imap. destruct (Pix dst !! i) as [old|]; [|reflexivity].
  cbn [fmap option_fmap option_map]. f_equal.
  rewrite Rd, Sd. cbn [Min Max X Y at_origin].
  set (row := Z.of_nat i / (4 * W)). set (col := Z.of_nat i mod (4 * W)).
  assert (Hcol : 0 <= col < 4 * W) by (apply Z.mod_pos_bound; lia).
  assert (Hx : 0 <= col / 4 < W).
  { split; [apply Z.div_pos; lia | apply Z.div_lt_upper_bound; lia]. }
  assert (Hrow : 0 <= row) by (apply Z.div_pos; lia).
  unfold In. cbn [X Y Min Max at_origin].
  destruct (Z.ltb_spec row H) as [L|L].
  - replace ((0 <=? 0 + col / 4) && (0 + col / 4 <? W) && (0 <=? 0 + row)
             && (0 + row <? H)) with true.
    2:{ symmetry. rewrite !andb_true_iff. rewrite !Z.leb_le, !Z.ltb_lt. lia. }
    unfold byte_at, PixOffset. rewrite Rs. cbn [Min Max X Y at_origin].
    replace (0 + row - 0 + 0 - 0) with row by lia.
    replace (0 + col / 4 - 0 + 0 - 0) with (col / 4) by lia.
    do 2 f_equal.
    pose proof (Z.div_mod col 4 ltac:(lia)). lia.
  - replace ((0 <=? 0 + col / 4) && (0 + col / 4 <? W) && (0 <=? 0 + row)
             && (0 + row <? H)) with false; [reflexivity|].
    symmetry. rewrite !andb_false_iff. rewrite !Z.leb_gt, !Z.ltb_ge. lia.
Qed.

(** X15: "Testing 3+": the texture that this [makeTexture] creates holds the
    rows of the picture in the order of the file, row [h] of the picture in
    row [h] of the texture: there is no flip, and the internal format is
    [RGB8]. *)
Theorem makeTexture3_keeps_rows d p filename img w (W H h x c v : Z) :
  Glfw.files p filename = inr img ->
  Rect img = at_origin W H ->
  0 <= h < H -> 0 <= x < W -> 0 <= c < 4 ->
  byte_at img x h c = Some v ->
  exists t w' tx,
    Testing3.makeTexture d p filename w = GL.Ok t w'
    /\ GL.textures (GL.ctx w') !! t = Some tx
    /\ GL.tx_internalformat tx = GL.RGB8
    /\ GL.tx_pixels tx !! Z.to_nat (h * (4 * W) + x * 4 + c) = Some v.
Proof.
  intros F R Hh Hx Hc Hv. eexists _, _, _.
  rewrite (Testing3_makeTexture_run d p filename img w F).
  split; [reflexivity|]. split; [apply upload_texture|]. split; [reflexivity|].
  cbn [GL.tx_pixels].
  assert (HW : 0 < W) by lia. assert (HH : 0 < H) by lia.
  set (dst := NewRGBA (Bounds img)).
  assert (Rd : Rect dst = at_origin W H) by (unfold dst, Bounds; now rewrite R).
  assert (Sd : Stride dst = 4 * W).
  { unfold dst, Bounds. rewrite R. cbn. unfold Dx. cbn. lia. }
  assert (Ld : length (Pix dst) = Z.to_nat (4 * W * H)).
  { unfold dst, Bounds. rewrite R. cbn. unfold Dx, Dy. cbn.
    rewrite length_replicate. f_equal. lia. }
  set (i := Z.to_nat (h * (4 * W) + x * 4 + c)).
  rewrite (Draw_whole W H dst img i HW HH Rd Sd R).
  assert (Hi : Z.of_nat i = h * (4 * W) + (x * 4 + c)) by (unfold i; nia).
  assert (Hrow : Z.of_nat i / (4 * W) = h).
  { rewrite Hi. rewrite Z.div_add_l by lia. rewrite Z.div_small by lia. lia. }
  assert (Hcol : Z.of_nat i mod (4 * W) = x * 4 + c).
  { rewrite Hi. rewrite Z.add_comm, Z.mod_add by lia. apply Z.mod_small. lia. }
  assert (Hlt : (i < length (Pix dst))%nat) by (rewrite Ld; unfold i; nia).
  destruct (lookup_lt_is_Some_2 (Pix dst) i Hlt) as [old Eo]. rewrite Eo. cbn.
  rewrite Hrow, Hcol. destruct (Z.ltb_spec h H); [|lia].
  f_equal. unfold byte_at, PixOffset in Hv. rewrite R in Hv. cbn [Min X Y at_origin] in Hv.
  replace (Z.to_nat (h * Stride img + (x * 4 + c)))
    with (Z.to_nat ((h - 0) * Stride img + (x - 0) * 4 + c)) by (f_equal; lia).
  now rewrite Hv.
Qed.

Lemma makeTexture3_keeps_rows_witness :
  exists t w' tx,
    Testing3.makeTexture Sample.driver (Sample.platform Sample.two_rows []) "hello1.png"
      Sample.start = GL.Ok t w'
    /\ GL.textures (GL.ctx w') !! t = Some tx
    /\ GL.tx_internalformat tx = GL.RGB8
    /\ GL.tx_pixels tx !! Z.to_nat (1 * (4 * 2) + 1 * 4 + 2) = Some 17.
Proof.
  apply (makeTexture3_keeps_rows Sample.driver (Sample.platform Sample.two_rows [])
           "hello1.png" Sample.two_rows Sample.start 2 2 1 1 2 17);
    first [reflexivity | lia].
Defined.

(** X14: [hello.go]: the texture that [makeTexture] creates holds the
    picture upside down, row [h] of the picture in row [H-1-h] of the
    texture, and its internal format is [RGBA]. *)
Theorem makeTexture_flips_rows d p filename img w (W H h x c v : Z) :
  Glfw.files p filename = inr img ->
  Rect img = at_origin W H ->
  0 <= h < H -> 0 <= x < W -> 0 <= c < 4 ->
  byte_at img x h c = Some v ->
  exists t w' tx,
    Hello.makeTexture d p filename w = GL.Ok t w'
    /\ GL.textures (GL.ctx w') !! t = Some tx
    /\ GL.tx_internalformat tx = GL.RGBA
    /\ GL.tx_pixels tx !! Z.to_nat ((H - 1 - h) * (4 * W) + x * 4 + c) = Some v.
Proof.
  intros F R Hh Hx Hc Hv.
  destruct (Hello_makeTexture_flips d p filename img w W H h x c v F R Hh Hx Hc Hv)
    as (t & w' & tx & E & T & P).
  exists t, w', tx. repeat split; try assumption.
  rewrite (Hello_makeTexture_run d p filename img w F) in E. injection E as <- <-.
  rewrite upload_texture in T. now injection T as <-.
Qed.

Lemma makeTexture_flips_rows_witness :
  exists t w' tx,
    Hello.makeTexture Sample.driver (Sample.platform Sample.two_rows []) "hello1.png"
      Sample.start = GL.Ok t w'
    /\ GL.textures (GL.ctx w') !! t = Some tx
    /\ GL.tx_internalformat tx = GL.RGBA
    /\ GL.tx_pixels tx !! Z.to_nat ((2 - 1 - 1) * (4 * 2) + 1 * 4 + 2) = Some 17.
Proof.
  apply (makeTexture_flips_rows Sample.driver (Sample.platform Sample.two_rows [])
           "hello1.png" Sample.two_rows Sample.start 2 2 1 1 2 17);
    first [reflexivity | lia].
Defined.

(** X16: the test for an "unsupported stride" in both [makeTexture]
    functions looks at the upload buffer that [image.NewRGBA] has just made,
    whose stride is always four times its width; the stride of the decoded
    picture is never looked at.  So once the file is decoded, [makeTexture]
    returns a texture of the picture's size with [4*width*height] bytes,
    whatever the picture's own stride. *)
Theorem makeTexture_any_stride d p filename img w :
  Glfw.files p filename = inr img ->
  exists t w1 w3 tx1 tx3,
    Hello.makeTexture d p filename w = GL.Ok t w1
    /\ GL.textures (GL.ctx w1) !! t = Some tx1
    /\ Testing3.makeTexture d p filename w = GL.Ok t w3
    /\ GL.textures (GL.ctx w3) !! t = Some tx3
    /\ GL.tx_width tx1 = int32 (Dx (Rect img)) /\ GL.tx_width tx3 = int32 (Dx (Rect img))
    /\ GL.tx_height tx1 = int32 (Dy (Rect img)) /\ GL.tx_height tx3 = int32 (Dy (Rect img))
    /\ length (GL.tx_pixels tx1) = Z.to_nat (4 * Dx (Rect img) * Dy (Rect img))
    /\ length (GL.tx_pixels tx3) = Z.to_nat (4 * Dx (Rect img) * Dy (Rect img)).
Proof.
  intros F.
  destruct (makeTexture_ignores_stride d p filename img w F)
    as (t & w1 & w3 & E1 & (px1 & T1 & L1) & E3 & (px3 & T3 & L3)).
  eexists t, w1, w3, _, _. rewrite T1, T3. repeat split; try eassumption; try reflexivity.
Qed.

Lemma makeTexture_any_stride_witness :
  exists t w1 w3 tx1 tx3,
    Hello.makeTexture Sample.driver (Sample.platform Sample.padded []) "hello1.png"
      Sample.start = GL.Ok t w1
    /\ GL.textures (GL.ctx w1) !! t = Some tx1
    /\ Testing3.makeTexture Sample.driver (Sample.platform Sample.padded []) "hello1.png"
         Sample.start = GL.Ok t w3
    /\ GL.textures (GL.ctx w3) !! t = Some tx3
    /\ GL.tx_width tx1 = int32 (Dx (Rect Sample.padded))
    /\ GL.tx_width tx3 = int32 (Dx (Rect Sample.padded))
    /\ GL.tx_height tx1 = int32 (Dy (Rect Sample.padded))
    /\ GL.tx_height tx3 = int32 (Dy (Rect Sample.padded))
    /\ length (GL.tx_pixels tx1)
       = Z.to_nat (4 * Dx (Rect Sample.padded) * Dy (Rect Sample.padded))
    /\ length (GL.tx_pixels tx3)
       = Z.to_nat (4 * Dx (Rect Sample.padded) * Dy (Rect Sample.padded)).
Proof.
  apply (makeTexture_any_stride Sample.driver (Sample.platform Sample.padded [])
           "hello1.png" Sample.padded Sample.start).
  reflexivity.
Defined.

(** *** The loader that is never called *)

Lemma Testing3_render_no_texture Sin Cos width height seconds r :
  forallb no_texture (Testing3.render Sin Cos width height seconds r) = true.
Proof. unfold Testing3.render. destruct (Testing3.scale _ _). reflexivity. Qed.

Lemma Testing3_loop_no_texture d Sin Cos fs :
  forall win r, emits_only d no_texture (Testing3.loop d Sin Cos fs win r).
Proof.
  induction fs as [|f fs IH]; intros win r; cbn [Testing3.loop];
    destruct (Glfw.ShouldClose win); try apply eo_ret.
  apply eo_bind; [apply eo_emits, Testing3_render_no_texture | intros _].
  apply eo_bind; [apply eo_emit; reflexivity | intros _].
  apply IH.
Qed.

(** X20: "Testing 3+" never calls its [makeTexture]: however a run of its
    [main] ends, it has created no texture and uploaded no picture. *)
Theorem Testing3_makes_no_texture d Sin Cos p w :
  match GL.final (Testing3.main d Sin Cos p w) with
  | Some w' => exists cs, w' = GL.run_calls d cs w /\ forallb no_texture cs = true
  | None => True
  end.
Proof.
  revert w. change (emits_only d no_texture (Testing3.main d Sin Cos p)).
  unfold Testing3.main.
  destruct (Glfw.glfw_Init p); [apply eo_panic|].
  destruct (Glfw.CreateWindow p); [apply eo_panic|].
  destruct (Glfw.gl_Init p); [apply eo_panic|].
  apply eo_bind.
  - unfold Testing3.makeResources, Shared.makeBuffer, Shared.makeShader, Shared.makeProgram,
      GL.glGenBuffers, GL.glCreateShader, GL.glCreateProgram, GL.glGetShaderiv,
      GL.glGetShaderInfoLog, GL.glGetProgramiv, GL.glGetProgramInfoLog,
      GL.glGetUniformLocation, GL.glGetAttribLocation.
    eo.
  - intros r. apply eo_bind; [apply eo_emit; reflexivity | intros _].
    apply Testing3_loop_no_texture.
Qed.

End Textures.

(** ** The scene of "Testing" *)
Module Scene.
Import GLFacts Frames Props Runs Draws Immediate.
Local Open Scope Z_scope.

(** The loop of the colour circle adds one vertex for each of its turns to
    the primitive that is being specified. *)
Lemma circle_vertices Sin Cos s steps m : forall n fin st er,
  Immediate.run (flat_map (Testing.circle_vertex Sin Cos s) steps)
    (Immediate.State (Some m) n fin st er)
  = Immediate.State (Some m) (length steps + n) fin st er.
Proof.
  induction steps as [|i steps IH]; intros n fin st er; [reflexivity|].
  cbn [flat_map]. unfold Immediate.run in *. rewrite fold_left_app.
  set (rest := flat_map (Testing.circle_vertex Sin Cos s) steps) in *.
  unfold Testing.circle_vertex.
  destruct (Shared.hsb2rgb _ _ _) as [[r g] b].
  cbn [fold_left Immediate.step Immediate.current Immediate.vertices Immediate.finished
       Immediate.stray Immediate.errors].
  rewrite IH. cbn [length]. f_equal. lia.
Qed.

(** The primitives of one frame. *)
Lemma drawScene_run d Sin Cos width height time w :
  exists cs,
    Testing.drawScene d Sin Cos width height time w = GL.Ok tt (GL.run_calls d cs w)
    /\ (forall fin st er,
          Immediate.run cs (Immediate.State None 0 fin st er)
          = Immediate.State None 0 (fin ++ scene_primitives) (4 + st) (2 + er))
    /\ existsb Immediate.is_swap cs = false.
Proof.
  destruct circle_steps_some as (steps & Es & Ls).
  unfold Testing.drawScene. destruct (Testing.orthoExtents _) as [[[x1 x2] y1] y2].
  rewrite Es. cbn [GL.of_loop].
  rewrite bind_emits. rewrite (bind_Ok _ _ _ _ _ eq_refl : GL.bind (GL.ret steps) _ _ = _).
  rewrite bind_emits, emit_run, <- !run_calls_app.
  eexists. split; [reflexivity|]. split.
  - intros fin st er. unfold Immediate.run. rewrite !fold_left_app.
    cbn [fold_left Immediate.step Immediate.current Immediate.vertices
         Immediate.finished Immediate.stray Immediate.errors Immediate.primitive app].
    match goal with
    | |- context [fold_left Immediate.step (flat_map ?f steps) ?s0] =>
        change (fold_left Immediate.step (flat_map f steps) s0)
          with (Immediate.run (flat_map f steps) s0)
    end.
    rewrite circle_vertices, Ls. cbn [Immediate.current Immediate.vertices
         Immediate.finished Immediate.stray Immediate.errors].
    unfold scene_primitives. rewrite <- app_assoc. reflexivity.
  - rewrite !existsb_app. cbn [existsb Immediate.is_swap orb].
    rewrite orb_false_r. apply forallb_negb_existsb, forallb_forall.
    intros c Hc. apply in_flat_map in Hc as (i & _ & Hc).
    unfold Testing.circle_vertex in Hc. destruct (Shared.hsb2rgb _ _ _) as [[r g] b].
    destruct Hc as [<-|[<-|[]]]; reflexivity.
Qed.

(** X6: "Testing": [drawScene] always returns.  Of the three groups of vertices
    it specifies, the triangle (3 vertices) and the colour circle (126
    vertices) are primitives.  The first group, the two axes, is begun with
    [gl.LINE], which is a polygon mode and not a primitive ([gl.LINES] is):
    that [Begin] and the [End] after it raise an error each, and the four
    vertices between them belong to no primitive. *)
Theorem drawScene_primitives d Sin Cos width height time w :
  exists cs,
    Testing.drawScene d Sin Cos width height time w = GL.Ok tt (GL.run_calls d cs w)
    /\ Immediate.run cs Immediate.start
       = Immediate.State None 0 [(GL.TRIANGLES, 3%nat); (GL.LINE_LOOP, 126%nat)] 4 2.
Proof.
  destruct (drawScene_run d Sin Cos width height time w) as (cs & E & R & _).
  exists cs. split; [exact E|]. apply (R [] 0%nat 0%nat).
Qed.

Lemma Testing_loop_closed d Sin Cos fs win w :
  Glfw.ShouldClose win = true -> Testing.loop d Sin Cos fs win w = GL.Ok tt w.
Proof. intros H. destruct fs; cbn [Testing.loop]; now rewrite H. Qed.

Lemma Testing_poll_open (f : Glfw.frame) win :
  Glfw.ShouldClose win = false ->
  Glfw.ShouldClose
    (fold_left (fun w c => snd (Testing.charCallBack w c)) (Glfw.chars f) win)
  = typed_q f.
Proof. exact (MainLoop.poll_open f win). Qed.

Lemma Testing_loop_calls d Sin Cos fs :
  forall win w fin st er,
    Glfw.ShouldClose win = false ->
    exists cs,
      Testing.loop d Sin Cos fs win w = GL.Ok tt (GL.run_calls d cs w)
      /\ Props.count Immediate.is_swap cs = length (frames_shown fs)
      /\ Immediate.run cs (Immediate.State None 0 fin st er)
         = Immediate.State None 0
             (fin ++ flat_map (fun _ => scene_primitives) (frames_shown fs))
             (4 * length (frames_shown fs) + st) (2 * length (frames_shown fs) + er).
Proof.
  induction fs as [|f fs IH]; intros win w fin st er Hw; cbn [Testing.loop]; rewrite Hw.
  - exists []. rewrite run_calls_nil. split; [reflexivity|]. split; [reflexivity|].
    cbn [frames_shown flat_map length Immediate.run fold_left].
    now rewrite app_nil_r.
  - destruct (drawScene_run d Sin Cos (Glfw.fb_width f) (Glfw.fb_height f)
                (Glfw.seconds f) w) as (cs & E & R & NS).
    rewrite (bind_Ok _ _ _ _ _ E), bind_emit, <- run_calls_app.
    pose proof (Testing_poll_open f win Hw) as Hp.
    assert (C1 : Props.count Immediate.is_swap (cs ++ [GL.SwapBuffers]) = 1%nat).
    { rewrite count_app. apply count_zero in NS. rewrite NS. reflexivity. }
    assert (R1 : Immediate.run (cs ++ [GL.SwapBuffers]) (Immediate.State None 0 fin st er)
                 = Immediate.State None 0 (fin ++ scene_primitives) (4 + st) (2 + er)).
    { unfold Immediate.run. rewrite fold_left_app. fold (Immediate.run cs).
      now rewrite R. }
    cbn [frames_shown]. destruct (typed_q f).
    + rewrite Testing_loop_closed by exact Hp. exists (cs ++ [GL.SwapBuffers]).
      split; [reflexivity|]. split; [exact C1|]. rewrite R1.
      cbn [length flat_map]. rewrite app_nil_r. reflexivity.
    + destruct (IH _ (GL.run_calls d (cs ++ [GL.SwapBuffers]) w) (fin ++ scene_primitives)
                  (4 + st)%nat (2 + er)%nat Hp) as (cs2 & E2 & C2 & R2).
      exists ((cs ++ [GL.SwapBuffers]) ++ cs2). rewrite E2.
      split; [now rewrite (run_calls_app d (cs ++ [GL.SwapBuffers]) cs2)|]. split.
      * rewrite count_app, C1, C2. reflexivity.
      * unfold Immediate.run in *. rewrite fold_left_app, R1, R2.
        cbn [length flat_map]. rewrite <- app_assoc. f_equal; lia.
Qed.

(** X7: "Testing": the loop ends after the iteration during which a ['q'] is
    typed; until then each iteration shows one frame, and each frame is the
    two primitives of [drawScene], four vertices outside any primitive and
    two errors. *)
Theorem Testing_loop_frames d Sin Cos fs w :
  exists cs,
    Testing.loop d Sin Cos fs (Glfw.mkWindow false) w = GL.Ok tt (GL.run_calls d cs w)
    /\ Props.count Immediate.is_swap cs = length (frames_shown fs)
    /\ Immediate.run cs Immediate.start
       = Immediate.State None 0
           (flat_map (fun _ => scene_primitives) (frames_shown fs))
           (4 * length (frames_shown fs)) (2 * length (frames_shown fs)).
Proof.
  destruct (Testing_loop_calls d Sin Cos fs (Glfw.mkWindow false) w [] 0%nat 0%nat eq_refl)
    as (cs & E & C & R).
  exists cs. split; [exact E|]. split; [exact C|].
  change Immediate.start with (Immediate.State None 0 [] 0 0). rewrite R.
  f_equal; lia.
Qed.

End Scene.
